(** * Telegram member export: chat identifiers, activity scan, export run

    A shallow embedding of [telegram_user_state/chat_utils.py] and
    [telegram_user_state/member_export.py], and the properties of the
    identifier normalizer, the invite resolver, the participant
    enumerator, the activity correlator and the export run.

    Conventions of the embedding.
    - A Python [str] is a [string]; the embedding covers ASCII text
      (whitespace, digits and letter case are the ASCII ones).
    - A Python [int] is a [Z]; [str(int)] and [int(str)] are the decimal
      conversions of the standard library, refused beyond the
      interpreter's limit of 4300 digits (CPython's default).
    - A [dict] keyed by user id is a [gmap Z _], a [set] of ids a [gset Z].
    - A call that may raise returns an [Outcome]; remote calls are answered
      by an explicit client script, so that every behaviour of the remote
      side is an input of the model. *)

From Stdlib Require Import ZArith String Ascii DecimalString DecimalZ.
From stdpp Require Import base option list gmap sets strings.

Local Open Scope Z_scope.
Local Open Scope string_scope.

(** ** Exceptions and results *)

Module Py.

(** The exception classes that occur: built-in ones and Telethon's
    [RPCError] with some of its subclasses. *)
Inductive ExcClass :=
| ValueError
| TypeError
| NameError
| AttributeError
| OSError
| ConnectionError
| RPCError
| ChatAdminRequiredError
| UserAlreadyParticipantError
| FloodWaitError
| PhoneCodeInvalidError.

Record Exc := mkExc { exc_class : ExcClass; exc_msg : string }.

Definition class_eqb (c d : ExcClass) : bool :=
  match c, d with
  | ValueError, ValueError | TypeError, TypeError
  | NameError, NameError | AttributeError, AttributeError
  | OSError, OSError
  | ConnectionError, ConnectionError | RPCError, RPCError
  | ChatAdminRequiredError, ChatAdminRequiredError
  | UserAlreadyParticipantError, UserAlreadyParticipantError
  | FloodWaitError, FloodWaitError
  | PhoneCodeInvalidError, PhoneCodeInvalidError => true
  | _, _ => false
  end.

(** [ConnectionError] derives from [OSError]; Telethon's request errors
    derive from [RPCError]. *)
Definition parent (c : ExcClass) : option ExcClass :=
  match c with
  | ConnectionError => Some OSError
  | ChatAdminRequiredError | UserAlreadyParticipantError
  | FloodWaitError | PhoneCodeInvalidError => Some RPCError
  | _ => None
  end.

Definition issubclass (c d : ExcClass) : bool :=
  class_eqb c d ||
  match parent c with
  | Some p => class_eqb p d
  | None => false
  end.

(** Does [except (c1, c2, ...)] catch [e]? *)
Definition caught_by (e : Exc) (classes : list ExcClass) : bool :=
  existsb (issubclass (exc_class e)) classes.

Inductive Outcome (A : Type) :=
| Ok (a : A)
| Raise (e : Exc).
Arguments Ok {A} a.
Arguments Raise {A} e.

Definition is_ok {A} (o : Outcome A) : bool :=
  match o with Ok _ => true | Raise _ => false end.

(** One statement after another: the first exception ends the sequence. *)
Definition and_then {A B} (o : Outcome A) (k : A -> Outcome B) : Outcome B :=
  match o with
  | Ok a => k a
  | Raise e => Raise e
  end.

#[export] Instance Outcome_ret : MRet Outcome := @Ok.
#[export] Instance Outcome_bind : MBind Outcome := fun A B k o => and_then o k.

(** A call [f(k1=..., k2=...)] of a function with the parameters
    [params]: a keyword that is not among them is a [TypeError], raised
    before the body of the function runs. *)
Definition call_with_keywords (qualname : string) (params kwargs : list string)
  : Outcome unit :=
  match List.find (fun k => negb (existsb (String.eqb k) params)) kwargs with
  | Some k =>
      Raise (mkExc TypeError
               (qualname +:+ "() got an unexpected keyword argument '" +:+ k +:+ "'"))
  | None => Ok tt
  end.

(** A global name of a module, bound to an exception class or to some
    other object. *)
Inductive Binding :=
| BoundClass (c : ExcClass)
| BoundOther.

Definition Namespace := list (string * Binding).

Fixpoint lookup_name (ns : Namespace) (name : string) : option Binding :=
  match ns with
  | [] => None
  | (n, b) :: ns' => if String.eqb n name then Some b else lookup_name ns' name
  end.

(** Evaluating the expression of an [except NAME:] clause, which Python
    does once an exception reaches the clause: an unbound name raises
    [NameError]. *)
Definition except_class (ns : Namespace) (name : string) : Outcome ExcClass :=
  match lookup_name ns name with
  | Some (BoundClass c) => Ok c
  | Some BoundOther =>
      Raise (mkExc TypeError
               "catching classes that do not inherit from BaseException is not allowed")
  | None => Raise (mkExc NameError ("name '" +:+ name +:+ "' is not defined"))
  end.

(** A stream ([async for]): the items it yields, then either its end or
    an exception. *)
Record Stream (A : Type) := mkStream {
  items : list A;
  failure : option Exc
}.
Arguments mkStream {A} items failure.
Arguments items {A} s.
Arguments failure {A} s.

(** The stream cut by [limit=n]: a non-positive limit yields nothing,
    and a stream that delivers [n] items is not asked for more. *)
Definition limit_stream {A} (limit : Z) (s : Stream A) : Stream A :=
  let n := Z.to_nat limit in
  if (n <=? length (items s))%nat then mkStream (take n (items s)) None
  else s.

End Py.

(** ** Python string primitives *)

Module PyStr.
Import Py.

Definition code (c : ascii) : N := N_of_ascii c.

Definition between (lo hi : N) (c : ascii) : bool :=
  ((lo <=? code c) && (code c <=? hi))%N.

(** [str.isspace] on ASCII: TAB..CR, FS..US and the blank. *)
Definition isspace (c : ascii) : bool := between 9 13 c || between 28 32 c.

(** The range [0-9], and the class [\d] on ASCII text. *)
Definition isdigit (c : ascii) : bool := between 48 57 c.

Definition lower_char (c : ascii) : ascii :=
  if between 65 90 c then ascii_of_N (code c + 32) else c.

Fixpoint lower (s : string) : string :=
  match s with
  | EmptyString => EmptyString
  | String c s' => String (lower_char c) (lower s')
  end.

Fixpoint all_chars (p : ascii -> bool) (s : string) : bool :=
  match s with
  | EmptyString => true
  | String c s' => p c && all_chars p s'
  end.

(** [re.sub] of every character outside a class by the empty string. *)
Fixpoint keep_chars (p : ascii -> bool) (s : string) : string :=
  match s with
  | EmptyString => EmptyString
  | String c s' => if p c then String c (keep_chars p s') else keep_chars p s'
  end.

Fixpoint lstrip_with (p : ascii -> bool) (s : string) : string :=
  match s with
  | EmptyString => EmptyString
  | String c s' => if p c then lstrip_with p s' else s
  end.

Fixpoint rstrip_with (p : ascii -> bool) (s : string) : string :=
  match s with
  | EmptyString => EmptyString
  | String c s' =>
      match rstrip_with p s' with
      | EmptyString => if p c then EmptyString else String c EmptyString
      | r => String c r
      end
  end.

Definition strip_with (p : ascii -> bool) (s : string) : string :=
  rstrip_with p (lstrip_with p s).

(** [s.strip()], [s.strip(c)] and [s.lstrip(c)]. *)
Definition strip (s : string) : string := strip_with isspace s.
Definition strip_char (c : ascii) (s : string) : string :=
  strip_with (Ascii.eqb c) s.
Definition lstrip_char (c : ascii) (s : string) : string :=
  lstrip_with (Ascii.eqb c) s.

Fixpoint startswith (s p : string) {struct p} : bool :=
  match p, s with
  | EmptyString, _ => true
  | String a p', String b s' => Ascii.eqb a b && startswith s' p'
  | String _ _, EmptyString => false
  end.

Definition nonempty (s : string) : bool :=
  match s with EmptyString => false | _ => true end.

(** The first character, if any, is outside the class [p]. *)
Definition head_ok (p : ascii -> bool) (s : string) : Prop :=
  match s with
  | EmptyString => True
  | String c _ => p c = false
  end.

Definition digit_chars : list ascii :=
  ["0"; "1"; "2"; "3"; "4"; "5"; "6"; "7"; "8"; "9"]%char.

(** [s.split(sep)] for a one-character separator: empty fields are kept
    and the result always has at least one field. *)
Fixpoint split (sep : ascii) (s : string) : list string :=
  match s with
  | EmptyString => [EmptyString]
  | String c s' =>
      if Ascii.eqb c sep then EmptyString :: split sep s'
      else match split sep s' with
           | [] => [String c EmptyString]
           | w :: ws => String c w :: ws
           end
  end.

(** [sys.get_int_max_str_digits()] at its default: the most digits of
    a decimal numeral that [int] reads and [str] writes. *)
Definition int_max_str_digits : N := 4300.

(** The digits of a numeral: what follows its sign. *)
Definition numeral_digits (s : string) : string :=
  match s with
  | String c ds => if Ascii.eqb c "-" then ds else s
  | EmptyString => s
  end.

Definition within_digit_limit (s : string) : bool :=
  (N.of_nat (String.length (numeral_digits s)) <=? int_max_str_digits)%N.

(** The decimal text of an integer: what [str(n)] returns when it
    returns. Where the source prints a count or a Telegram id, this text
    is used as it stands: those numbers are far below the digit limit. *)
Definition py_str (z : Z) : string := NilZero.string_of_int (Z.to_int z).

(** [str(n)] for an [int] that is not a [bool]: beyond the digit limit
    it raises [ValueError]. *)
Definition str_of_int (z : Z) : Outcome string :=
  if within_digit_limit (py_str z) then Ok (py_str z)
  else Raise (mkExc ValueError
                "Exceeds the limit (4300 digits) for integer string conversion; use sys.set_int_max_str_digits() to increase the limit").

(** [str(b)] for a [bool]. *)
Definition str_of_bool (b : bool) : string := if b then "True" else "False".

(** The integer that a decimal numeral writes: an optional minus sign
    and at least one digit. The source only passes [int] strings over
    the digits and ["-"], where this is the whole of Python's grammar. *)
Definition decimal_value (s : string) : option Z :=
  Z.of_int <$> NilZero.int_of_string s.

(** [int(s)]: the value of a numeral within the digit limit; [None]
    stands for [ValueError]. *)
Definition py_int (s : string) : option Z :=
  if within_digit_limit s then decimal_value s else None.

End PyStr.

(** ** chat_utils.py: the identifier normalizer *)

Module ChatUtils.
Import Py PyStr.

(** [Union[str, int]]; a [bool] is an [int] that prints as a word. *)
Inductive Target :=
| TStr (s : string)
| TInt (z : Z)
| TBool (b : bool).

Record NormalizedChat := mkNormalizedChat {
  raw : string;
  target : Target;
  invite_hash : option string
}.

(** What a caller can pass for [chat]: a [str], an [int] that is not a
    [bool], a [bool] (which [isinstance(chat, int)] accepts), a
    descriptor, or anything else. *)
Inductive ChatArg :=
| ArgStr (s : string)
| ArgInt (z : Z)
| ArgBool (b : bool)
| ArgNormalized (c : NormalizedChat)
| ArgOther.

(** The two fields of [urllib.parse.ParseResult] the source reads. *)
Record ParseResult := mkParseResult {
  netloc : string;
  path : string
}.

(** [100\d{5,}] up to the end of the string. *)
Definition pattern_body (b : string) : bool :=
  match b with
  | String c1 (String c2 (String c3 ds)) =>
      Ascii.eqb c1 "1" && Ascii.eqb c2 "0" && Ascii.eqb c3 "0"
      && (5 <=? String.length ds)%nat && all_chars isdigit ds
  | _ => false
  end.

(** [re.fullmatch(r"-?100\d{5,}", raw)] for ASCII [raw]. *)
Definition channel_id_pattern (s : string) : bool :=
  pattern_body (match s with
                | String c s' => if Ascii.eqb c "-" then s' else s
                | EmptyString => s
                end).

Definition domain_aliases : list string :=
  ["t.me"; "telegram.me"; "telegram.dog";
   "www.t.me"; "www.telegram.me"; "www.telegram.dog"].

Definition in_strings (s : string) (l : list string) : bool :=
  existsb (String.eqb s) l.

(** [int(s)] under [try], with the string kept when parsing fails. *)
Definition int_or_str (s : string) : Target :=
  match py_int s with
  | Some z => TInt z
  | None => TStr s
  end.

Definition _from_invite (raw hash_value : string) : NormalizedChat :=
  mkNormalizedChat raw (TStr raw) (Some hash_value).

Definition numeric_class (c : ascii) : bool :=
  isdigit c || Ascii.eqb c "-".

Section Normalizer.
(** [urllib.parse.urlparse]; [None] when it raises. *)
Variable urlparse : string -> option ParseResult.

(** The body of [if parts:] (lines 66-88): [None] when no [return]
    is reached. *)
Definition from_parts (raw : string) (parts : list string)
  : option NormalizedChat :=
  match parts with
  | [] => None
  | first :: rest =>
      let c_link :=
        if String.eqb first "c" && (2 <=? length parts)%nat then
          let numeric := keep_chars numeric_class (nth 1 parts "") in
          if nonempty numeric then
            Some (mkNormalizedChat raw
                    (if startswith numeric "-100" then int_or_str numeric
                     else int_or_str ("-100" +:+ lstrip_char "-" numeric))
                    None)
          else None
        else None in
      match c_link with
      | Some r => Some r
      | None =>
          if in_strings first ["joinchat"; "addstickers"]
             && (2 <=? length parts)%nat
          then Some (_from_invite raw (nth 1 parts ""))
          else if startswith first "+"
          then Some (_from_invite raw (lstrip_char "+" first))
          else Some (mkNormalizedChat raw (TStr first) None)
      end
  end.

(** The [http://] / [https://] block (lines 58-88). *)
Definition from_url (raw : string) : option NormalizedChat :=
  let lower := lower raw in
  if startswith lower "http://" || startswith lower "https://" then
    match urlparse raw with
    | Some parsed =>
        if in_strings (PyStr.lower (netloc parsed)) domain_aliases then
          let path := strip_char "/" (path parsed) in
          let parts := if nonempty path then split "/" path else [] in
          from_parts raw parts
        else None
    | None => None
    end
  else None.

(** The string case, from [raw = chat.strip()] on. *)
Definition normalize_str (chat : string) : option NormalizedChat :=
  let raw := strip chat in
  if negb (nonempty raw) then None
  else if channel_id_pattern raw then
    Some (mkNormalizedChat raw (int_or_str raw) None)
  else
    match from_url raw with
    | Some r => Some r
    | None =>
        if startswith raw "+"
        then Some (_from_invite raw (lstrip_char "+" raw))
        else Some (mkNormalizedChat raw (TStr raw) None)
    end.

(** Lines 21-94. The result is what the function returns; it raises
    only where [str(chat)] does (line 25). *)
Definition normalize_chat_identifier (chat : ChatArg)
  : Outcome (option NormalizedChat) :=
  match chat with
  | ArgNormalized c => Ok (Some c)
  | ArgInt z =>
      match str_of_int z with
      | Ok raw => Ok (Some (mkNormalizedChat raw (TInt z) None))
      | Raise e => Raise e
      end
  | ArgBool b => Ok (Some (mkNormalizedChat (str_of_bool b) (TBool b) None))
  | ArgStr s => Ok (normalize_str s)
  | ArgOther => Ok None
  end.
End Normalizer.

End ChatUtils.

(** ** urllib.parse.urlparse

    [normalize_chat_identifier] takes the URL parser as a parameter, and
    the general statements below hold for any parser. For the concrete
    inputs this is the parser of the Python standard library, restricted
    to the two components the normalizer reads: leading control characters
    and blanks dropped, TAB/CR/LF removed, the scheme cut at the first
    [":"], the authority between ["//"] and the first of ["/?#"], then the
    fragment, the query and the parameters of the last segment cut off. A
    netloc with an unmatched square bracket makes the parser raise. *)

Module UrlLib.
Import PyStr ChatUtils.

Fixpoint contains (c : ascii) (s : string) : bool :=
  match s with
  | EmptyString => false
  | String d s' => Ascii.eqb d c || contains c s'
  end.

(** [s] cut before its first character in the class [p]. *)
Fixpoint break_at (p : ascii -> bool) (s : string) : string * string :=
  match s with
  | EmptyString => (EmptyString, EmptyString)
  | String c s' =>
      if p c then (EmptyString, s)
      else let '(a, b) := break_at p s' in (String c a, b)
  end.

Definition isalpha (c : ascii) : bool := between 65 90 c || between 97 122 c.

Definition scheme_char (c : ascii) : bool :=
  isalpha c || isdigit c || contains c "+-.".

Definition uses_params : list string :=
  [""; "ftp"; "hdl"; "prospero"; "http"; "imap"; "https"; "shttp";
   "rtsp"; "rtspu"; "sip"; "sips"; "mms"; "sftp"; "tel"].

(** [_splitparams]: the last path segment loses what follows its first
    [";"]. *)
Fixpoint drop_params (s : string) : string :=
  match s with
  | EmptyString => EmptyString
  | String c s' =>
      if contains "/" s' then String c (drop_params s')
      else if Ascii.eqb c ";" then EmptyString
      else String c (drop_params s')
  end.

(** TAB, CR and LF, which the parser removes from a URL. *)
Definition unsafe_chars : string :=
  String "009" (String "013" (String "010" EmptyString)).

Definition split_scheme (url : string) : string * string :=
  let '(pre, rest) := break_at (Ascii.eqb ":") url in
  match pre, rest with
  | String c _, String _ after =>
      if isalpha c && all_chars scheme_char pre then (lower pre, after)
      else (EmptyString, url)
  | _, _ => (EmptyString, url)
  end.

Definition urlparse (url0 : string) : option ParseResult :=
  let url1 := lstrip_with (between 0 32) url0 in
  let url2 := keep_chars (fun c => negb (contains c unsafe_chars)) url1 in
  let '(scheme, url3) := split_scheme url2 in
  let '(loc, url4) :=
    match url3 with
    | String "/"%char (String "/"%char r) => break_at (fun c => contains c "/?#") r
    | _ => (EmptyString, url3)
    end in
  if xorb (contains "[" loc) (contains "]" loc) then None
  else
    let url5 := fst (break_at (Ascii.eqb "#") url4) in
    let url6 := fst (break_at (Ascii.eqb "?") url5) in
    let url7 := if in_strings scheme uses_params && contains ";" url6
                then drop_params url6 else url6 in
    Some (mkParseResult loc url7).

End UrlLib.

(** ** The remote side: Telethon objects, the client script, the trace *)

Module Remote.
Import PyStr Py ChatUtils.

(** A [datetime]: the instant, whether [tzinfo] is set, and the text
    [isoformat()] gives for it. *)
Record Datetime := mkDatetime {
  dt_seconds : Z;
  dt_aware : bool;
  dt_iso : string
}.

Inductive ParticipantKind :=
| ChannelParticipant
| ChannelParticipantSelf
| ChannelParticipantAdmin
| ChannelParticipantCreator
| ChannelParticipantBanned
| ChannelParticipantLeft.

Record ParticipantInfo := mkParticipantInfo {
  p_kind : ParticipantKind;
  p_date : option Datetime
}.

(** The classes of the objects that [get_entity] and the iterators
    return, and the attributes among those the source reads that an
    object of each class has. *)
Inductive EntityClass :=
| UserObject
| ChatObject
| ChannelObject.

Definition class_name (cls : EntityClass) : string :=
  match cls with
  | UserObject => "User"
  | ChatObject => "Chat"
  | ChannelObject => "Channel"
  end.

Definition has_attribute (cls : EntityClass) (name : string) : bool :=
  match cls with
  | UserObject => in_strings name ["id"; "username"; "first_name"; "last_name"; "bot"]
  | ChatObject => in_strings name ["id"; "title"]
  | ChannelObject => in_strings name ["id"; "title"; "username"]
  end.

(** A user, chat or channel object. A field holds the value of the
    attribute of that name where the class of the object has it, [None]
    for Python's [None]; [attribute] and [getattr] read it. The
    [participant] record is attached to the users an enumeration yields
    and is read with [getattr]. *)
Record Entity := mkEntity {
  ent_class : EntityClass;
  ent_id : Z;
  ent_title : option string;
  ent_username : option string;
  ent_first_name : option string;
  ent_last_name : option string;
  ent_bot : bool;
  ent_participant : option ParticipantInfo
}.

(** [obj.name], read directly: an attribute the class lacks is an
    [AttributeError]. *)
Definition attribute {A} (obj : Entity) (name : string) (value : A) : Outcome A :=
  if has_attribute (ent_class obj) name then Ok value
  else Raise (mkExc AttributeError
                ("'" +:+ class_name (ent_class obj)
                 +:+ "' object has no attribute '" +:+ name +:+ "'")).

(** [getattr(obj, name, None)] *)
Definition getattr {A} (obj : Entity) (name : string) (value : option A)
  : option A :=
  if has_attribute (ent_class obj) name then value else None.

Inductive Peer :=
| PeerUser (user_id : Z)
| PeerChat (chat_id : Z)
| PeerChannel (channel_id : Z).

Inductive Reaction :=
| ReactionEmoji (emoticon : string)
| ReactionCustomEmoji (document_id : Z)
| ReactionPaid.

Record MessagePeerReaction := mkMessagePeerReaction {
  mpr_peer_id : option Peer;
  mpr_reaction : option Reaction;
  mpr_date : option Datetime
}.

(** [message.reactions] is [None] or an object whose [results] list the
    reaction counts. *)
Record Message := mkMessage {
  msg_id : Z;
  msg_sender_id : option Z;
  msg_date : Datetime;
  msg_reactions : option (list Z)
}.

Inductive InviteReply :=
| ChatInviteAlready (chat : Entity)
| ChatInvite (title : string)
| ChatInvitePeek (chat : Entity).

Inductive EntityKey :=
| ByTarget (t : Target)
| ByChat (chat : Entity).

Inductive ParticipantsFilter :=
| NoFilter
| ChannelParticipantsBots
| ChannelParticipantsRecent.

(** [client.start] connects and then logs in. *)
Inductive StartReply :=
| Started
| ConnectFailed (e : Exc)
| LoginFailed (e : Exc).

Inductive MessagesCall :=
| FallbackScan
| ActivityScan.

(** The answers of the remote side, one field per capability.
    [check_invite n] answers the invite check that follows [n] earlier
    ones; [reaction_type_emoji] tells whether the installed Telethon
    exports [ReactionTypeEmoji]. *)
Record Client := mkClient {
  start : StartReply;
  check_invite : nat -> string -> Outcome InviteReply;
  get_entity : EntityKey -> Outcome Entity;
  iter_participants : Entity -> ParticipantsFilter -> bool -> Stream Entity;
  iter_messages : MessagesCall -> Entity -> Stream Message;
  get_reactions : Entity -> Z -> Outcome (list MessagePeerReaction);
  reaction_type_emoji : bool
}.

(** A CSV row: the [dict] in insertion order. *)
Definition Row := list (string * string).

Inductive Event :=
| EvCopySession (src tmp : string)
| EvNewClient (session_id : string)
| EvConnect
| EvDisconnect
| EvCheckInvite (hash : string)
| EvGetEntity (key : EntityKey)
| EvGetReactions (message_id : Z)
| EvProgress (text : string)
| EvWriteCsv (path : string) (fieldnames : list string) (rows : list Row)
| EvUnlink (path : string).

(** Computations that may raise and that extend the trace. *)
Definition M (A : Type) : Type := list Event -> Outcome A * list Event.

Definition ret {A} (a : A) : M A := fun t => (Ok a, t).
Definition raise {A} (e : Exc) : M A := fun t => (Raise e, t).
Definition bind {A B} (m : M A) (k : A -> M B) : M B :=
  fun t => match m t with
           | (Ok a, t') => k a t'
           | (Raise e, t') => (Raise e, t')
           end.
Definition emit (ev : Event) : M unit := fun t => (Ok tt, (t ++ [ev])%list).

#[export] Instance M_ret : MRet M := @ret.
#[export] Instance M_bind : MBind M := fun A B k m => bind m k.
Definition lift {A} (o : Outcome A) : M A := fun t => (o, t).

(** [try: body / except: handler] *)
Definition try_except {A} (body : M A) (handler : Exc -> M A) : M A :=
  fun t => match body t with
           | (Ok a, t') => (Ok a, t')
           | (Raise e, t') => handler e t'
           end.

(** [try: body / finally: fin] *)
Definition try_finally {A} (body : M A) (fin : M unit) : M A :=
  fun t => match body t with
           | (r, t') =>
               match fin t' with
               | (Ok _, t'') => (r, t'')
               | (Raise e, t'') => (Raise e, t'')
               end
           end.

(** [if progress: progress(text)], for a callback that returns (the
    command line's [print], the window's logger). *)
Definition report (progress : bool) (text : string) : M unit :=
  if progress then emit (EvProgress text) else ret tt.

(** Is the connection open at the end of a trace? *)
Definition connected (t : list Event) : bool :=
  foldl (fun c ev => match ev with
                     | EvConnect => true
                     | EvDisconnect => false
                     | _ => c
                     end) false t.

End Remote.

(** ** chat_utils.py: the resolver *)

Module Resolver.
Import PyStr Py ChatUtils Remote.

Definition builtins : Namespace :=
  [("ValueError", BoundClass ValueError); ("TypeError", BoundClass TypeError);
   ("NameError", BoundClass NameError); ("OSError", BoundClass OSError);
   ("ConnectionError", BoundClass ConnectionError)].

(** What [chat_utils.py] imports and defines, then the built-in names. *)
Definition chat_utils_globals : Namespace :=
  ([("annotations", BoundOther); ("dataclass", BoundOther);
   ("Optional", BoundOther); ("Union", BoundOther);
   ("urlparse", BoundOther); ("re", BoundOther);
   ("CheckChatInviteRequest", BoundOther);
   ("ChatInviteAlready", BoundOther); ("ChatInvite", BoundOther);
   ("NormalizedChat", BoundOther);
   ("normalize_chat_identifier", BoundOther);
   ("resolve_chat_entity", BoundOther)] ++ builtins)%list.

Definition unresolved_invite : Exc :=
  mkExc ValueError
    "Invite link could not be resolved. Join the chat first or check permissions.".

(** [await client(CheckChatInviteRequest(invite_hash))], the [n]-th one. *)
Definition call_check_invite (client : Client) (n : nat) (h : string)
  : M InviteReply :=
  emit (EvCheckInvite h);; lift (check_invite client n h).

Definition call_get_entity (client : Client) (key : EntityKey) : M Entity :=
  emit (EvGetEntity key);; lift (get_entity client key).

Definition truthy (o : option string) : bool :=
  match o with Some s => nonempty s | None => false end.

Definition resolve_chat_entity (client : Client) (chat : NormalizedChat)
  : M Entity :=
  if truthy (invite_hash chat) then
    let invite_hash := default "" (invite_hash chat) in
    invite ← try_except
                (call_check_invite client 0 invite_hash)
                (fun e =>
                   cls ← lift (except_class chat_utils_globals
                                  "UserAlreadyParticipantError");
                   if issubclass (exc_class e) cls
                   then call_check_invite client 1 invite_hash
                   else raise e);
    match invite with
    | ChatInviteAlready chat => call_get_entity client (ByChat chat)
    | ChatInvite _ => raise unresolved_invite
    | _ => raise unresolved_invite
    end
  else call_get_entity client (ByTarget (target chat)).

End Resolver.

(** ** member_export.py *)

Module MemberExport.
Import PyStr Py ChatUtils Remote Resolver.

Record ExportSummary := mkExportSummary {
  total_members : nat;
  bot_count : nat;
  recent_count : nat;
  csv_path : string;
  chat_title : string
}.

Definition str_nat (n : nat) : string := py_str (Z.of_nat n).

Definition _format_dt (value : option Datetime) : string :=
  match value with
  | None => ""
  | Some v => if dt_aware v then dt_iso v else dt_iso v +:+ "Z"
  end.

Definition ReactionEntry : Type := option string * option Datetime.

Definition _format_reaction (reaction : option ReactionEntry) : string :=
  match reaction with
  | None => ""
  | Some (emoji, date) =>
      let ts := _format_dt date in
      if truthy emoji && nonempty ts then default "" emoji +:+ " @ " +:+ ts
      else if truthy emoji then default "" emoji
      else ts
  end.

Definition _status_from_participant (participant : option ParticipantInfo)
  : string :=
  match p_kind <$> participant with
  | Some ChannelParticipantAdmin | Some ChannelParticipantCreator => "admin"
  | Some ChannelParticipantBanned => "restricted"
  | Some ChannelParticipantLeft => "restricted"
  | _ => "member"
  end.

Definition stream_errors : list ExcClass := [ChatAdminRequiredError; RPCError].

(** The two [async for] loops never raise in their bodies: the counter
    and the set hold what the stream yielded when its exception, if any,
    reaches the [except] clause. *)
Definition _collect_bots_and_recent (client : Client) (entity : Entity)
    (progress : bool) : M (nat * gset Z) :=
  let bots := iter_participants client entity ChannelParticipantsBots true in
  let counted := foldl (fun n _ => S n) 0%nat (items bots) in
  bot_count ←
    match failure bots with
    | Some e =>
        if caught_by e stream_errors then
          report progress
            "Unable to enumerate bots without sufficient rights; continuing with 0.";;
          mret 0%nat
        else raise e
    | None =>
        report progress ("Bots counted: " +:+ str_nat counted);;
        mret counted
    end;
  let recent := iter_participants client entity ChannelParticipantsRecent false in
  let recent_ids : gset Z :=
    foldl (fun s user => {[ent_id user]} ∪ s) ∅ (items recent) in
  match failure recent with
  | Some e =>
      if caught_by e stream_errors then
        report progress
          "Unable to enumerate recent members without sufficient rights."
      else raise e
  | None =>
      report progress ("Recent participants counted: " +:+ str_nat (size recent_ids))
  end;;
  mret (bot_count, recent_ids).

Definition ReactionTuple : Type := option Z * option string * option Datetime.

Definition reaction_str (r : Reaction) : string :=
  match r with
  | ReactionEmoji e => "ReactionEmoji(emoticon='" +:+ e +:+ "')"
  | ReactionCustomEmoji d => "ReactionCustomEmoji(document_id=" +:+ py_str d +:+ ")"
  | ReactionPaid => "ReactionPaid()"
  end.

(** One pass of the loop over [response.reactions]. *)
Definition reaction_tuple (type_emoji : bool) (reaction : MessagePeerReaction)
  : ReactionTuple :=
  let user_id := match mpr_peer_id reaction with
                 | Some (PeerUser uid) => Some uid
                 | _ => None
                 end in
  let emoji :=
    match mpr_reaction reaction with
    | None => None
    | Some (ReactionEmoji e) =>
        if type_emoji then Some e
        else if nonempty e then Some e
        else Some (reaction_str (ReactionEmoji e))
    | Some r => Some (reaction_str r)
    end in
  (user_id, emoji, mpr_date reaction).

(** The parameters of [GetMessageReactionsListRequest.__init__], as
    Telethon generates them from the schema of
    [messages.getMessageReactionsList] ([peer id reaction offset limit]).
    The name without [Request] that line 19 tries first does not exist in
    Telethon, so that line 21 binds [GetMessageReactionsList] to this
    class. *)
Definition reactions_request_params : list string :=
  ["peer"; "id"; "limit"; "reaction"; "offset"].

(** The keywords of the call at lines 163-171. *)
Definition reactions_request_keywords : list string :=
  ["peer"; "id"; "limit"; "reaction"; "offset_peer"; "offset_id"; "offset_date"].

(** Lines 154-192. The request object is made inside the [try], before
    anything is sent; the [except] clause catches [RPCError] only. *)
Definition _fetch_reactions_for_message (client : Client) (entity : Entity)
    (message : Message) : M (list ReactionTuple) :=
  try_except
    (lift (call_with_keywords "GetMessageReactionsListRequest.__init__"
             reactions_request_params reactions_request_keywords);;
     emit (EvGetReactions (msg_id message));;
     response ← lift (get_reactions client entity (msg_id message));
     mret (reaction_tuple (reaction_type_emoji client) <$> response))
    (fun e => if caught_by e [RPCError] then mret [] else raise e).

Record ScanState := mkScanState {
  last_post : gmap Z Datetime;
  last_reaction : gmap Z ReactionEntry;
  scanned : nat
}.

Definition scan_init : ScanState := mkScanState ∅ ∅ 0.

(** [message.reactions and getattr(message.reactions, "results", None)] *)
Definition has_reaction_results (message : Message) : bool :=
  match msg_reactions message with
  | Some (_ :: _) => true
  | _ => false
  end.

Definition record_post (participant_ids : gset Z) (message : Message)
    (last_post : gmap Z Datetime) : gmap Z Datetime :=
  match msg_sender_id message with
  | Some sender_id =>
      if bool_decide (sender_id ∈ participant_ids)
         && bool_decide (last_post !! sender_id = None)
      then <[sender_id := msg_date message]> last_post
      else last_post
  | None => last_post
  end.

Definition record_reaction (participant_ids : gset Z)
    (last_reaction : gmap Z ReactionEntry) (r : ReactionTuple)
  : gmap Z ReactionEntry :=
  match r with
  | (Some user_id, emoji, reaction_date) =>
      if bool_decide (user_id ∈ participant_ids)
         && bool_decide (last_reaction !! user_id = None)
      then <[user_id := (emoji, reaction_date)]> last_reaction
      else last_reaction
  | (None, _, _) => last_reaction
  end.

(** The loop body up to the progress report (lines 131-143). *)
Definition scan_message (client : Client) (entity : Entity)
    (participant_ids : gset Z) (progress : bool)
    (message : Message) (st : ScanState) : M ScanState :=
  let scanned := S (scanned st) in
  let last_post := record_post participant_ids message (last_post st) in
  last_reaction ←
    (if has_reaction_results message then
       reactions ← _fetch_reactions_for_message client entity message;
       mret (foldl (record_reaction participant_ids) (last_reaction st) reactions)
     else mret (last_reaction st));
  (if progress && (scanned mod 250 =? 0)%nat
   then emit (EvProgress ("Messages scanned: " +:+ str_nat scanned))
   else mret tt);;
  mret (mkScanState last_post last_reaction scanned).

(** The test before [break] (line 145). *)
Definition all_found (participant_ids : gset Z) (st : ScanState) : bool :=
  (size (last_post st) =? size participant_ids)%nat
  && (size (last_reaction st) =? size participant_ids)%nat.

(** The [async for] over the messages, from a given state; [pending] is
    the exception the stream raises once its items are used up. *)
Fixpoint scan_loop (client : Client) (entity : Entity)
    (participant_ids : gset Z) (progress : bool)
    (messages : list Message) (pending : option Exc) (st : ScanState)
  : M ScanState :=
  match messages with
  | [] => match pending with
          | Some e => raise e
          | None => mret st
          end
  | message :: rest =>
      st' ← scan_message client entity participant_ids progress message st;
      if all_found participant_ids st' then mret st'
      else scan_loop client entity participant_ids progress rest pending st'
  end.

(** Lines 126-146: the scan with its counter. *)
Definition activity_scan (client : Client) (entity : Entity)
    (participant_ids : gset Z) (history_limit : Z) (progress : bool)
  : M ScanState :=
  let stream := limit_stream history_limit (iter_messages client ActivityScan entity) in
  scan_loop client entity participant_ids progress
    (items stream) (failure stream) scan_init.

Definition _collect_activity_maps (client : Client) (entity : Entity)
    (participant_ids : gset Z) (history_limit : Z) (progress : bool)
  : M (gmap Z Datetime * gmap Z ReactionEntry) :=
  st ← activity_scan client entity participant_ids history_limit progress;
  report progress
    ("Activity scan finished after " +:+ str_nat (scanned st) +:+ " messages");;
  mret (last_post st, last_reaction st).

(** The answers of the file system. [write_csv] stands for lines
    326-331 as a whole: the directory made, the file opened and the
    header and every row written. [Ok] says that all of it was done;
    after a failure the file may be missing, empty or cut short. *)
Record FileSystem := mkFileSystem {
  path_exists : string -> bool;
  mkdir_cache : Outcome unit;
  clone_name : string -> string;
  copy2 : string -> string -> Outcome unit;
  write_csv : string -> Outcome unit;
  unlink : string -> Outcome unit
}.

(** [None] or empty: [not session_path]. *)
Definition _clone_session (fs : FileSystem) (session_path : option string)
  : M (option string * string) :=
  if negb (truthy session_path) then mret (None, "member_export")
  else
    let src := default "" session_path in
    if negb (path_exists fs src) then mret (None, src)
    else
      lift (mkdir_cache fs);;
      let tmp_session := clone_name fs src in
      match copy2 fs src tmp_session with
      | Ok _ => emit (EvCopySession src tmp_session);;
                mret (Some tmp_session, tmp_session)
      | Raise e => if caught_by e [OSError] then mret (None, src) else raise e
      end.

(** [await client.start(...)]: the credentials and the two prompts reach
    only the remote side, whose answer is [start client]. *)
Definition client_start (client : Client) : M unit :=
  match start client with
  | Started => emit EvConnect
  | ConnectFailed e => raise e
  | LoginFailed e => emit EvConnect;; raise e
  end.

(** Lines 257-260. *)
Fixpoint append_participants (progress : bool) (users : list Entity)
    (participants : list Entity) : M (list Entity) :=
  match users with
  | [] => mret participants
  | user :: rest =>
      let participants := (participants ++ [user])%list in
      (if progress && (length participants mod 200 =? 0)%nat
       then emit (EvProgress ("Participants collected: "
                              +:+ str_nat (length participants)))
       else mret tt);;
      append_participants progress rest participants
  end.

(** Lines 267-274; [sender_id] is falsy when it is [None] or [0]. *)
Fixpoint fallback_loop (client : Client) (history_limit : Z)
    (messages : list Message) (pending : option Exc)
    (participants : list Entity) (seen_ids : gset Z) : M (list Entity) :=
  match messages with
  | [] => match pending with
          | Some e => raise e
          | None => mret participants
          end
  | message :: rest =>
      match msg_sender_id message with
      | Some sender_id =>
          if negb (sender_id =? 0)%Z && bool_decide (sender_id ∉ seen_ids) then
            user ← call_get_entity client (ByTarget (TInt sender_id));
            let participants := (participants ++ [user])%list in
            let seen_ids := {[sender_id]} ∪ seen_ids in
            if (history_limit <=? Z.of_nat (length participants))%Z
            then mret participants
            else fallback_loop client history_limit rest pending
                   participants seen_ids
          else fallback_loop client history_limit rest pending
                 participants seen_ids
      | None => fallback_loop client history_limit rest pending
                  participants seen_ids
      end
  end.

(** Lines 255-274. *)
Definition collect_participants (client : Client) (entity : Entity)
    (mode : string) (history_limit : Z) (progress : bool) : M (list Entity) :=
  let aggressive := String.eqb mode "admin" in
  let stream := iter_participants client entity NoFilter aggressive in
  participants ← append_participants progress (items stream) [];
  match failure stream with Some e => raise e | None => mret tt end;;
  if bool_decide (participants = []) && String.eqb mode "member" then
    report progress "No participants via API; scanning messages as fallback...";;
    let messages := limit_stream history_limit
                      (iter_messages client FallbackScan entity) in
    fallback_loop client history_limit (items messages) (failure messages)
      participants ∅
  else mret participants.

Definition or_empty (o : option string) : string := default "" o.

(** [" ".join(p for p in parts if p)] *)
Fixpoint join_nonempty (parts : list string) : string :=
  match parts with
  | [] => ""
  | p :: rest =>
      if nonempty p then
        match join_nonempty rest with
        | "" => p
        | r => p +:+ " " +:+ r
        end
      else join_nonempty rest
  end.

(** Lines 304-307; [user.username], [user.first_name] and
    [user.last_name] are read directly. *)
Definition display_name (user : Entity) : Outcome string :=
  username ← attribute user "username" (ent_username user);
  if truthy username then Ok (or_empty username)
  else
    first_name ← attribute user "first_name" (ent_first_name user);
    last_name ← attribute user "last_name" (ent_last_name user);
    let parts := [or_empty first_name; or_empty last_name] in
    let joined := strip (join_nonempty parts) in
    Ok (if nonempty joined then joined else "(no username)").

Definition bool_text (b : bool) : string := if b then "true" else "false".

(** Lines 304-322: the row of one participant. [user.id] and
    [user.bot] are read directly, the participant record with
    [getattr]. *)
Definition make_row (include_admin_fields : bool) (recent_ids : gset Z)
    (last_post_map : gmap Z Datetime) (last_reaction_map : gmap Z ReactionEntry)
    (user : Entity) : Outcome Row :=
  username ← display_name user;
  user_id ← str_of_int (ent_id user);
  bot ← attribute user "bot" (ent_bot user);
  Ok ([("user_id", user_id);
       ("username", username);
       ("is_bot", bool_text bot);
       ("is_recent", bool_text (bool_decide (ent_id user ∈ recent_ids)));
       ("last_post", _format_dt (last_post_map !! ent_id user));
       ("last_reaction", _format_reaction (last_reaction_map !! ent_id user))]
      ++ (if include_admin_fields then
            let participant_info := ent_participant user in
            let join_date := participant_info ≫= p_date in
            [("join_date", _format_dt join_date);
             ("status", _status_from_participant participant_info)]
          else []))%list.

(** Lines 302-324: the rows so far, then the row of the next user. *)
Definition build_rows (include_admin_fields : bool) (recent_ids : gset Z)
    (last_post_map : gmap Z Datetime) (last_reaction_map : gmap Z ReactionEntry)
    (participants : list Entity) : Outcome (list Row) :=
  foldl (fun so_far user =>
           rows ← so_far;
           row ← make_row include_admin_fields recent_ids
                   last_post_map last_reaction_map user;
           Ok (rows ++ [row])%list)
        (Ok []) participants.

(** [row["user_id"]] *)
Fixpoint row_get (key : string) (row : Row) : option string :=
  match row with
  | [] => None
  | (k, v) :: rest => if String.eqb k key then Some v else row_get key rest
  end.

Definition first_truthy (candidates : list (option string)) (fallback : string)
  : string :=
  default fallback (or_empty <$> List.find truthy candidates).

Definition base_fieldnames : list string :=
  ["user_id"; "username"; "is_bot"; "is_recent"; "last_post"; "last_reaction"].

Section ExportRun.
Variable urlparse : string -> option ParseResult.

(** The [try] block (lines 240-343). *)
Definition export_body (fs : FileSystem) (client : Client)
    (normalized_chat : NormalizedChat) (output_path mode : string)
    (history_limit : Z) (progress : bool) : M ExportSummary :=
  entity ← resolve_chat_entity client normalized_chat;
  let chat_title :=
    first_truthy [getattr entity "title" (ent_title entity);
                  getattr entity "username" (ent_username entity);
                  getattr entity "first_name" (ent_first_name entity)]
      (raw normalized_chat) in
  report progress ("Resolved chat title: " +:+ chat_title);;
  report progress "Collecting participants...";;
  '(bot_count, recent_ids) ← _collect_bots_and_recent client entity progress;
  participants ← collect_participants client entity mode history_limit progress;
  let participant_ids : gset Z := list_to_set (ent_id <$> participants) in
  report progress "Scanning message activity...";;
  '(last_post_map, last_reaction_map) ←
    _collect_activity_maps client entity participant_ids history_limit progress;
  let include_admin_fields := String.eqb mode "admin" in
  let fieldnames :=
    (base_fieldnames
     ++ (if include_admin_fields then ["join_date"; "status"] else []))%list in
  rows ← lift (build_rows include_admin_fields recent_ids
                  last_post_map last_reaction_map participants);
  lift (write_csv fs output_path);;
  emit (EvWriteCsv output_path fieldnames rows);;
  report progress ("Saved CSV: " +:+ output_path);;
  mret (mkExportSummary (length participants) bot_count (size recent_ids)
          output_path chat_title).

(** The [finally] block (lines 345-350). *)
Definition export_cleanup (fs : FileSystem) (tmp_session : option string)
  : M unit :=
  emit EvDisconnect;;
  match tmp_session with
  | Some tmp =>
      match unlink fs tmp with
      | Ok _ => emit (EvUnlink tmp)
      | Raise e => if caught_by e [OSError] then mret tt else raise e
      end
  | None => mret tt
  end.

Definition export_member_data (fs : FileSystem) (client : Client)
    (chat_username : ChatArg) (output_path mode : string)
    (history_limit : Z) (session_path : option string) (progress : bool)
  : M ExportSummary :=
  if negb (in_strings mode ["member"; "admin"]) then
    raise (mkExc ValueError "mode must be 'member' or 'admin'")
  else
    '(tmp_session, session_id) ← _clone_session fs session_path;
    normalized_chat ← lift (normalize_chat_identifier urlparse chat_username);
    match normalized_chat with
    | None => raise (mkExc ValueError "Could not parse chat identifier.")
    | Some normalized_chat =>
        emit (EvNewClient session_id);;
        client_start client;;
        try_finally
          (export_body fs client normalized_chat output_path mode
             history_limit progress)
          (export_cleanup fs tmp_session)
    end.
End ExportRun.

End MemberExport.

(** ** The wording of the specification

    Definitions that follow the specification's text, for comparison with
    the code. *)

Module Spec.
Import Py PyStr ChatUtils.

(** "[-100] followed by at least 5 digits" *)
Definition negative_channel_id (s : string) : bool :=
  startswith s "-100"
  && (5 <=? String.length (String.substring 4 (String.length s - 4) s))%nat
  && all_chars isdigit (String.substring 4 (String.length s - 4) s).

(** "an absolute URL whose host matches a known set of short-link
    domain aliases", with a non-empty path. *)
Definition recognized_url (urlparse : string -> option ParseResult)
    (r : string) : bool :=
  (startswith (lower r) "http://" || startswith (lower r) "https://")
  && match urlparse r with
     | Some parsed =>
         in_strings (lower (netloc parsed)) domain_aliases
         && nonempty (strip_char "/" (path parsed))
     | None => false
     end.

(** A numeric segment: digits, with or without a minus sign. *)
Definition numeric_segment (seg : string) : bool :=
  match seg with
  | String c ds =>
      if Ascii.eqb c "-" then nonempty ds && all_chars isdigit ds
      else all_chars isdigit seg
  | EmptyString => false
  end.

(** "prefix [-100] if not already present, strip any leading [-]" *)
Definition fully_qualified (seg : string) : string :=
  if startswith seg "-100" then seg else "-100" +:+ lstrip_char "-" seg.

(** A stream that ends, or that fails with an error of the classes the
    enumerator catches. *)
Definition degrades {A} (s : Py.Stream A) : Prop :=
  match Py.failure s with
  | Some e => Py.caught_by e MemberExport.stream_errors = true
  | None => True
  end.

(** The inputs on which normalizing again gives the same descriptor:
    every string, and the integers written like a channel id. *)
Definition reparse_stable (x : ChatArg) : Prop :=
  match x with
  | ArgStr _ => True
  | ArgInt z => channel_id_pattern (py_str z) = true
  | _ => False
  end.

End Spec.

(** ** Reference notions for the activity scan *)

Module ScanSpec.
Import Py Remote MemberExport.

(** The date of the first message of a list whose sender is [u]. *)
Fixpoint first_post (u : Z) (messages : list Message) : option Datetime :=
  match messages with
  | [] => None
  | message :: rest =>
      if bool_decide (msg_sender_id message = Some u)
      then Some (msg_date message)
      else first_post u rest
  end.

(** A stream in the order the remote side delivers it: no message is
    newer than one before it. *)
Fixpoint newest_first (messages : list Message) : Prop :=
  match messages with
  | [] => True
  | message :: rest =>
      (forall later, later ∈ rest ->
         (dt_seconds (msg_date later) <= dt_seconds (msg_date message))%Z)
      /\ newest_first rest
  end.

(** The loop body run on every message of a list, with no [break]. *)
Fixpoint scan_prefix (client : Client) (entity : Entity)
    (participant_ids : gset Z) (progress : bool)
    (messages : list Message) (st : ScanState) : M ScanState :=
  match messages with
  | [] => mret st
  | message :: rest =>
      st' ← scan_message client entity participant_ids progress message st;
      scan_prefix client entity participant_ids progress rest st'
  end.

(** "Every participant id has both a recorded post and a recorded
    reaction." *)
Definition all_recorded (participant_ids : gset Z) (st : ScanState) : Prop :=
  forall u, u ∈ participant_ids ->
    is_Some (last_post st !! u) /\ is_Some (last_reaction st !! u).

(** Only participants are recorded. *)
Definition keys_known (participant_ids : gset Z) (st : ScanState) : Prop :=
  dom (last_post st) ⊆ participant_ids
  /\ dom (last_reaction st) ⊆ participant_ids.

Definition or_else {A} (a b : option A) : option A :=
  match a with
  | Some x => Some x
  | None => b
  end.

(** What the call at lines 163-171 raises. *)
Definition unexpected_keyword : Exc :=
  mkExc TypeError
    "GetMessageReactionsListRequest.__init__() got an unexpected keyword argument 'offset_peer'".

(** No message of a list carries a reaction summary. *)
Definition no_reaction_summary (messages : list Message) : Prop :=
  Forall (fun message => has_reaction_results message = false) messages.

End ScanSpec.

(** ** Concrete runs *)

Module Scenarios.
Import PyStr Py ChatUtils Remote MemberExport.

(** A run of [n] digits. *)
Fixpoint digits_run (n : nat) : string :=
  match n with
  | O => ""
  | S n' => String "1" (digits_run n')
  end.

(** A numeric segment of 4298 digits: with ["-100"] before it, one digit
    more than [int] reads. *)
Definition long_segment : string := digits_run (N.to_nat 4298).

Definition some_chat : Entity :=
  mkEntity ChannelObject (-1001234567890) (Some "Reading group") None None None
    false None.

Definition user (id : Z) (name : string) (bot : bool) : Entity :=
  mkEntity UserObject id None (Some name) None None bot
    (Some (mkParticipantInfo ChannelParticipant None)).

Definition T1 : Datetime := mkDatetime 1700000000 true "2023-11-14T22:13:20+00:00".
Definition T2 : Datetime := mkDatetime 1700003600 true "2023-11-14T23:13:20+00:00".
Definition T3 : Datetime := mkDatetime 1700007200 true "2023-11-15T00:13:20+00:00".

Definition post (id sender : Z) (date : Datetime) (reacted : bool) : Message :=
  mkMessage id (Some sender) date (if reacted then Some [1] else None).

Definition thumbs_up (uid : Z) (date : Datetime) : MessagePeerReaction :=
  mkMessagePeerReaction (Some (PeerUser uid)) (Some (ReactionEmoji "+1")) (Some date).

(** A remote side described by its streams and reaction lists. *)
Definition scripted (start : StartReply)
    (invite : nat -> string -> Outcome InviteReply)
    (bots recent everyone : Stream Entity) (history : Stream Message)
    (reactions : Z -> Outcome (list MessagePeerReaction)) : Client :=
  mkClient start invite
    (fun _ => Ok some_chat)
    (fun _ filter _ => match filter with
                       | ChannelParticipantsBots => bots
                       | ChannelParticipantsRecent => recent
                       | NoFilter => everyone
                       end)
    (fun _ _ => history)
    (fun _ => reactions)
    false.

Definition no_invite : nat -> string -> Outcome InviteReply :=
  fun _ _ => Ok (ChatInvite "Reading group").

Definition history_of (messages : list Message)
    (reactions : Z -> Outcome (list MessagePeerReaction)) : Client :=
  scripted Started no_invite (mkStream [] None) (mkStream [] None)
    (mkStream [] None) (mkStream messages None) reactions.

(** User 7 posts at [T2] and, further down the newest-first stream, at
    the older [T1]. *)
Definition two_posts : Client :=
  history_of [post 12 7 T2 false; post 11 7 T1 false] (fun _ => Ok []).

(** Two participants, 1 and 2, and five messages, newest first; the
    messages 25 and 23 carry a reaction summary. The reaction lists are
    what the remote side would answer if it were asked. *)
Definition five_messages : Client :=
  history_of
    [post 25 1 T3 true; post 24 2 T2 false; post 23 3 T2 true;
     post 22 1 T1 false; post 21 2 T1 false]
    (fun id => if (id =? 25)%Z then Ok [thumbs_up 2 T3]
               else if (id =? 23)%Z then Ok [thumbs_up 1 T2]
               else Ok []).

(** The first invite check stumbles over the already-a-participant race
    and a second one would succeed. *)
Definition racing_client : Client :=
  scripted Started
    (fun n _ => match n with
                | O => Raise (mkExc UserAlreadyParticipantError "USER_ALREADY_PARTICIPANT")
                | _ => Ok (ChatInviteAlready some_chat)
                end)
    (mkStream [] None) (mkStream [] None) (mkStream [] None)
    (mkStream [] None) (fun _ => Ok []).

Definition invite_chat : NormalizedChat :=
  mkNormalizedChat "+AbCdEf12" (TStr "+AbCdEf12") (Some "AbCdEf12").

(** Files: no session file to clone, or one that is cloned without
    trouble, or a cache directory that cannot be made. *)
Definition working_fs (session_exists : bool) : FileSystem :=
  mkFileSystem (fun _ => session_exists) (Ok tt)
    (fun src => "/home/u/.cache/telegram_user_state/sessions/" +:+ src)
    (fun _ _ => Ok tt) (fun _ => Ok tt) (fun _ => Ok tt).

Definition readonly_fs : FileSystem :=
  mkFileSystem (fun _ => true) (Raise (mkExc OSError "Permission denied"))
    (fun src => "/home/u/.cache/telegram_user_state/sessions/" +:+ src)
    (fun _ _ => Ok tt) (fun _ => Ok tt) (fun _ => Ok tt).

Definition clone_path : string :=
  "/home/u/.cache/telegram_user_state/sessions/me.session".

(** The login is refused after the connection has been made. *)
Definition refused_login : Client :=
  scripted (LoginFailed (mkExc PhoneCodeInvalidError "PHONE_CODE_INVALID"))
    no_invite (mkStream [] None) (mkStream [] None) (mkStream [] None)
    (mkStream [] None) (fun _ => Ok []).

(** Both filtered enumerations yield one user and then fail: the bots
    for lack of admin rights, the recent members on a flood wait. *)
Definition degraded : Client :=
  scripted Started no_invite
    (mkStream [user 5 "helper_bot" true]
       (Some (mkExc ChatAdminRequiredError "CHAT_ADMIN_REQUIRED")))
    (mkStream [user 7 "alice" false]
       (Some (mkExc FloodWaitError "FLOOD_WAIT_3600")))
    (mkStream [user 5 "helper_bot" true; user 7 "alice" false; user 8 "bob" false] None)
    (mkStream [post 12 7 T2 false; post 11 8 T1 false] None)
    (fun _ => Ok []).

(** The enumeration yields the same user twice. *)
Definition repeating : Client :=
  scripted Started no_invite (mkStream [] None) (mkStream [] None)
    (mkStream [user 7 "alice" false; user 7 "alice" false] None)
    (mkStream [] None) (fun _ => Ok []).

End Scenarios.

(** ** Reference notions for the further properties *)

Module MoreSpec.
Import PyStr Py ChatUtils Remote MemberExport ScanSpec.

(** The events by which a run asks the remote side or reports progress;
    the others touch the session, the session file or the CSV file. *)
Definition is_query (ev : Event) : Prop :=
  match ev with
  | EvCheckInvite _ | EvGetEntity _ | EvGetReactions _ | EvProgress _ => True
  | _ => False
  end.

(** A computation that only appends events of one kind to the trace. *)
Definition adds_only {A} (P : Event -> Prop) (m : M A) : Prop :=
  forall t r t', m t = (r, t') -> exists new, t' = (t ++ new)%list /\ Forall P new.



(** The field names of the header, by mode. *)
Definition fieldnames_of (mode : string) : list string :=
  (base_fieldnames
   ++ (if String.eqb mode "admin" then ["join_date"; "status"] else []))%list.

(** The progress reports among the events. *)
Definition is_report (ev : Event) : Prop :=
  match ev with
  | EvProgress _ => True
  | _ => False
  end.

(** A progress report of a run that has a callback. *)
Definition wanted_report (progress : bool) (ev : Event) : Prop :=
  is_report ev /\ progress = true.

(** A computation that appends queries to the trace and, when it
    returns, has among them one completed write of the CSV file, of rows
    that satisfy [Q]; a write that fails leaves no event. *)
Definition writes_once {A} (path : string) (fields : list string)
    (Q : list Row -> Prop) (m : M A) : Prop :=
  forall t r t', m t = (r, t') ->
    exists new, Forall is_query new /\
      match r with
      | Raise _ => t' = (t ++ new)%list
      | Ok _ => exists rows tail,
          t' = (t ++ new ++ [EvWriteCsv path fields rows] ++ tail)%list
          /\ Forall is_query tail
          /\ Q rows
      end.

(** The rows a body hands to the writer: built from some participant
    list with an empty map of reactions. *)
Definition rows_built (mode : string) (rows : list Row) : Prop :=
  exists recent_ids last_post_map participants,
    build_rows (String.eqb mode "admin") recent_ids last_post_map ∅ participants
    = Ok rows.

End MoreSpec.

(** ** ui.py: what the window does with the normalizer and the run

    The window's code around its calls of [normalize_chat_identifier] and
    [export_member_data], and its reading of the progress messages. The
    translation table ([i18n.tr]) and Python's general [int] are taken as
    parameters. *)

Module Ui.
Import PyStr Py ChatUtils Remote MemberExport.

(** [max(100, min(history_limit, 20000))] (line 521) *)
Definition clamp_history_limit (n : Z) : Z := Z.max 100 (Z.min n 20000).

(** Lines 517-521: the limit field, read with [int]; [None] stands for
    the exception that makes the limit 2000. *)
Definition history_limit_of (to_int : string -> option Z) (text : string) : Z :=
  let shown := if nonempty (strip text) then strip text else "2000" in
  clamp_history_limit (default 2000 (to_int shown)).

(** Lines 582-584: the mode handed to the run. *)
Definition run_mode (mode : string) : string :=
  if negb (in_strings mode ["member"; "admin"]) then "member" else mode.


(** [msg.split(":", 1)[1].strip()]; [None] stands for the [IndexError] of
    a message with no colon. *)
Definition after_colon (msg : string) : option string :=
  match snd (UrlLib.break_at (Ascii.eqb ":") msg) with
  | String _ rest => Some (strip rest)
  | EmptyString => None
  end.

(** The text matched by a class repeated with [+], and what follows it. *)
Definition run_of (p : ascii -> bool) (s : string) : option (string * string) :=
  match UrlLib.break_at (fun c => negb (p c)) s with
  | (EmptyString, _) => None
  | (matched, rest) => Some (matched, rest)
  end.

(** What follows a literal at the start of a string. *)
Fixpoint after_literal (literal s : string) : option string :=
  match literal, s with
  | EmptyString, _ => Some s
  | String a literal', String b s' =>
      if Ascii.eqb a b then after_literal literal' s' else None
  | String _ _, EmptyString => None
  end.

(** [after\s+(\d+)\s+messages] matched at the start of a string: the
    group. Each class is disjoint from what follows it in the pattern,
    so only the longest runs can match. *)
Definition match_after_messages (s : string) : option string :=
  s0 ← after_literal "after" s;
  '(_, s1) ← run_of isspace s0;
  '(number, s2) ← run_of isdigit s1;
  '(_, s3) ← run_of isspace s2;
  _ ← after_literal "messages" s3;
  Some number.

(** [re.search(r"after\s+(\d+)\s+messages", msg)]: the leftmost match. *)
Fixpoint search_after_messages (msg : string) : option string :=
  match match_after_messages msg with
  | Some number => Some number
  | None =>
      match msg with
      | String _ rest => search_after_messages rest
      | EmptyString => None
      end
  end.

Section Localize.
(** [self.t(key, **kw)] *)
Variable tr : string -> list (string * string) -> string.

Definition with_count (key : string) (name : string) (msg : string)
  : option string :=
  value ← after_colon msg; Some (tr key [(name, value)]).

(** [localize_progress] (lines 271-304); [None] stands for an
    [IndexError]. *)
Definition localize_progress (msg : string) : option string :=
  if String.eqb msg "Collecting participants..." then
    Some (tr "progress.collecting" [])
  else if startswith msg "Bots counted:" then
    with_count "progress.bots" "count" msg
  else if startswith msg "Unable to enumerate bots" then
    Some (tr "progress.bots_missing" [])
  else if startswith msg "Participants collected:" then
    with_count "progress.participants" "count" msg
  else if startswith msg "Resolved chat title:" then
    with_count "progress.chat_title" "name" msg
  else if startswith msg "Recent participants counted:" then
    with_count "progress.recent" "count" msg
  else if startswith msg "Unable to enumerate recent members" then
    Some (tr "progress.recent_missing" [])
  else if String.eqb msg "No participants via API; scanning messages as fallback..." then
    Some (tr "progress.fallback" [])
  else if String.eqb msg "Scanning message activity..." then
    Some (tr "progress.scanning" [])
  else if startswith msg "Messages scanned:" then
    with_count "progress.messages_scanned" "count" msg
  else if startswith msg "Activity scan finished after" then
    Some (tr "progress.activity_done"
            [("count", default "0" (search_after_messages msg))])
  else if startswith msg "Saved CSV:" then
    with_count "progress.saved_csv" "path" msg
  else Some msg.
(** What the window logs for an event of the run: a progress message
    as localized, which is a translation when the message is one of those
    [localize_progress] knows. *)
Definition translated (ev : Event) : Prop :=
  match ev with
  | EvProgress msg => exists key args, localize_progress msg = Some (tr key args)
  | _ => True
  end.
End Localize.

(** The call of [export_member_data] in the worker of [on_start] (lines
    594-608): the chat as normalized at line 525, the mode and the limit
    as coerced at lines 582-584 and 517-521, and a progress callback. *)
Definition window_run (urlparse : string -> option ParseResult)
    (to_int : string -> option Z) (fs : FileSystem) (client : Client)
    (normalized_chat : NormalizedChat) (output_path mode limit_text : string)
    (sess : option string) : M ExportSummary :=
  export_member_data urlparse fs client (ArgNormalized normalized_chat)
    output_path (run_mode mode) (history_limit_of to_int limit_text) sess true.

End Ui.

(** ** More concrete runs *)

Module MoreScenarios.
Import PyStr Py ChatUtils Remote MemberExport Scenarios.

(** The chat the invite points to is one the account already belongs to. *)
Definition member_already : Client :=
  scripted Started (fun _ _ => Ok (ChatInviteAlready some_chat))
    (mkStream [] None) (mkStream [] None) (mkStream [] None)
    (mkStream [] None) (fun _ => Ok []).


(** The main enumeration breaks off on a flood wait, the bots one on a
    lost connection. *)
Definition broken_enumeration : Client :=
  scripted Started no_invite
    (mkStream [] (Some (mkExc ConnectionError "Connection lost")))
    (mkStream [] None)
    (mkStream [user 7 "alice" false] (Some (mkExc FloodWaitError "FLOOD_WAIT_3600")))
    (mkStream [] None) (fun _ => Ok []).

(** The bots cannot be listed for lack of admin rights, and the
    connection is lost while the recent members are listed. *)
Definition broken_recent : Client :=
  scripted Started no_invite
    (mkStream [] (Some (mkExc ChatAdminRequiredError "CHAT_ADMIN_REQUIRED")))
    (mkStream [user 7 "alice" false] (Some (mkExc ConnectionError "Connection lost")))
    (mkStream [] None) (mkStream [] None) (fun _ => Ok []).

(** The chat that is looked up has neither a title nor a username. *)
Definition untitled_chat : Entity :=
  mkEntity ChannelObject (-1001234567890) None None None None false None.

Definition untitled : Client :=
  mkClient Started no_invite
    (fun _ => Ok untitled_chat)
    (fun _ _ _ => mkStream [user 7 "alice" false] None)
    (fun _ _ => mkStream [post 12 7 T2 false] None)
    (fun _ _ => Ok [])
    false.

(** A translation table that answers with the key it is asked for. *)
Definition keys_only : string -> list (string * string) -> string :=
  fun key _ => key.

End MoreScenarios.

(** * Properties *)

(** ** Facts about the string primitives *)

Module StringFacts.
Import Py PyStr.

Section Strip.
Variable p : ascii -> bool.

Lemma lstrip_with_head s : head_ok p (lstrip_with p s).
Proof.
  induction s as [|c s IH]; simpl; [exact I|].
  destruct (p c) eqn:E; [exact IH | exact E].
Qed.

Lemma lstrip_with_fixed s : head_ok p s -> lstrip_with p s = s.
Proof. destruct s as [|c s]; simpl; [reflexivity|]. now intros ->. Qed.

Lemma rstrip_with_head s : head_ok p s -> head_ok p (rstrip_with p s).
Proof.
  destruct s as [|c s]; simpl; [trivial|]. intros Hc.
  destruct (rstrip_with p s); simpl; [now rewrite Hc | exact Hc].
Qed.

Lemma rstrip_with_idem s :
  rstrip_with p (rstrip_with p s) = rstrip_with p s.
Proof.
  induction s as [|c s IH]; simpl; [reflexivity|].
  destruct (rstrip_with p s) as [|d r] eqn:E.
  - destruct (p c) eqn:Hc; simpl; [reflexivity | now rewrite Hc].
  - change (rstrip_with p (String c (String d r))) with
      (match rstrip_with p (String d r) with
       | EmptyString => if p c then EmptyString else String c EmptyString
       | r0 => String c r0
       end).
    now rewrite IH.
Qed.

Lemma strip_with_idem s : strip_with p (strip_with p s) = strip_with p s.
Proof.
  unfold strip_with.
  rewrite (lstrip_with_fixed (rstrip_with p (lstrip_with p s))).
  - apply rstrip_with_idem.
  - apply rstrip_with_head, lstrip_with_head.
Qed.

Lemma rstrip_with_fixed s :
  all_chars (fun c => negb (p c)) s = true -> rstrip_with p s = s.
Proof.
  induction s as [|c s IH]; simpl; [reflexivity|].
  intros [Hc Hs]%andb_prop. rewrite (IH Hs).
  destruct s; [|reflexivity].
  now apply negb_true_iff in Hc as ->.
Qed.

Lemma strip_with_fixed s :
  all_chars (fun c => negb (p c)) s = true -> strip_with p s = s.
Proof.
  intros H. unfold strip_with. rewrite lstrip_with_fixed.
  - now apply rstrip_with_fixed.
  - destruct s as [|c s]; simpl in *; [trivial|].
    apply andb_prop in H as [Hc _]. now apply negb_true_iff in Hc.
Qed.
End Strip.

Lemma startswith_cons a p b s :
  startswith (String b s) (String a p) = Ascii.eqb a b && startswith s p.
Proof. reflexivity. Qed.

Lemma strip_idem s : strip (strip s) = strip s.
Proof. apply strip_with_idem. Qed.

Lemma all_chars_impl (p q : ascii -> bool) s :
  (forall c, p c = true -> q c = true) ->
  all_chars p s = true -> all_chars q s = true.
Proof.
  intros Hpq. induction s as [|c s IH]; simpl; [trivial|].
  intros [Hc Hs]%andb_prop. now rewrite (Hpq _ Hc), IH.
Qed.

Lemma keep_chars_fixed p s : all_chars p s = true -> keep_chars p s = s.
Proof.
  induction s as [|c s IH]; simpl; [reflexivity|].
  intros [Hc Hs]%andb_prop. now rewrite Hc, IH.
Qed.

Lemma isdigit_cases c : isdigit c = true -> In c digit_chars.
Proof.
  destruct c as [[|] [|] [|] [|] [|] [|] [|] [|]];
    intros H; vm_compute in H; try discriminate H; simpl; tauto.
Qed.

Ltac each_digit H :=
  apply isdigit_cases in H; simpl in H;
  repeat (destruct H as [<-|H]; [|]); [..|contradiction].

Lemma digit_not_space c : isdigit c = true -> isspace c = false.
Proof. intros H. each_digit H; reflexivity. Qed.

Lemma digit_parses c u :
  isdigit c = true -> exists u', uint_of_char c (Some u) = Some u'.
Proof. intros H. each_digit H; simpl; eauto. Qed.

Lemma digits_parse ds :
  all_chars isdigit ds = true ->
  exists u, NilEmpty.uint_of_string ds = Some u.
Proof.
  induction ds as [|c ds IH]; simpl; [eauto|].
  intros [Hc Hs]%andb_prop. destruct (IH Hs) as [u ->].
  now apply digit_parses.
Qed.

Lemma nonempty_digits_parse ds :
  nonempty ds = true -> all_chars isdigit ds = true ->
  exists u, NilZero.uint_of_string ds = Some u.
Proof.
  destruct ds as [|c ds]; [discriminate|]. intros _ H.
  now apply digits_parse in H.
Qed.

Lemma digit_not_minus c : isdigit c = true -> Ascii.eqb c "-" = false.
Proof. intros H. each_digit H; reflexivity. Qed.

(** Every non-empty run of digits, signed or not, writes an integer. *)
Lemma decimal_value_digits ds :
  nonempty ds = true -> all_chars isdigit ds = true ->
  is_Some (decimal_value ds) /\ is_Some (decimal_value (String "-" ds)).
Proof.
  intros Hne Hd. destruct (nonempty_digits_parse ds Hne Hd) as [u Hu].
  unfold decimal_value. split.
  - destruct ds as [|c ds]; [discriminate|].
    unfold NilZero.int_of_string.
    simpl in Hd. apply andb_prop in Hd as [Hc _].
    rewrite (digit_not_minus c Hc), Hu. simpl. eauto.
  - simpl. rewrite Hu. simpl. eauto.
Qed.

Lemma decimal_value_py_str z : decimal_value (py_str z) = Some z.
Proof.
  unfold decimal_value, py_str. rewrite NilZero.isi.
  - simpl. now rewrite DecimalZ.of_to.
  - destruct z; simpl; try discriminate.
    intros [= H]. now apply (DecimalPos.Unsigned.to_uint_nonnil p).
  - destruct z; simpl; try discriminate.
    intros [= H]. now apply (DecimalPos.Unsigned.to_uint_nonnil p).
Qed.


Lemma py_int_within s :
  within_digit_limit s = true -> py_int s = decimal_value s.
Proof. unfold py_int. now intros ->. Qed.

Lemma py_int_beyond s : within_digit_limit s = false -> py_int s = None.
Proof. unfold py_int. now intros ->. Qed.

Lemma str_of_int_ok z r : str_of_int z = Ok r -> r = py_str z.
Proof. unfold str_of_int. destruct (within_digit_limit _); now intros [=]. Qed.

Lemma str_of_int_within z r :
  str_of_int z = Ok r -> within_digit_limit r = true.
Proof.
  unfold str_of_int. destruct (within_digit_limit _) eqn:E; [|discriminate].
  now intros [= <-].
Qed.

Lemma py_str_inj : Inj (=) (=) py_str.
Proof.
  intros z1 z2 H. apply (f_equal decimal_value) in H.
  rewrite !decimal_value_py_str in H. now injection H.
Qed.

End StringFacts.

(** ** The identifier normalizer *)

Module NormalizerFacts.
Import Py PyStr ChatUtils StringFacts.

Lemma numeric_not_space c : numeric_class c = true -> isspace c = false.
Proof.
  unfold numeric_class. intros [H|H]%orb_prop.
  - now apply digit_not_space.
  - apply Ascii.eqb_eq in H as ->. reflexivity.
Qed.

Lemma pattern_body_digits b :
  pattern_body b = true -> nonempty b = true /\ all_chars isdigit b = true.
Proof.
  destruct b as [|c1 [|c2 [|c3 ds]]]; try discriminate. simpl.
  intros H. repeat (apply andb_prop in H as [H ?]).
  apply Ascii.eqb_eq in H as ->.
  repeat match goal with E : Ascii.eqb _ _ = true |- _ =>
    apply Ascii.eqb_eq in E as -> end.
  split; [reflexivity|]. simpl. assumption.
Qed.

Lemma channel_id_cases s :
  channel_id_pattern s = true ->
  exists b, (s = b \/ s = String "-" b)
            /\ nonempty b = true /\ all_chars isdigit b = true.
Proof.
  unfold channel_id_pattern. destruct s as [|c s]; [discriminate|].
  destruct (Ascii.eqb_spec c "-") as [->|Hc]; intros H.
  - exists s. split; [now right|]. now apply pattern_body_digits.
  - exists (String c s). split; [now left|]. now apply pattern_body_digits.
Qed.

Lemma channel_id_int s :
  channel_id_pattern s = true -> is_Some (decimal_value s).
Proof.
  intros (b & [->| ->] & Hne & Hd)%channel_id_cases;
    now apply decimal_value_digits.
Qed.

Lemma int_or_str_cases s z :
  decimal_value s = Some z ->
  int_or_str s = if within_digit_limit s then TInt z else TStr s.
Proof.
  intros H. unfold int_or_str, py_int.
  destruct (within_digit_limit s); [now rewrite H|reflexivity].
Qed.

Lemma channel_id_numeric s :
  channel_id_pattern s = true -> all_chars numeric_class s = true.
Proof.
  intros (b & Hs & _ & Hd)%channel_id_cases.
  assert (all_chars numeric_class b = true) as Hb.
  { apply (all_chars_impl isdigit); [|exact Hd].
    intros c Hc. unfold numeric_class. now rewrite Hc. }
  destruct Hs as [->| ->]; [exact Hb | simpl; exact Hb].
Qed.

Lemma channel_id_stripped s : channel_id_pattern s = true -> strip s = s.
Proof.
  intros H%channel_id_numeric. apply strip_with_fixed.
  apply (all_chars_impl numeric_class); [|exact H].
  intros c Hc. now rewrite numeric_not_space.
Qed.

Lemma channel_id_nonempty s : channel_id_pattern s = true -> nonempty s = true.
Proof. now destruct s. Qed.

Section WithParser.
Variable urlparse : string -> option ParseResult.

Lemma from_parts_raw r parts d :
  from_parts r parts = Some d -> raw d = r.
Proof.
  unfold from_parts. destruct parts as [|first rest]; [discriminate|].
  repeat match goal with
         | |- context [if ?b then _ else _] => destruct b
         end; now intros [= <-].
Qed.

Lemma from_url_raw r d : from_url urlparse r = Some d -> raw d = r.
Proof.
  unfold from_url.
  destruct (_ || _); [|discriminate].
  destruct (urlparse r) as [parsed|]; [|discriminate].
  destruct (in_strings _ _); [|discriminate].
  apply from_parts_raw.
Qed.

(** The string case is a function of the trimmed input, which it
    returns as [raw]. *)
Lemma normalize_str_raw s d :
  normalize_str urlparse s = Some d -> raw d = strip s.
Proof.
  unfold normalize_str.
  destruct (negb _); [discriminate|].
  destruct (channel_id_pattern _); [now intros [= <-]|].
  destruct (from_url urlparse (strip s)) as [r|] eqn:E.
  - intros [= <-]. now apply from_url_raw.
  - destruct (startswith _ _); now intros [= <-].
Qed.

Lemma normalize_str_strip s :
  normalize_str urlparse (strip s) = normalize_str urlparse s.
Proof. unfold normalize_str. now rewrite strip_idem. Qed.

Lemma normalize_str_idempotent s d :
  normalize_str urlparse s = Some d ->
  normalize_str urlparse (raw d) = Some d.
Proof.
  intros H. rewrite (normalize_str_raw s d H), normalize_str_strip. exact H.
Qed.

Lemma normalize_channel_id r :
  channel_id_pattern r = true ->
  exists z, decimal_value r = Some z
            /\ normalize_str urlparse r
               = Some (mkNormalizedChat r
                         (if within_digit_limit r then TInt z else TStr r) None).
Proof.
  intros H. destruct (channel_id_int r H) as [z Hz]. exists z. split; [exact Hz|].
  unfold normalize_str. rewrite (channel_id_stripped r H).
  rewrite (channel_id_nonempty r H), H. cbn [negb].
  now rewrite (int_or_str_cases r z Hz).
Qed.
End WithParser.

Lemma numeric_cases c :
  numeric_class c = true -> In c (digit_chars ++ ["-"%char])%list.
Proof.
  unfold numeric_class. intros [H|H]%orb_prop.
  - apply in_or_app. left. now apply isdigit_cases.
  - apply Ascii.eqb_eq in H as ->. apply in_or_app. right. now left.
Qed.

Lemma numeric_head_plain c s :
  numeric_class c = true ->
  startswith (lower (String c s)) "http://" = false
  /\ startswith (lower (String c s)) "https://" = false
  /\ startswith (String c s) "+" = false.
Proof.
  intros H%numeric_cases. simpl in H.
  repeat (destruct H as [<-|H]; [now repeat split|]). contradiction.
Qed.

Lemma uint_text_numeric u :
  all_chars numeric_class (NilEmpty.string_of_uint u) = true.
Proof. induction u; simpl; now rewrite ?IHu. Qed.

Lemma py_str_numeric z :
  nonempty (py_str z) = true /\ all_chars numeric_class (py_str z) = true.
Proof.
  assert (forall u, nonempty (NilZero.string_of_uint u) = true
                    /\ all_chars numeric_class (NilZero.string_of_uint u) = true) as Hu.
  { intros u. split.
    - now destruct u.
    - destruct u; try reflexivity; apply (uint_text_numeric (_ u)). }
  unfold py_str. destruct (Z.to_int z) as [u|u]; simpl.
  - apply Hu.
  - split; [reflexivity|]. apply Hu.
Qed.

Lemma scheme_head r :
  startswith (lower r) "http://" || startswith (lower r) "https://" = true ->
  exists c r', r = String c r' /\ lower_char c = "h"%char.
Proof.
  destruct r as [|c r']; [discriminate|]. intros H. exists c, r'. split; [reflexivity|].
  change (lower (String c r')) with (String (lower_char c) (lower r')) in H.
  rewrite !startswith_cons in H.
  destruct (Ascii.eqb_spec "h" (lower_char c)) as [E|N]; [now symmetry|discriminate H].
Qed.

Lemma scheme_not_channel_id r :
  startswith (lower r) "http://" || startswith (lower r) "https://" = true ->
  nonempty r = true /\ channel_id_pattern r = false.
Proof.
  intros (c & r' & -> & Hc)%scheme_head. split; [reflexivity|].
  unfold channel_id_pattern, pattern_body.
  destruct (Ascii.eqb_spec c "-") as [->|_]; [discriminate Hc|].
  destruct r' as [|c2 [|c3 ds]]; try reflexivity.
  destruct (Ascii.eqb_spec c "1") as [->|_]; [discriminate Hc|reflexivity].
Qed.

Lemma numeric_segment_kept seg :
  Spec.numeric_segment seg = true ->
  nonempty seg = true /\ keep_chars numeric_class seg = seg.
Proof.
  unfold Spec.numeric_segment. destruct seg as [|c ds]; [discriminate|].
  intros H. split; [reflexivity|]. apply keep_chars_fixed.
  destruct (Ascii.eqb_spec c "-") as [->|_].
  - apply andb_prop in H as [_ H]. simpl.
    apply (all_chars_impl isdigit); [|exact H].
    intros d Hd. unfold numeric_class. now rewrite Hd.
  - apply (all_chars_impl isdigit); [|exact H].
    intros d Hd. unfold numeric_class. now rewrite Hd.
Qed.

Lemma digits_lstrip_minus ds :
  all_chars isdigit ds = true -> lstrip_char "-" ds = ds.
Proof.
  intros H. apply lstrip_with_fixed. destruct ds as [|c ds]; [exact I|].
  change (Ascii.eqb "-" c = false).
  apply andb_prop in H as [Hc _].
  rewrite Ascii.eqb_sym. now apply digit_not_minus.
Qed.

Lemma fully_qualified_int seg :
  Spec.numeric_segment seg = true ->
  is_Some (decimal_value (Spec.fully_qualified seg)).
Proof.
  unfold Spec.numeric_segment, Spec.fully_qualified.
  destruct seg as [|c ds]; [discriminate|].
  destruct (Ascii.eqb_spec c "-") as [->|Hc].
  - intros [Hne Hd]%andb_prop.
    destruct (startswith _ _).
    + now apply decimal_value_digits.
    + assert (lstrip_char "-" (String "-" ds) = ds) as ->
        by (apply (digits_lstrip_minus ds Hd)).
      apply (decimal_value_digits (String "1" (String "0" (String "0" ds)))); [reflexivity|].
      simpl. exact Hd.
  - intros Hd.
    assert (startswith (String c ds) "-100" = false) as ->.
    { rewrite startswith_cons.
      destruct (Ascii.eqb_spec "-" c) as [<-|_]; [now elim Hc|reflexivity]. }
    rewrite (digits_lstrip_minus _ Hd).
    apply (decimal_value_digits (String "1" (String "0" (String "0" (String c ds)))));
      [reflexivity|]. simpl. exact Hd.
Qed.

Section Rules.
Variable urlparse : string -> option ParseResult.

Lemma unrecognized_url r :
  Spec.recognized_url urlparse r = false -> from_url urlparse r = None.
Proof.
  unfold Spec.recognized_url, from_url.
  destruct (startswith (lower r) "http://" || startswith (lower r) "https://");
    [|reflexivity].
  destruct (urlparse r) as [parsed|]; [|reflexivity].
  destruct (in_strings (lower (netloc parsed)) domain_aliases); [|reflexivity].
  rewrite !andb_true_l. now intros ->.
Qed.

Lemma normalize_plain r :
  nonempty r = true -> strip r = r ->
  channel_id_pattern r = false -> from_url urlparse r = None ->
  normalize_str urlparse r =
    Some (if startswith r "+" then _from_invite r (lstrip_char "+" r)
          else mkNormalizedChat r (TStr r) None).
Proof.
  intros Hne Hs Hp Hu. unfold normalize_str.
  rewrite Hs, Hne, Hp, Hu. cbn [negb]. now destruct (startswith r "+").
Qed.

(** An integer re-read from its decimal form keeps its integer target
    exactly when that form is written like a channel id and is within
    the digit limit. *)
Lemma normalize_int_reparse z :
  normalize_chat_identifier urlparse (ArgStr (py_str z)) =
    Ok (Some (mkNormalizedChat (py_str z)
                (if channel_id_pattern (py_str z) && within_digit_limit (py_str z)
                 then TInt z else TStr (py_str z))
                None)).
Proof.
  cbn [normalize_chat_identifier]. f_equal.
  destruct (channel_id_pattern (py_str z)) eqn:Hp; cbn [andb].
  - destruct (normalize_channel_id urlparse _ Hp) as (z' & Hz & ->).
    rewrite decimal_value_py_str in Hz. now injection Hz as <-.
  - destruct (py_str_numeric z) as [Hne Hnum].
    assert (strip (py_str z) = py_str z) as Hs.
    { apply strip_with_fixed. apply (all_chars_impl numeric_class); [|exact Hnum].
      intros c Hc. now rewrite numeric_not_space. }
    destruct (py_str z) as [|c r] eqn:E; [discriminate|].
    simpl in Hnum. apply andb_prop in Hnum as [Hc _].
    destruct (numeric_head_plain c r Hc) as (H1 & H2 & H3).
    rewrite normalize_plain; try assumption.
    + now rewrite H3.
    + unfold from_url. now rewrite H1, H2.
Qed.
End Rules.

(** C5, as amended. Normalizing the [raw] field of a result gives the
    same descriptor again for every string input (channel-id string,
    URL, invite shorthand, plain handle) and for every integer whose
    decimal form is written like a channel id. For the other integers
    it does not: see [normalize_int_reparse]. *)
Theorem normalize_idempotent (urlparse : string -> option ParseResult)
    (x : ChatArg) (d : NormalizedChat) :
  Spec.reparse_stable x ->
  normalize_chat_identifier urlparse x = Ok (Some d) ->
  normalize_chat_identifier urlparse (ArgStr (raw d)) = Ok (Some d).
Proof.
  destruct x as [s|z|b|c|]; cbn [Spec.reparse_stable]; try contradiction.
  - intros _ H. cbn [normalize_chat_identifier] in *. injection H as H.
    f_equal. exact (normalize_str_idempotent urlparse s d H).
  - intros Hp H. cbn [normalize_chat_identifier] in H.
    destruct (str_of_int z) as [r|e] eqn:Hr; [|discriminate H].
    injection H as <-. cbn [raw].
    pose proof (str_of_int_within _ _ Hr) as Hw.
    rewrite (str_of_int_ok _ _ Hr) in Hw |- *.
    now rewrite (normalize_int_reparse urlparse z), Hp, Hw.
Qed.

(** An invite link, entered with blanks around it. *)
Lemma normalize_idempotent_witness :
  normalize_chat_identifier UrlLib.urlparse
    (ArgStr (raw (mkNormalizedChat "https://t.me/joinchat/AbCdEf12"
                    (TStr "https://t.me/joinchat/AbCdEf12") (Some "AbCdEf12"))))
  = Ok (Some (mkNormalizedChat "https://t.me/joinchat/AbCdEf12"
                (TStr "https://t.me/joinchat/AbCdEf12") (Some "AbCdEf12"))).
Proof.
  apply (normalize_idempotent UrlLib.urlparse
           (ArgStr "  https://t.me/joinchat/AbCdEf12 ")).
  - exact I.
  - reflexivity.
Defined.

(** C5, the claim as stated fails on an integer id: the integer
    123456789 gives an integer target, its [raw] text gives a string
    target. *)
Lemma integer_id_not_idempotent :
  exists d,
    normalize_chat_identifier UrlLib.urlparse (ArgInt 123456789) = Ok (Some d)
    /\ normalize_chat_identifier UrlLib.urlparse (ArgStr (raw d)) <> Ok (Some d).
Proof.
  eexists. split; [reflexivity|]. vm_compute. intros [=].
Qed.

(** C8, as amended. For a string that is non-empty once trimmed and is
    not a recognized URL: it gets an integer target exactly when it
    matches [-?100\d{5,}] (the minus sign is optional) and has no more
    digits than [int] reads; a match with more digits keeps the string;
    and when it neither matches nor starts with ["+"] its target is the
    trimmed string itself. *)
Theorem bare_string_target (urlparse : string -> option ParseResult)
    (s : string) :
  nonempty (strip s) = true ->
  Spec.recognized_url urlparse (strip s) = false ->
  (channel_id_pattern (strip s) = true ->
     exists z, decimal_value (strip s) = Some z
       /\ normalize_chat_identifier urlparse (ArgStr s)
          = Ok (Some (mkNormalizedChat (strip s)
                        (if within_digit_limit (strip s) then TInt z
                         else TStr (strip s))
                        None)))
  /\ (channel_id_pattern (strip s) = false ->
      startswith (strip s) "+" = false ->
      normalize_chat_identifier urlparse (ArgStr s)
      = Ok (Some (mkNormalizedChat (strip s) (TStr (strip s)) None)))
  /\ (forall d z,
        normalize_chat_identifier urlparse (ArgStr s) = Ok (Some d) ->
        target d = TInt z ->
        channel_id_pattern (strip s) = true
        /\ within_digit_limit (strip s) = true
        /\ decimal_value (strip s) = Some z).
Proof.
  intros Hne Hurl. apply unrecognized_url in Hurl.
  cbn [normalize_chat_identifier]. rewrite <- normalize_str_strip.
  split; [|split].
  - intros Hp. destruct (normalize_channel_id urlparse _ Hp) as (z & Hz & ->).
    eauto.
  - intros Hp Hplus. rewrite normalize_plain, ?Hplus; auto using strip_idem.
  - intros d z Hd Ht. injection Hd as Hd.
    destruct (channel_id_pattern (strip s)) eqn:Hp.
    + destruct (normalize_channel_id urlparse _ Hp) as (z' & Hz & Hn).
      rewrite Hn in Hd. injection Hd as <-. cbn [target] in Ht.
      destruct (within_digit_limit (strip s)); [|discriminate Ht].
      injection Ht as <-. auto.
    + rewrite normalize_plain in Hd; auto using strip_idem.
      destruct (startswith (strip s) "+"); injection Hd as <-; discriminate Ht.
Qed.

(** A channel id, entered with blanks around it. *)
Lemma bare_string_target_witness :
  normalize_chat_identifier UrlLib.urlparse (ArgStr "  -1001234567890 ")
  = Ok (Some (mkNormalizedChat "-1001234567890" (TInt (-1001234567890)) None))
  /\ normalize_chat_identifier UrlLib.urlparse (ArgStr "  durov ")
     = Ok (Some (mkNormalizedChat "durov" (TStr "durov") None)).
Proof.
  split.
  - destruct (bare_string_target UrlLib.urlparse "  -1001234567890 "
                eq_refl eq_refl) as (H & _).
    destruct (H eq_refl) as (z & Hz & ->). vm_compute in Hz.
    now injection Hz as <-.
  - apply (bare_string_target UrlLib.urlparse "  durov "); reflexivity.
Defined.

(** C8, the claim as stated fails: ["10012345"] has no minus sign, so
    it is not of the form [-100] followed by digits, and its target is
    an integer all the same. *)
Lemma unsigned_channel_id_is_parsed :
  Spec.negative_channel_id "10012345" = false
  /\ Spec.recognized_url UrlLib.urlparse "10012345" = false
  /\ normalize_chat_identifier UrlLib.urlparse (ArgStr "10012345")
     = Ok (Some (mkNormalizedChat "10012345" (TInt 10012345) None)).
Proof. repeat split. Qed.

(** C9, as amended. For a URL of a recognized domain whose path starts
    with the segment ["c"] followed by a numeric segment, the segment is
    made fully qualified: kept as it is when it starts with ["-100"], and
    otherwise prefixed with ["-100"] after its leading ["-"] is dropped.
    The target is the integer that this text writes when the text has no
    more digits than [int] reads, and the text itself when it has more. *)
Theorem c_link_target (urlparse : string -> option ParseResult)
    (s : string) (parsed : ParseResult) (seg : string) (rest : list string) :
  startswith (lower (strip s)) "http://"
    || startswith (lower (strip s)) "https://" = true ->
  urlparse (strip s) = Some parsed ->
  in_strings (lower (netloc parsed)) domain_aliases = true ->
  split "/" (strip_char "/" (path parsed)) = "c" :: seg :: rest ->
  Spec.numeric_segment seg = true ->
  exists z,
    decimal_value (Spec.fully_qualified seg) = Some z
    /\ normalize_chat_identifier urlparse (ArgStr s)
       = Ok (Some (mkNormalizedChat (strip s)
                     (if within_digit_limit (Spec.fully_qualified seg)
                      then TInt z else TStr (Spec.fully_qualified seg))
                     None)).
Proof.
  intros Hscheme Hparse Hdom Hparts Hseg.
  destruct (fully_qualified_int seg Hseg) as [z Hz]. exists z. split; [exact Hz|].
  destruct (scheme_not_channel_id _ Hscheme) as [Hne Hp].
  destruct (numeric_segment_kept seg Hseg) as [Hsegne Hkeep].
  cbn [normalize_chat_identifier]. unfold normalize_str.
  rewrite Hne, Hp. cbn [negb].
  unfold from_url. rewrite Hscheme, Hparse, Hdom.
  assert (nonempty (strip_char "/" (path parsed)) = true) as ->.
  { destruct (strip_char "/" (path parsed)); [discriminate Hparts|reflexivity]. }
  rewrite Hparts. unfold from_parts.
  cbn [String.eqb Ascii.eqb Bool.eqb length Nat.leb andb nth].
  rewrite Hkeep, Hsegne.
  rewrite <- (int_or_str_cases _ _ Hz).
  unfold Spec.fully_qualified.
  now destruct (startswith seg "-100").
Qed.

(** The link of a message in a private channel. *)
Lemma c_link_target_witness :
  normalize_chat_identifier UrlLib.urlparse (ArgStr "https://t.me/c/1234567890/99")
  = Ok (Some (mkNormalizedChat "https://t.me/c/1234567890/99"
                (TInt (-1001234567890)) None)).
Proof.
  destruct (c_link_target UrlLib.urlparse "https://t.me/c/1234567890/99"
              (mkParseResult "t.me" "/c/1234567890/99") "1234567890" ["99"]
              eq_refl eq_refl eq_refl eq_refl eq_refl) as (z & Hz & ->).
  vm_compute in Hz. now injection Hz as <-.
Defined.

(** C9, the claim as stated fails on a segment of 4298 digits: made
    fully qualified it has 4301 digits, [int] refuses it, and the target
    is the text. *)
Lemma long_c_link_keeps_text :
  Spec.numeric_segment Scenarios.long_segment = true
  /\ Spec.recognized_url UrlLib.urlparse ("https://t.me/c/" +:+ Scenarios.long_segment)
     = true
  /\ normalize_chat_identifier UrlLib.urlparse
       (ArgStr ("https://t.me/c/" +:+ Scenarios.long_segment))
     = Ok (Some (mkNormalizedChat ("https://t.me/c/" +:+ Scenarios.long_segment)
                   (TStr ("-100" +:+ Scenarios.long_segment)) None)).
Proof. repeat split; vm_compute; reflexivity. Qed.

End NormalizerFacts.

(** ** The resolver *)

Module ResolverFacts.
Import PyStr Py ChatUtils Remote Resolver.

Ltac run_monad :=
  unfold mbind, mret, M_bind, M_ret, bind, ret, raise, lift, emit,
    try_except, try_finally, report in *.

Section Invite.
Variables (client : Client) (chat : NormalizedChat) (h : string).
Hypothesis Hhash : invite_hash chat = Some h.
Hypothesis Hne : nonempty h = true.

(** X8. When the invite check answers, the answer decides: a chat the
    account already belongs to is looked up, anything else is the
    unresolved-invite [ValueError]. One check is made. *)
Lemma resolve_invite_reply (reply : InviteReply) (t : list Event) :
  check_invite client 0 h = Ok reply ->
  resolve_chat_entity client chat t =
    match reply with
    | ChatInviteAlready c =>
        (get_entity client (ByChat c),
         t ++ [EvCheckInvite h; EvGetEntity (ByChat c)])
    | _ => (Raise unresolved_invite, t ++ [EvCheckInvite h])
    end%list.
Proof.
  intros Hreply. unfold resolve_chat_entity, call_check_invite, call_get_entity.
  rewrite Hhash. cbn [truthy default from_option id]. rewrite Hne.
  run_monad. rewrite Hreply.
  destruct reply; try reflexivity.
  now rewrite <- app_assoc.
Qed.

(** C3. The [except] clause names a class that [chat_utils.py] never
    imports: whatever the first invite check raises, the clause itself
    fails with [NameError], and no second check is made. *)
Theorem invite_check_failure_not_retried (e : Exc) (t : list Event) :
  check_invite client 0 h = Raise e ->
  resolve_chat_entity client chat t =
    (Raise (mkExc NameError "name 'UserAlreadyParticipantError' is not defined"),
     (t ++ [EvCheckInvite h])%list).
Proof.
  intros Hreply. unfold resolve_chat_entity, call_check_invite.
  rewrite Hhash. cbn [truthy default from_option id]. rewrite Hne.
  run_monad. now rewrite Hreply.
Qed.
End Invite.

(** The race the [except] clause was written for: the retry that would
    succeed is never made. *)
Lemma invite_check_failure_not_retried_witness :
  resolve_chat_entity Scenarios.racing_client Scenarios.invite_chat []
  = (Raise (mkExc NameError "name 'UserAlreadyParticipantError' is not defined"),
     [EvCheckInvite "AbCdEf12"]).
Proof.
  apply (invite_check_failure_not_retried Scenarios.racing_client
           Scenarios.invite_chat "AbCdEf12" eq_refl eq_refl
           (mkExc UserAlreadyParticipantError "USER_ALREADY_PARTICIPANT") []).
  reflexivity.
Defined.

End ResolverFacts.

(** ** The activity scan *)

Module ScanFacts.
Import Py Remote MemberExport ScanSpec ResolverFacts.
Local Open Scope nat_scope.

Section Scan.
Variables (client : Client) (entity : Entity).
Variables (pids : gset Z) (progress : bool).

Abbreviation step := (scan_message client entity pids progress).
Abbreviation loop := (scan_loop client entity pids progress).
Abbreviation prefix := (scan_prefix client entity pids progress).

Lemma record_post_lookup message lp u :
  u ∈ pids ->
  record_post pids message lp !! u =
    or_else (lp !! u)
      (if bool_decide (msg_sender_id message = Some u)
       then Some (msg_date message) else None).
Proof.
  intros Hu. unfold record_post, or_else.
  destruct (msg_sender_id message) as [sid|];
    repeat case_bool_decide; simplify_eq; simpl;
    rewrite ?lookup_insert_eq, ?lookup_insert_ne by congruence;
    try (destruct (lp !! u) eqn:?); congruence.
Qed.

Lemma record_post_dom message lp :
  dom lp ⊆ pids -> dom (record_post pids message lp) ⊆ pids.
Proof.
  intros H. unfold record_post.
  destruct (msg_sender_id message) as [sid|]; [|exact H].
  destruct (bool_decide (sid ∈ pids)) eqn:E; [|exact H].
  apply bool_decide_eq_true in E.
  destruct (bool_decide _); [|exact H]. simpl.
  rewrite dom_insert_L. set_solver.
Qed.

(** The request of a reaction list is never made: the constructor
    refuses the keywords of the call. *)
Lemma request_refused :
  call_with_keywords "GetMessageReactionsListRequest.__init__"
    reactions_request_params reactions_request_keywords
  = Raise unexpected_keyword.
Proof. reflexivity. Qed.

(** A message with a reaction summary ends the pass, and with it the
    scan, before anything is recorded or sent. *)
Lemma scan_message_summary message st t :
  has_reaction_results message = true ->
  step message st t = (Raise unexpected_keyword, t).
Proof.
  intros H. unfold scan_message, _fetch_reactions_for_message.
  rewrite H, request_refused. reflexivity.
Qed.

Lemma scan_message_plain message st t :
  has_reaction_results message = false ->
  step message st t
  = (Ok (mkScanState (record_post pids message (last_post st))
           (last_reaction st) (S (scanned st))),
     if progress && (S (scanned st) mod 250 =? 0)%nat
     then (t ++ [EvProgress ("Messages scanned: " +:+ str_nat (S (scanned st)))])%list
     else t).
Proof.
  intros H. unfold scan_message. rewrite H. run_monad.
  now destruct (progress && _).
Qed.

(** What one pass of the loop body does to the state when it returns. *)
Lemma scan_message_ok message st t st' t' :
  step message st t = (Ok st', t') ->
  scanned st' = S (scanned st)
  /\ last_post st' = record_post pids message (last_post st)
  /\ last_reaction st' = last_reaction st
  /\ has_reaction_results message = false
  /\ (keys_known pids st -> keys_known pids st').
Proof.
  destruct (has_reaction_results message) eqn:H.
  - rewrite (scan_message_summary _ _ _ H). discriminate.
  - rewrite (scan_message_plain _ _ _ H). intros [= <- _]. cbn.
    do 4 (split; [reflexivity|]). intros [Hp Hr].
    split; [now apply record_post_dom|exact Hr].
Qed.

Lemma scan_message_returns message st t :
  has_reaction_results message = false ->
  exists st' t', step message st t = (Ok st', t').
Proof. intros H. rewrite (scan_message_plain _ _ _ H). eauto. Qed.

Lemma first_post_take u n messages d :
  first_post u (take n messages) = Some d -> first_post u messages = Some d.
Proof.
  revert n. induction messages as [|m rest IH]; intros [|n]; simpl; try discriminate.
  destruct (bool_decide _); [trivial|apply IH].
Qed.

(** On a newest-first stream the first message of a sender is his or
    her most recent one. *)
Lemma first_post_most_recent u messages d message :
  newest_first messages ->
  first_post u messages = Some d ->
  message ∈ messages -> msg_sender_id message = Some u ->
  (dt_seconds (msg_date message) <= dt_seconds d)%Z.
Proof.
  induction messages as [|m rest IH]; simpl; [discriminate|].
  intros [Hm Hrest] Hd Hin Hu.
  apply elem_of_cons in Hin as [->|Hin].
  - rewrite bool_decide_eq_true_2 in Hd by exact Hu.
    injection Hd as <-. lia.
  - destruct (bool_decide (msg_sender_id m = Some u)).
    + injection Hd as <-. now apply Hm.
    + now apply IH.
Qed.

Lemma or_else_assoc {A} (a b c : option A) :
  or_else (or_else a b) c = or_else a (or_else b c).
Proof. now destruct a. Qed.

(** First seen wins: an entry is never overwritten, and a missing one
    is filled by the first message of the sender. *)
Lemma scan_prefix_post messages st t st' t' u :
  prefix messages st t = (Ok st', t') -> u ∈ pids ->
  last_post st' !! u = or_else (last_post st !! u) (first_post u messages).
Proof.
  intros H Hu. revert st t H.
  induction messages as [|m rest IH]; intros st t H.
  - injection H as <- <-. now destruct (last_post st !! u).
  - cbn [scan_prefix] in H. unfold mbind, M_bind, bind in H.
    destruct (step m st t) as [[s1|e] t1] eqn:E; [|discriminate].
    apply scan_message_ok in E as (_ & Hlp & _).
    rewrite (IH _ _ H), Hlp, (record_post_lookup _ _ _ Hu), or_else_assoc.
    f_equal. simpl. now destruct (bool_decide _).
Qed.

Lemma scan_prefix_keys messages st t st' t' :
  prefix messages st t = (Ok st', t') ->
  keys_known pids st -> keys_known pids st'.
Proof.
  revert st t. induction messages as [|m rest IH]; intros st t H.
  - now injection H as <- <-.
  - cbn [scan_prefix] in H. unfold mbind, M_bind, bind in H.
    destruct (step m st t) as [[s1|e] t1] eqn:E; [|discriminate].
    apply scan_message_ok in E as (_ & _ & _ & _ & Hk). intros Hst.
    exact (IH _ _ H (Hk Hst)).
Qed.

(** A prefix that is scanned to its end had no reaction summary in it,
    and leaves the reaction map as it was. *)
Lemma scan_prefix_reactions messages st t st' t' :
  prefix messages st t = (Ok st', t') ->
  last_reaction st' = last_reaction st /\ no_reaction_summary messages.
Proof.
  revert st t. induction messages as [|m rest IH]; intros st t H.
  - injection H as <- <-. split; [reflexivity|constructor].
  - cbn [scan_prefix] in H. unfold mbind, M_bind, bind in H.
    destruct (step m st t) as [[s1|e] t1] eqn:E; [|discriminate].
    apply scan_message_ok in E as (_ & _ & Hlr & Hm & _).
    destruct (IH _ _ H) as [Hlr' Hrest].
    split; [congruence|]. now constructor.
Qed.

(** With no reaction on record the break test holds for the empty
    participant set only. *)
Lemma all_found_no_reactions st :
  last_reaction st = ∅ -> all_found pids st = true -> pids = ∅.
Proof.
  unfold all_found. intros -> [_ H]%andb_prop.
  apply Nat.eqb_eq in H. rewrite map_size_empty in H.
  symmetry in H. now apply size_empty_iff, leibniz_equiv in H.
Qed.

(** With only participants recorded, the two size tests before
    [break] say that every participant has both entries. *)
Lemma all_found_recorded st :
  keys_known pids st ->
  all_found pids st = true <-> all_recorded pids st.
Proof.
  intros [Hp Hr]. unfold all_found, all_recorded.
  rewrite andb_true_iff, !Nat.eqb_eq, <- !(size_dom (D:=gset Z)). split.
  - intros [E1 E2] u Hu. rewrite <- !elem_of_dom.
    rewrite (set_subseteq_size_eq _ _ Hp), (set_subseteq_size_eq _ _ Hr) by lia.
    now split.
  - intros H.
    assert (dom (last_post st) = pids) as ->.
    { apply set_eq. intros u. split; [apply Hp|].
      intros Hu. apply elem_of_dom, (H u Hu). }
    assert (dom (last_reaction st) = pids) as ->.
    { apply set_eq. intros u. split; [apply Hr|].
      intros Hu. apply elem_of_dom, (H u Hu). }
    now split.
Qed.

(** The loop stops after the first message that leaves the break test
    true, and otherwise runs to the end of the stream. *)
Lemma scan_loop_prefix messages pending st t st' t' :
  loop messages pending st t = (Ok st', t') ->
  exists n,
    n <= length messages
    /\ scanned st' = scanned st + n
    /\ prefix (take n messages) st t = (Ok st', t')
    /\ (forall k, 1 <= k < n ->
          exists sk tk, prefix (take k messages) st t = (Ok sk, tk)
                        /\ all_found pids sk = false)
    /\ (n < length messages -> 1 <= n /\ all_found pids st' = true)
    /\ (messages <> [] -> 1 <= n).
Proof.
  revert st t. induction messages as [|m rest IH]; intros st t H.
  - exists 0. cbn in H. destruct pending; [discriminate|].
    injection H as <- <-. simpl.
    repeat split; try lia; try reflexivity. now intros [].
  - cbn [scan_loop] in H. unfold mbind, M_bind, bind in H.
    destruct (step m st t) as [[s1|e] t1] eqn:E; [|discriminate].
    destruct (scan_message_ok _ _ _ _ _ E) as (Hsc & _ & _).
    destruct (all_found pids s1) eqn:Hfound.
    + injection H as <- <-. exists 1. simpl.
      repeat split; try lia.
      * unfold mbind, M_bind, bind. now rewrite E.
      * exact Hfound.
    + destruct (IH _ _ H) as (n & Hn & Hs & Hpre & Hk & Hlt & _).
      exists (S n). simpl. repeat split; try lia.
      * unfold mbind, M_bind, bind. now rewrite E.
      * intros [|[|k]] Hr; [lia| |].
        -- exists s1, t1. simpl. unfold mbind, M_bind, bind. now rewrite E.
        -- destruct (Hk (S k)) as (sk & tk & Hsk & Hf); [lia|].
           exists sk, tk. split; [|exact Hf].
           cbn [take scan_prefix]. unfold mbind, M_bind, bind. now rewrite E.
      * apply Hlt. lia.
Qed.

Lemma scan_loop_returns messages st t :
  no_reaction_summary messages ->
  exists st' t', loop messages None st t = (Ok st', t').
Proof.
  revert st t. induction messages as [|m rest IH]; intros st t H.
  - simpl. eauto.
  - apply Forall_cons in H as [Hm Hrest].
    destruct (scan_message_returns m st t Hm) as (s1 & t1 & E).
    cbn [scan_loop]. unfold mbind, M_bind, bind. rewrite E.
    destruct (all_found pids s1); [eauto|]. now apply IH.
Qed.

(** The loop comes to the first message with a reaction summary unless
    it stops before, which it can only do after its first pass and for
    the empty participant set; there it ends with the [TypeError]. *)
Lemma scan_loop_summary before m after pending st t :
  no_reaction_summary before ->
  has_reaction_results m = true ->
  last_reaction st = ∅ ->
  pids <> ∅ \/ before = [] ->
  exists t', loop (before ++ m :: after) pending st t
             = (Raise unexpected_keyword, t').
Proof.
  revert st t. induction before as [|b before IH]; intros st t Hb Hm Hlr Hcase.
  - cbn [app scan_loop]. unfold mbind, M_bind, bind.
    rewrite (scan_message_summary _ _ _ Hm). eauto.
  - destruct Hcase as [Hpids|[=]].
    apply Forall_cons in Hb as [Hb Hrest].
    cbn [app scan_loop]. unfold mbind, M_bind, bind.
    rewrite (scan_message_plain _ _ _ Hb).
    destruct (all_found pids _) eqn:Hf.
    + apply all_found_no_reactions in Hf; [contradiction|exact Hlr].
    + apply IH; auto.
Qed.

Lemma limit_stream_items {A} (limit : Z) (s : Stream A) :
  items (limit_stream limit s) = take (Z.to_nat limit) (items s).
Proof.
  unfold limit_stream. destruct (Nat.leb_spec (Z.to_nat limit) (length (items s))).
  - reflexivity.
  - symmetry. apply take_ge. lia.
Qed.

(** X14. The correlator returns whenever the message stream ends
    without an error and none of the messages within the limit carries a
    reaction summary; the reaction map it returns is empty. *)
Lemma collect_activity_maps_returns (history_limit : Z) (t : list Event) :
  failure (iter_messages client ActivityScan entity) = None ->
  no_reaction_summary
    (items (limit_stream history_limit (iter_messages client ActivityScan entity))) ->
  exists lp t',
    _collect_activity_maps client entity pids history_limit progress t
      = (Ok (lp, ∅), t').
Proof.
  intros Hend Hplain. unfold _collect_activity_maps, activity_scan.
  destruct (scan_loop_returns _ scan_init t Hplain) as (st & t1 & E).
  assert (failure (limit_stream history_limit (iter_messages client ActivityScan entity))
          = None) as Hf.
  { unfold limit_stream. now destruct (_ <=? _). }
  rewrite Hf. unfold mbind, M_bind, bind. rewrite E.
  destruct (scan_loop_prefix _ _ _ _ _ _ E) as (n & _ & _ & Hpre & _).
  destruct (scan_prefix_reactions _ _ _ _ _ Hpre) as [Hlr _].
  rewrite Hlr. run_monad. destruct progress; eauto.
Qed.

(** C1. Of a participant, the correlator records the date of the first
    scanned message he or she sent; no message further down the stream
    would have given another date. *)
Theorem last_post_first_seen (history_limit : Z) (t t' : list Event)
    (lp : gmap Z Datetime) (lr : gmap Z ReactionEntry) (u : Z) :
  let messages :=
    items (limit_stream history_limit (iter_messages client ActivityScan entity)) in
  _collect_activity_maps client entity pids history_limit progress t
    = (Ok (lp, lr), t') ->
  u ∈ pids ->
  exists st t1,
    activity_scan client entity pids history_limit progress t = (Ok st, t1)
    /\ lp = last_post st
    /\ lp !! u = first_post u (take (scanned st) messages)
    /\ lp !! u = first_post u messages.
Proof.
  intros messages H Hu. unfold _collect_activity_maps in H.
  unfold mbind, M_bind, bind in H.
  destruct (activity_scan client entity pids history_limit progress t)
    as [[st|e] t1] eqn:E; [|discriminate].
  exists st, t1. split; [reflexivity|].
  assert (lp = last_post st) as ->.
  { revert H. run_monad. destruct progress; now intros [= <- _ _]. }
  split; [reflexivity|].
  unfold activity_scan in E. fold messages in E.
  destruct (scan_loop_prefix _ _ _ _ _ _ E) as (n & Hn & Hs & Hpre & _ & Hlt & _).
  simpl in Hs. subst n.
  pose proof (scan_prefix_post _ _ _ _ _ u Hpre Hu) as Hpost.
  change (last_post scan_init) with (∅ : gmap Z Datetime) in Hpost.
  rewrite lookup_empty in Hpost. cbn [or_else] in Hpost.
  split; [exact Hpost|].
  destruct (decide (scanned st < length messages)) as [Hl|Hl].
  - destruct (Hlt Hl) as [_ Hfound].
    apply all_found_recorded in Hfound.
    + destruct (Hfound u Hu) as [[d Hd] _]. rewrite Hd in Hpost |- *.
      symmetry. symmetry in Hpost. exact (first_post_take _ _ _ _ Hpost).
    + apply (scan_prefix_keys _ _ _ _ _ Hpre). split; set_solver.
  - rewrite take_ge in Hpost by lia. exact Hpost.
Qed.

(** C2. The scan cannot stop as the claim has it, because no reaction
    is ever recorded: the request of a reaction list is built with
    keywords its constructor does not have. A scan that comes to a
    message with a reaction summary ends there with a [TypeError]; a scan
    that returns has met no such message, returns an empty reaction map,
    and for a non-empty participant set has gone through every message
    within the limit. For the empty participant set it stops after its
    first message. *)
Theorem reaction_summary_ends_scan (history_limit : Z) (t : list Event) :
  let messages :=
    items (limit_stream history_limit (iter_messages client ActivityScan entity)) in
  length messages
  = Nat.min (Z.to_nat history_limit)
      (length (items (iter_messages client ActivityScan entity)))
  /\ (forall before m after,
        messages = (before ++ m :: after)%list ->
        no_reaction_summary before ->
        has_reaction_results m = true ->
        pids <> ∅ \/ before = [] ->
        exists t', activity_scan client entity pids history_limit progress t
                   = (Raise unexpected_keyword, t'))
  /\ (forall st t',
        activity_scan client entity pids history_limit progress t = (Ok st, t') ->
        last_reaction st = ∅
        /\ no_reaction_summary (take (scanned st) messages)
        /\ (pids <> ∅ -> scanned st = length messages)
        /\ (pids = ∅ -> scanned st = Nat.min 1 (length messages))).
Proof.
  intros messages. split; [|split].
  - unfold messages. rewrite limit_stream_items, length_take. reflexivity.
  - intros before m after Hsplit Hb Hm Hcase. unfold activity_scan.
    fold messages. rewrite Hsplit. now apply scan_loop_summary.
  - intros st t' E. unfold activity_scan in E. fold messages in E.
    destruct (scan_loop_prefix _ _ _ _ _ _ E)
      as (n & Hn & Hs & Hpre & Hk & Hlt & Hne).
    simpl in Hs. subst n.
    destruct (scan_prefix_reactions _ _ _ _ _ Hpre) as [Hlr Hplain].
    change (last_reaction scan_init) with (∅ : gmap Z ReactionEntry) in Hlr.
    split; [exact Hlr|]. split; [exact Hplain|]. split.
    + intros Hpids.
      destruct (decide (scanned st < length messages)) as [Hl|Hl]; [|lia].
      destruct (Hlt Hl) as [_ Hf].
      now apply all_found_no_reactions in Hf.
    + intros Hempty.
      destruct messages as [|m0 rest] eqn:Hmsgs; [simpl in *; lia|].
      assert (1 <= scanned st) as H1 by (now apply Hne).
      destruct (decide (scanned st = 1)) as [->|Hneq]; [reflexivity|].
      destruct (Hk 1) as (sk & tk & Hsk & Hf); [lia|]. exfalso.
      assert (keys_known pids scan_init) as Hinit by (split; set_solver).
      destruct (scan_prefix_keys _ _ _ _ _ Hsk Hinit) as [Hp Hr].
      unfold all_found in Hf. rewrite Hempty in Hp, Hr, Hf.
      assert (last_post sk = ∅) as Hlp by (apply dom_empty_iff_L; set_solver).
      assert (last_reaction sk = ∅) as Hlr' by (apply dom_empty_iff_L; set_solver).
      rewrite Hlp, Hlr', !map_size_empty, size_empty in Hf. discriminate Hf.
Qed.
End Scan.

(** The reaction map a returning correlator hands back is empty. *)
Lemma activity_maps_no_reactions (client : Client) (entity : Entity)
    (pids : gset Z) (progress : bool) (history_limit : Z) (t t' : list Event)
    (lp : gmap Z Datetime) (lr : gmap Z ReactionEntry) :
  _collect_activity_maps client entity pids history_limit progress t
    = (Ok (lp, lr), t') ->
  lr = ∅.
Proof.
  unfold _collect_activity_maps. unfold mbind at 1, M_bind at 1, bind at 1.
  destruct (activity_scan client entity pids history_limit progress t)
    as [[st|e] t1] eqn:E; [|discriminate].
  intros H.
  assert (lr = last_reaction st) as ->.
  { revert H. run_monad. destruct progress; now intros [= _ <- _]. }
  unfold activity_scan in E.
  destruct (scan_loop_prefix _ _ _ _ _ _ _ _ _ _ E) as (n & _ & _ & Hpre & _).
  now destruct (scan_prefix_reactions _ _ _ _ _ _ _ _ _ Hpre) as [-> _].
Qed.

(** User 7 posts at [T2] and, further down, at the older [T1]: [T2] is
    recorded. *)
Lemma last_post_first_seen_witness :
  exists lp lr t',
    _collect_activity_maps Scenarios.two_posts Scenarios.some_chat {[7%Z]} 2000 false []
      = (Ok (lp, lr), t')
    /\ lp !! 7%Z = Some Scenarios.T2.
Proof.
  destruct (_collect_activity_maps Scenarios.two_posts Scenarios.some_chat
              {[7%Z]} 2000 false []) as [[[lp lr]|e] t'] eqn:E;
    [|vm_compute in E; discriminate E].
  exists lp, lr, t'. split; [reflexivity|].
  destruct (last_post_first_seen Scenarios.two_posts Scenarios.some_chat
              {[7%Z]} false 2000%Z [] t' lp lr 7%Z E) as (st & t1 & _ & _ & _ & ->).
  - set_solver.
  - reflexivity.
Defined.

(** The claim's example: a limit of 5 and two participants. The first
    message carries a reaction summary, and the scan ends there. *)
Lemma reaction_summary_ends_scan_witness :
  exists t',
    activity_scan Scenarios.five_messages Scenarios.some_chat {[1%Z; 2%Z]} 5 false []
    = (Raise unexpected_keyword, t').
Proof.
  destruct (reaction_summary_ends_scan Scenarios.five_messages Scenarios.some_chat
              {[1%Z; 2%Z]} false 5%Z []) as (_ & Hraise & _).
  apply (Hraise [] (Scenarios.post 25 1 Scenarios.T3 true)
           [Scenarios.post 24 2 Scenarios.T2 false;
            Scenarios.post 23 3 Scenarios.T2 true;
            Scenarios.post 22 1 Scenarios.T1 false;
            Scenarios.post 21 2 Scenarios.T1 false]).
  - reflexivity.
  - constructor.
  - reflexivity.
  - now right.
Defined.

End ScanFacts.

(** ** The export run *)

Module RunFacts.
Import PyStr Py ChatUtils Remote Resolver MemberExport StringFacts ResolverFacts.

Lemma bind_ok {A B} (m : M A) (k : A -> M B) t b t' :
  (m ≫= k) t = (Ok b, t') ->
  exists a t1, m t = (Ok a, t1) /\ k a t1 = (Ok b, t').
Proof.
  unfold mbind, M_bind, bind. destruct (m t) as [[a|e] t1]; [eauto|discriminate].
Qed.

Lemma try_finally_ok {A} (body : M A) (fin : M unit) t a t' :
  try_finally body fin t = (Ok a, t') ->
  exists t1, body t = (Ok a, t1) /\ fin t1 = (Ok tt, t').
Proof.
  unfold try_finally. destruct (body t) as [r t1] eqn:Eb.
  destruct (fin t1) as [[[]|e] t2] eqn:Ef; [|discriminate].
  intros [= -> <-]. exists t1. now rewrite Ef.
Qed.

Lemma report_trace progress text t :
  exists t', report progress text t = (Ok tt, t') /\ connected t' = connected t.
Proof.
  unfold report, emit, mret, M_ret, ret. destruct progress; eexists; split; eauto.
  unfold connected. now rewrite foldl_app.
Qed.

(** *** The filtered enumerations *)

Lemma recent_ids_elem (users : list Entity) (z : Z) :
  z ∈ foldl (fun (s : gset Z) user => {[ent_id user]} ∪ s) ∅ users
  <-> exists user, user ∈ users /\ ent_id user = z.
Proof.
  assert (forall (s : gset Z),
            z ∈ foldl (fun (s : gset Z) user => {[ent_id user]} ∪ s) s users
            <-> z ∈ s \/ exists user, user ∈ users /\ ent_id user = z) as H.
  { induction users as [|u us IH]; intros s; simpl.
    - split; [auto|]. intros [H|(u & Hu & _)]; [exact H|]. inversion Hu.
    - rewrite IH, elem_of_union, elem_of_singleton. split.
      + intros [[->|H]|(u' & Hu' & E)]; eauto using list_elem_of_here, list_elem_of_further.
      + intros [H|(u' & Hu' & E)]; [auto|].
        apply elem_of_cons in Hu' as [->|Hu']; eauto. }
  rewrite H. split; [|auto]. intros [Hz|Hz]; [|exact Hz]. set_solver.
Qed.

Lemma count_is_length {A} (l : list A) (n : nat) :
  foldl (fun n _ => S n) n l = (n + length l)%nat.
Proof.
  revert n. induction l as [|x l IH]; intros n; simpl; [lia|]. rewrite IH. lia.
Qed.

(** C7. When neither filtered enumeration fails with an error outside
    the caught classes, the function returns. A failed bots enumeration
    counts for 0 whatever it had yielded; the set of recent ids holds
    every id the recent enumeration yielded, also when that enumeration
    then failed: it is empty after a failure only if the failure came
    before the first user. *)
Theorem recent_ids_survive_failure (client : Client) (entity : Entity)
    (progress : bool) (t : list Event) :
  let bots := iter_participants client entity ChannelParticipantsBots true in
  let recent := iter_participants client entity ChannelParticipantsRecent false in
  Spec.degrades bots -> Spec.degrades recent ->
  exists recent_ids t',
    _collect_bots_and_recent client entity progress t
      = (Ok (match failure bots with
             | Some _ => 0%nat
             | None => length (items bots)
             end, recent_ids), t')
    /\ forall z, z ∈ recent_ids <->
         exists user, user ∈ items recent /\ ent_id user = z.
Proof.
  intros bots recent Hb Hr. unfold _collect_bots_and_recent.
  fold bots recent. unfold Spec.degrades in Hb, Hr.
  rewrite count_is_length.
  destruct (failure bots) as [eb|], (failure recent) as [er|];
    rewrite ?Hb, ?Hr; run_monad; destruct progress;
    eexists _, _; (split; [reflexivity|apply recent_ids_elem]).
Qed.

(** The bots enumeration is refused for lack of admin rights, the recent
    one fails on a flood wait after it has yielded user 7. *)
Lemma recent_ids_survive_failure_witness :
  exists recent_ids t',
    _collect_bots_and_recent Scenarios.degraded Scenarios.some_chat false []
      = (Ok (0%nat, recent_ids), t')
    /\ 7 ∈ recent_ids.
Proof.
  destruct (recent_ids_survive_failure Scenarios.degraded Scenarios.some_chat false []
              eq_refl eq_refl) as (ids & t' & E & H).
  exists ids, t'. split; [exact E|].
  apply H. exists (Scenarios.user 7 "alice" false). split; [|reflexivity].
  simpl. left.
Defined.

(** *** Sessions *)

Lemma connected_snoc t ev :
  connected (t ++ [ev]) =
    match ev with
    | EvConnect => true
    | EvDisconnect => false
    | _ => connected t
    end.
Proof. unfold connected. rewrite foldl_app. reflexivity. Qed.

Lemma clone_session_trace fs session_path t r t' :
  _clone_session fs session_path t = (r, t') ->
  (t' = t \/ exists src tmp, t' = t ++ [EvCopySession src tmp] /\ is_ok r = true)%list.
Proof.
  unfold _clone_session. run_monad.
  destruct (negb (truthy session_path)); [intros [= <- <-]; now left|].
  destruct (negb (path_exists fs _)); [intros [= <- <-]; now left|].
  destruct (mkdir_cache fs); [|intros [= <- <-]; now left].
  destruct (copy2 fs _ _) as [[]|e].
  - intros [= <- <-]. right. eauto.
  - destruct (caught_by e [OSError]); intros [= <- <-]; now left.
Qed.

Lemma clone_session_connected fs session_path t r t' :
  _clone_session fs session_path t = (r, t') -> connected t' = connected t.
Proof.
  intros [->|(src & tmp & -> & _)]%clone_session_trace; [reflexivity|].
  now rewrite connected_snoc.
Qed.

Lemma cleanup_disconnects fs tmp_session t r t' :
  export_cleanup fs tmp_session t = (r, t') -> connected t' = false.
Proof.
  unfold export_cleanup. run_monad.
  destruct tmp_session as [tmp|].
  - destruct (unlink fs tmp) as [[]|e].
    + intros [= <- <-]. now rewrite !connected_snoc.
    + destruct (caught_by e [OSError]); intros [= <- <-]; now rewrite connected_snoc.
  - intros [= <- <-]. now rewrite connected_snoc.
Qed.

Section Run.
Variable urlparse : string -> option ParseResult.
Variables (fs : FileSystem) (client : Client) (chat_username : ChatArg).
Variables (output_path mode : string) (history_limit : Z).
Variables (session_path : option string) (progress : bool).

Abbreviation run :=
  (export_member_data urlparse fs client chat_username output_path mode
     history_limit session_path progress).

(** Once [client.start] has returned, every way out of the run goes
    through [disconnect]; and a run that never connects holds
    nothing. A session can only stay open when the login fails. *)
Lemma session_released_unless_login_fails t r t' :
  connected t = false ->
  run t = (r, t') ->
  connected t' = true ->
  exists e, start client = LoginFailed e.
Proof.
  intros Ht. unfold export_member_data.
  destruct (negb (in_strings mode ["member"; "admin"])).
  { intros [= <- <-]. congruence. }
  unfold mbind at 1, M_bind at 1, bind at 1.
  destruct (_clone_session fs session_path t) as [[[tmp sid]|e] t1] eqn:Ec.
  2:{ intros [= <- <-]. rewrite (clone_session_connected _ _ _ _ _ Ec). congruence. }
  apply clone_session_connected in Ec.
  unfold mbind at 1, M_bind at 1, bind at 1, lift at 1.
  destruct (normalize_chat_identifier urlparse chat_username) as [[nc|]|en].
  2,3: intros [= <- <-]; congruence.
  unfold client_start. run_monad.
  destruct (start client) as [|e|e].
  - destruct (export_body _ _ _ _ _ _ _ _) as [rb tb].
    destruct (export_cleanup fs tmp tb) as [rc tc] eqn:Ecl.
    apply cleanup_disconnects in Ecl.
    destruct rc; intros [= <- <-]; congruence.
  - intros [= <- <-]. rewrite connected_snoc. congruence.
  - eauto.
Qed.

(** C6. A login refused by the remote side comes after the connection
    is made and before the [try] block is entered: the error leaves
    the run with the connection open. *)
Theorem session_held_after_login_failure (t t1 : list Event) (e : Exc)
    (tmp_session : option string) (session_id : string)
    (normalized_chat : NormalizedChat) :
  in_strings mode ["member"; "admin"] = true ->
  _clone_session fs session_path t = (Ok (tmp_session, session_id), t1) ->
  normalize_chat_identifier urlparse chat_username = Ok (Some normalized_chat) ->
  start client = LoginFailed e ->
  run t = (Raise e, (t1 ++ [EvNewClient session_id] ++ [EvConnect])%list)
  /\ connected (t1 ++ [EvNewClient session_id] ++ [EvConnect]) = true.
Proof.
  intros Hmode Hclone Hnc Hstart. split.
  - unfold export_member_data. rewrite Hmode. cbn [negb].
    unfold mbind at 1, M_bind at 1, bind at 1. rewrite Hclone.
    unfold mbind at 1, M_bind at 1, bind at 1, lift at 1. rewrite Hnc.
    unfold client_start. rewrite Hstart. run_monad.
    now rewrite <- app_assoc.
  - now rewrite app_assoc, connected_snoc.
Qed.

(** C10, as amended. A mode other than ["member"] and ["admin"] is
    refused before anything is done. A chat reference that does not
    normalize is refused after the session file may have been cloned
    and before a client exists: the trace gains at most the copy of
    the session file, no connection is made, and the error is the
    [ValueError] of the chat check once the cloning has returned. *)
Theorem invalid_input_rejected_before_client (t : list Event) :
  in_strings mode ["member"; "admin"] = false
  \/ normalize_chat_identifier urlparse chat_username = Ok None ->
  exists e t',
    run t = (Raise e, t')
    /\ (t' = t \/ exists src tmp, t' = t ++ [EvCopySession src tmp])%list
    /\ connected t' = connected t
    /\ (in_strings mode ["member"; "admin"] = false ->
        e = mkExc ValueError "mode must be 'member' or 'admin'" /\ t' = t)
    /\ (in_strings mode ["member"; "admin"] = true ->
        is_ok (_clone_session fs session_path t).1 = true ->
        e = mkExc ValueError "Could not parse chat identifier.").
Proof.
  intros H. unfold export_member_data.
  destruct (in_strings mode ["member"; "admin"]) eqn:Hmode; cbn [negb].
  - destruct H as [H|H]; [discriminate|]. rewrite H.
    unfold mbind, M_bind, bind.
    destruct (_clone_session fs session_path t) as [[[tmp sid]|e] t1] eqn:Ec.
    + exists (mkExc ValueError "Could not parse chat identifier."), t1.
      split; [reflexivity|].
      pose proof (clone_session_connected _ _ _ _ _ Ec) as Hc.
      apply clone_session_trace in Ec as [->|(src & tmp' & -> & _)];
        (split; [eauto|]); (split; [exact Hc|]); (split; [discriminate|auto]).
    + exists e, t1. split; [reflexivity|].
      pose proof (clone_session_connected _ _ _ _ _ Ec) as Hc.
      apply clone_session_trace in Ec as [->|(src & tmp' & -> & Hok)];
        [|discriminate Hok].
      split; [auto|]. split; [exact Hc|]. split; [discriminate|].
      intros _ Hok. discriminate Hok.
  - eexists _, t. split; [reflexivity|]. repeat split; auto. discriminate.
Qed.
End Run.

(** A refused login code: the run ends with the connection open. *)
Lemma session_held_after_login_failure_witness :
  connected
    (snd (export_member_data UrlLib.urlparse (Scenarios.working_fs false)
            Scenarios.refused_login (ArgStr "durov") "members.csv" "member"
            2000 None false []))
  = true.
Proof.
  destruct (session_held_after_login_failure UrlLib.urlparse
              (Scenarios.working_fs false) Scenarios.refused_login (ArgStr "durov")
              "members.csv" "member" 2000 None false [] []
              (mkExc PhoneCodeInvalidError "PHONE_CODE_INVALID")
              None "member_export" (mkNormalizedChat "durov" (TStr "durov") None)
              eq_refl eq_refl eq_refl eq_refl) as [-> H].
  exact H.
Defined.

(** A blank chat reference and no session file: nothing happens at all. *)
Lemma invalid_input_rejected_before_client_witness :
  exists e,
    export_member_data UrlLib.urlparse (Scenarios.working_fs false)
      Scenarios.refused_login (ArgStr "   ") "members.csv" "member" 2000 None false []
    = (Raise e, []).
Proof.
  destruct (invalid_input_rejected_before_client UrlLib.urlparse
              (Scenarios.working_fs false) Scenarios.refused_login (ArgStr "   ")
              "members.csv" "member" 2000 None false [] (or_intror eq_refl))
    as (e & t' & E & _).
  exists e. rewrite E. vm_compute in E. now injection E as _ <-.
Defined.

(** C10, the claim as stated fails on a run given a session file and a
    blank chat reference: the chat check comes after the session file has
    been copied, and the copy is still there when the [ValueError] leaves
    the run. With a cache directory that cannot be made, the error is not
    even the [ValueError]. *)
Lemma rejected_chat_leaves_session_clone :
  export_member_data UrlLib.urlparse (Scenarios.working_fs true)
    Scenarios.refused_login (ArgStr "   ") "members.csv" "member" 2000
    (Some "me.session") false []
  = (Raise (mkExc ValueError "Could not parse chat identifier."),
     [EvCopySession "me.session" Scenarios.clone_path])
  /\ export_member_data UrlLib.urlparse Scenarios.readonly_fs
       Scenarios.refused_login (ArgStr "   ") "members.csv" "member" 2000
       (Some "me.session") false []
     = (Raise (mkExc OSError "Permission denied"), []).
Proof. split; reflexivity. Qed.

(** The run on the remote side of C7's scenario, in admin mode with a
    session file: it completes, counts no bot and one recent member. *)
Example degraded_run_summary :
  fst (export_member_data UrlLib.urlparse (Scenarios.working_fs true)
         Scenarios.degraded (ArgStr "durov") "members.csv" "admin" 2000
         (Some "me.session") true [])
  = Ok (mkExportSummary 3 0 1 "members.csv" "Reading group").
Proof. reflexivity. Qed.

(** *** Rows *)

Lemma and_then_ok {A B} (o : Outcome A) (k : A -> Outcome B) b :
  (o ≫= k) = Ok b -> exists a, o = Ok a /\ k a = Ok b.
Proof.
  unfold mbind, Outcome_bind, and_then. destruct o as [a|e]; [eauto|discriminate].
Qed.

(** A row that is made: its cells. *)
Lemma make_row_ok admin recent_ids lp lr user row :
  make_row admin recent_ids lp lr user = Ok row ->
  exists username,
    display_name user = Ok username
    /\ ent_class user = UserObject
    /\ row = ([("user_id", py_str (ent_id user));
               ("username", username);
               ("is_bot", bool_text (ent_bot user));
               ("is_recent", bool_text (bool_decide (ent_id user ∈ recent_ids)));
               ("last_post", _format_dt (lp !! ent_id user));
               ("last_reaction", _format_reaction (lr !! ent_id user))]
              ++ (if admin then
                    [("join_date", _format_dt (ent_participant user ≫= p_date));
                     ("status", _status_from_participant (ent_participant user))]
                  else []))%list.
Proof.
  unfold make_row. intros H.
  apply and_then_ok in H as (username & Hname & H).
  apply and_then_ok in H as (user_id & Hid & H).
  apply and_then_ok in H as (bot & Hbot & H).
  exists username. split; [exact Hname|].
  unfold attribute in Hbot.
  destruct (ent_class user); try discriminate Hbot.
  injection Hbot as <-. injection H as <-.
  now rewrite (str_of_int_ok _ _ Hid).
Qed.

Lemma build_rows_from admin recent_ids lp lr participants so_far :
  foldl (fun so_far user =>
           rows ← so_far;
           row ← make_row admin recent_ids lp lr user;
           Ok (rows ++ [row])%list)
    so_far participants
  = (rows ← so_far;
     new ← build_rows admin recent_ids lp lr participants;
     Ok (rows ++ new)%list).
Proof.
  unfold build_rows. revert so_far.
  induction participants as [|u us IH]; intros so_far; cbn [foldl].
  - destruct so_far as [rows|e]; [|reflexivity].
    unfold mbind, Outcome_bind, and_then. now rewrite app_nil_r.
  - rewrite IH, (IH (_ ≫= _)).
    unfold mbind, Outcome_bind, and_then.
    destruct so_far as [rows|e]; [|reflexivity].
    destruct (make_row admin recent_ids lp lr u) as [row|e]; [|reflexivity].
    destruct (foldl _ _ us) as [new|e]; [|reflexivity].
    now rewrite <- app_assoc.
Qed.

(** The rows that are built: one per participant, in order. *)
Lemma build_rows_ok admin recent_ids lp lr participants rows :
  build_rows admin recent_ids lp lr participants = Ok rows ->
  Forall2 (fun user row => make_row admin recent_ids lp lr user = Ok row)
    participants rows.
Proof.
  revert rows. induction participants as [|u us IH]; intros rows.
  - intros [= <-]. constructor.
  - unfold build_rows. cbn [foldl]. rewrite build_rows_from.
    unfold mbind, Outcome_bind, and_then.
    destruct (make_row admin recent_ids lp lr u) as [row|e] eqn:Hrow;
      [|discriminate].
    destruct (build_rows admin recent_ids lp lr us) as [new|e] eqn:Hnew;
      [|discriminate].
    intros [= <-]. constructor; [exact Hrow|]. now apply IH.
Qed.

Lemma build_rows_ids admin recent_ids lp lr participants rows :
  build_rows admin recent_ids lp lr participants = Ok rows ->
  row_get "user_id" <$> rows
  = (fun user => Some (py_str (ent_id user))) <$> participants.
Proof.
  intros H%build_rows_ok. induction H as [|u row us rows Hrow _ IH]; [reflexivity|].
  cbn [fmap list_fmap]. f_equal; [|exact IH].
  apply make_row_ok in Hrow as (username & _ & _ & ->). reflexivity.
Qed.

Lemma append_participants_ok progress users acc t :
  exists t', append_participants progress users acc t = (Ok (acc ++ users)%list, t').
Proof.
  revert acc t. induction users as [|u us IH]; intros acc t; simpl.
  - rewrite app_nil_r. eexists. reflexivity.
  - run_monad.
    destruct (progress && _);
      destruct (IH (acc ++ [u])%list (t ++ [EvProgress
                  ("Participants collected: " +:+ str_nat (length (acc ++ [u])))])%list)
        as [t1 E1];
      destruct (IH (acc ++ [u])%list t) as [t2 E2];
      rewrite <- app_assoc in E1, E2; simpl in E1, E2; eauto.
Qed.

(** Unless the list is empty in member mode, the participant list is
    what the enumeration yielded, in its order and with its repetitions. *)
Lemma collect_participants_stream client entity mode history_limit progress
    t participants t' :
  collect_participants client entity mode history_limit progress t
    = (Ok participants, t') ->
  items (iter_participants client entity NoFilter (String.eqb mode "admin")) <> []
  \/ String.eqb mode "member" = false ->
  participants
  = items (iter_participants client entity NoFilter (String.eqb mode "admin")).
Proof.
  unfold collect_participants. intros H Hcase.
  apply bind_ok in H as (ps & t1 & H1 & H).
  destruct (append_participants_ok progress
              (items (iter_participants client entity NoFilter (String.eqb mode "admin")))
              [] t) as [t1' E].
  rewrite E in H1. injection H1 as <- <-. simpl in *.
  apply bind_ok in H as ([] & t2 & _ & H).
  destruct (bool_decide _ && String.eqb mode "member") eqn:Hb.
  - apply andb_prop in Hb as [Hnil Hm]. apply bool_decide_eq_true in Hnil.
    destruct Hcase as [Hne|Hm']; [contradiction|congruence].
  - now injection H as <- _.
Qed.

Section Rows.
Variable urlparse : string -> option ParseResult.
Variables (fs : FileSystem) (client : Client) (chat_username : ChatArg).
Variables (output_path mode : string) (history_limit : Z).
Variables (session_path : option string) (progress : bool).

(** C4, as amended. A run that completes has written one row per
    entry of its participant list, in the order of the list and with
    the user id of the entry; the summary counts the same list. The
    user ids of the rows are pairwise distinct exactly when no user
    occurs twice in the list, and the list is the enumerated stream
    as it came whenever that stream is not empty (or the mode is not
    the member mode). *)
Theorem one_row_per_listed_participant (t t' : list Event)
    (summary : ExportSummary) :
  export_member_data urlparse fs client chat_username output_path mode
    history_limit session_path progress t = (Ok summary, t') ->
  exists entity participants t2 t3 fieldnames rows before after,
    collect_participants client entity mode history_limit progress t2
      = (Ok participants, t3)
    /\ t' = (before ++ EvWriteCsv output_path fieldnames rows :: after)%list
    /\ total_members summary = length participants
    /\ length rows = length participants
    /\ row_get "user_id" <$> rows
       = (fun user => Some (py_str (ent_id user))) <$> participants
    /\ (NoDup (row_get "user_id" <$> rows) <-> NoDup (ent_id <$> participants))
    /\ (items (iter_participants client entity NoFilter (String.eqb mode "admin")) <> []
        \/ String.eqb mode "member" = false ->
        participants
        = items (iter_participants client entity NoFilter (String.eqb mode "admin"))).
Proof.
  unfold export_member_data.
  destruct (negb _); [discriminate|]. intros H.
  apply bind_ok in H as ([tmp sid] & t1 & _ & H).
  apply bind_ok in H as ([nc|] & t1' & _ & H); [|discriminate].
  apply bind_ok in H as ([] & ta & _ & H).
  apply bind_ok in H as ([] & tb & _ & H).
  apply try_finally_ok in H as (tc & H & Hfin).
  unfold export_body in H.
  apply bind_ok in H as (entity & td & _ & H).
  apply bind_ok in H as ([] & te & _ & H).
  apply bind_ok in H as ([] & tf & _ & H).
  apply bind_ok in H as ([bots recent_ids] & tg & _ & H).
  apply bind_ok in H as (participants & th & Hps & H).
  apply bind_ok in H as ([] & ti & _ & H).
  apply bind_ok in H as ([lp lr] & tj & _ & H).
  apply bind_ok in H as (rows & tj' & Hrows & H).
  apply bind_ok in H as ([] & tk & Hw & H).
  apply bind_ok in H as ([] & tl & Hev & H).
  apply bind_ok in H as ([] & tm & Hrep & H).
  injection H as <- <-. injection Hrows as Hrows _.
  exists entity, participants, tg, th.
  eexists _, rows.
  assert (tl = tk ++ [EvWriteCsv output_path
             (base_fieldnames ++
                (if String.eqb mode "admin" then ["join_date"; "status"] else []))
             rows])%list
    as Htl by (revert Hev; run_monad; now intros [= <-]).
  assert (exists rest, t' = tl ++ rest)%list as [rest ->].
  { destruct (report_trace progress ("Saved CSV: " +:+ output_path) tl) as (x & _ & _).
    clear -Hrep Hfin. revert Hrep Hfin.
    unfold export_cleanup, report. run_monad.
    destruct progress; intros [= <-];
      (destruct tmp as [p|];
       [destruct (unlink fs p) as [[]|e];
        [|destruct (caught_by e [OSError])]|]);
      intros [= <-]; rewrite <- ?app_assoc; eauto. }
  exists tk, rest. subst tl.
  split; [exact Hps|]. split; [now rewrite <- app_assoc|].
  split; [reflexivity|].
  split; [symmetry; exact (Forall2_length _ _ _ (build_rows_ok _ _ _ _ _ _ Hrows))|].
  split; [exact (build_rows_ids _ _ _ _ _ _ Hrows)|].
  split.
  - rewrite (build_rows_ids _ _ _ _ _ _ Hrows).
    rewrite (list_fmap_compose ent_id (fun z => Some (py_str z))).
    assert (Inj (=) (=) (fun z : Z => Some (py_str z))) as Hinj
      by (intros z1 z2 [= Hz]; now apply py_str_inj).
    apply (NoDup_fmap (fun z => Some (py_str z))).
  - intros Hc. exact (collect_participants_stream _ _ _ _ _ _ _ _ Hps Hc).
Qed.
End Rows.

(** Three participants, three rows. *)
Lemma one_row_per_listed_participant_witness :
  exists summary t' rows,
    export_member_data UrlLib.urlparse (Scenarios.working_fs true)
      Scenarios.degraded (ArgStr "durov") "members.csv" "admin" 2000
      (Some "me.session") false [] = (Ok summary, t')
    /\ EvWriteCsv "members.csv"
         (base_fieldnames ++ ["join_date"; "status"])%list rows ∈ t'
    /\ row_get "user_id" <$> rows = [Some "5"; Some "7"; Some "8"]
    /\ total_members summary = 3%nat.
Proof.
  destruct (export_member_data UrlLib.urlparse (Scenarios.working_fs true)
              Scenarios.degraded (ArgStr "durov") "members.csv" "admin" 2000
              (Some "me.session") false []) as [[summary|e] t'] eqn:E;
    [|vm_compute in E; discriminate E].
  destruct (one_row_per_listed_participant UrlLib.urlparse
              (Scenarios.working_fs true) Scenarios.degraded (ArgStr "durov")
              "members.csv" "admin" 2000 (Some "me.session") false [] t' summary E)
    as (entity & ps & t2 & t3 & fields & rows & before & after & _ & Ht & _).
  vm_compute in E. injection E as <- <-.
  eexists _, _, _. split; [reflexivity|].
  split.
  - apply list_elem_of_In. do 4 right. left. reflexivity.
  - split; reflexivity.
Defined.

(** C4, the claim as stated fails on an enumeration that yields user 7
    twice: the run writes two rows with the user id 7. *)
Lemma repeated_user_gives_two_rows :
  exists summary rows,
    export_member_data UrlLib.urlparse (Scenarios.working_fs false)
      Scenarios.repeating (ArgStr "durov") "members.csv" "member" 2000 None false []
    = (Ok summary,
       [EvNewClient "member_export"; EvConnect;
        EvGetEntity (ByTarget (TStr "durov"));
        EvWriteCsv "members.csv" base_fieldnames rows; EvDisconnect])
    /\ row_get "user_id" <$> rows = [Some "7"; Some "7"]
    /\ ~ NoDup (row_get "user_id" <$> rows).
Proof.
  eexists _, _. split; [vm_compute; reflexivity|]. split; [reflexivity|].
  intros H. apply NoDup_cons in H as [H _]. apply H. left.
Qed.

End RunFacts.


(** * Further properties *)

(** ** More on the identifier normalizer *)

Module NormalizerMore.
Import Py PyStr ChatUtils StringFacts NormalizerFacts.

Lemma from_parts_some (r : string) (parts : list string) :
  parts <> [] -> is_Some (from_parts r parts).
Proof.
  destruct parts as [|first rest]; [congruence|]. intros _. unfold from_parts.
  repeat match goal with
         | |- context [if ?b then _ else _] => destruct b
         end; eauto.
Qed.

Lemma from_parts_shape (r : string) (parts : list string) (d : NormalizedChat) :
  from_parts r parts = Some d ->
  (is_Some (invite_hash d) -> target d = TStr r)
  /\ (forall z, target d = TInt z -> invite_hash d = None).
Proof.
  unfold from_parts. destruct parts as [|first rest]; [discriminate|].
  repeat match goal with
         | |- context [if ?b then _ else _] => destruct b
         end; intros [= <-]; cbn; split; try done; by intros [? [=]].
Qed.

Section AnyParser.
Variable urlparse : string -> option ParseResult.

(** X1. A string input is refused exactly when nothing is left of it once it
    is trimmed. *)
Theorem normalize_none_iff_blank (s : string) :
  normalize_chat_identifier urlparse (ArgStr s) = Ok None <-> strip s = "".
Proof.
  cbn [normalize_chat_identifier]. unfold normalize_str.
  destruct (strip s) as [|c r] eqn:E; cbn [nonempty negb]; [done|].
  split; [|discriminate].
  destruct (channel_id_pattern _); [discriminate|].
  destruct (from_url urlparse _); [discriminate|].
  destruct (startswith _ _); discriminate.
Qed.

(** X2. What every descriptor made from a string looks like: [raw] is the
    trimmed input and is not empty; a descriptor with an invite token has
    its raw text as target; a descriptor with an integer target has no
    invite token. *)
Theorem normalized_descriptor_shape (s : string) (d : NormalizedChat) :
  normalize_chat_identifier urlparse (ArgStr s) = Ok (Some d) ->
  raw d = strip s
  /\ nonempty (raw d) = true
  /\ (is_Some (invite_hash d) -> target d = TStr (raw d))
  /\ (forall z, target d = TInt z -> invite_hash d = None).
Proof.
  intros H. cbn [normalize_chat_identifier] in H. injection H as H.
  pose proof (normalize_str_raw urlparse s d H) as Hraw.
  split; [exact Hraw|]. rewrite Hraw.
  unfold normalize_str in H.
  destruct (nonempty (strip s)) eqn:Hne; [|discriminate]. split; [reflexivity|].
  cbn [negb] in H.
  destruct (channel_id_pattern (strip s)).
  { injection H as <-. cbn. split; [by intros [? [=]]|done]. }
  destruct (from_url urlparse (strip s)) as [r|] eqn:Eu.
  - injection H as ->. unfold from_url in Eu.
    destruct (_ || _); [|discriminate].
    destruct (urlparse (strip s)) as [parsed|]; [|discriminate].
    destruct (in_strings _ _); [|discriminate].
    now apply from_parts_shape in Eu.
  - destruct (startswith _ _); injection H as <-; cbn;
      (split; [try done; by intros [? [=]]|done]).
Qed.

(** X3. Inputs with the same trimmed text have the same descriptor: blanks
    typed around a reference change nothing. *)
Theorem normalize_ignores_outer_blanks (s1 s2 : string) :
  strip s1 = strip s2 ->
  normalize_chat_identifier urlparse (ArgStr s1)
  = normalize_chat_identifier urlparse (ArgStr s2).
Proof.
  intros H. cbn [normalize_chat_identifier].
  rewrite <- (normalize_str_strip urlparse s1), <- (normalize_str_strip urlparse s2).
  now rewrite H.
Qed.

Lemma plus_head_plain (r : string) :
  startswith r "+" = true ->
  nonempty r = true /\ channel_id_pattern r = false /\ from_url urlparse r = None.
Proof.
  destruct r as [|c r]; [discriminate|]. rewrite startswith_cons.
  destruct (Ascii.eqb_spec "+" c) as [<-|]; [|discriminate]. intros _.
  split; [reflexivity|]. split.
  - unfold channel_id_pattern, pattern_body. cbn [Ascii.eqb Bool.eqb].
    destruct r as [|c2 [|c3 ds]]; reflexivity.
  - unfold from_url.
    change (lower (String "+" r)) with (String "+" (lower r)).
    now rewrite !startswith_cons.
Qed.

(** X4. The invite shorthand: a string that starts with ["+"] once trimmed
    carries as invite token what follows its leading ["+"] signs, and
    itself as target. *)
Theorem plus_shorthand_is_invite (s : string) :
  startswith (strip s) "+" = true ->
  normalize_chat_identifier urlparse (ArgStr s)
  = Ok (Some (mkNormalizedChat (strip s) (TStr (strip s))
                (Some (lstrip_char "+" (strip s))))).
Proof.
  intros H. destruct (plus_head_plain _ H) as (Hne & Hp & Hu).
  cbn [normalize_chat_identifier]. rewrite <- normalize_str_strip.
  rewrite normalize_plain, ?H; auto using strip_idem.
Qed.

Section Links.
Variables (s : string) (parsed : ParseResult).
Hypothesis Hscheme :
  startswith (lower (strip s)) "http://"
    || startswith (lower (strip s)) "https://" = true.
Hypothesis Hparse : urlparse (strip s) = Some parsed.
Hypothesis Hdomain : in_strings (lower (netloc parsed)) domain_aliases = true.

Lemma link_parts (parts : list string) :
  parts <> [] ->
  split "/" (strip_char "/" (path parsed)) = parts ->
  nonempty (strip_char "/" (path parsed)) = true ->
  normalize_chat_identifier urlparse (ArgStr s) = Ok (from_parts (strip s) parts).
Proof.
  intros Hparts Hsplit Hpath.
  destruct (scheme_not_channel_id _ Hscheme) as [Hne Hp].
  cbn [normalize_chat_identifier]. unfold normalize_str.
  rewrite Hne, Hp. cbn [negb].
  unfold from_url. rewrite Hscheme, Hparse, Hdomain, Hpath, Hsplit.
  destruct (from_parts_some (strip s) parts Hparts) as [d ->]. reflexivity.
Qed.

(** X5. A [joinchat] or [addstickers] link: the segment after the first one
    is the invite token, as it stands, and the target is the link. *)
Theorem joinchat_link_is_invite (first token : string) (rest : list string) :
  split "/" (strip_char "/" (path parsed)) = first :: token :: rest ->
  first = "joinchat" \/ first = "addstickers" ->
  normalize_chat_identifier urlparse (ArgStr s)
  = Ok (Some (mkNormalizedChat (strip s) (TStr (strip s)) (Some token))).
Proof.
  intros Hsplit Hfirst.
  rewrite (link_parts (first :: token :: rest)); [|done|exact Hsplit|].
  - destruct Hfirst as [-> | ->]; reflexivity.
  - destruct (strip_char "/" (path parsed)); [discriminate Hsplit|reflexivity].
Qed.

(** X6. Any other link, one whose first segment is none of ["c"],
    ["joinchat"], ["addstickers"]: a first segment that starts with ["+"]
    gives an invite token, every other first segment is the target. *)
Theorem handle_link_target (first : string) (rest : list string) :
  split "/" (strip_char "/" (path parsed)) = first :: rest ->
  nonempty first = true ->
  in_strings first ["c"; "joinchat"; "addstickers"] = false ->
  normalize_chat_identifier urlparse (ArgStr s)
  = Ok (Some (if startswith first "+"
              then mkNormalizedChat (strip s) (TStr (strip s))
                     (Some (lstrip_char "+" first))
              else mkNormalizedChat (strip s) (TStr first) None)).
Proof.
  intros Hsplit Hne Hfirst.
  rewrite (link_parts (first :: rest)); [|done|exact Hsplit|].
  - unfold from_parts. unfold in_strings in *. cbn [existsb] in *.
    apply orb_false_elim in Hfirst as [Hc Hfirst]. rewrite Hc, Hfirst.
    cbn [andb]. now destruct (startswith first "+").
  - destruct (strip_char "/" (path parsed)); [|reflexivity].
    injection Hsplit as <- _. discriminate Hne.
Qed.
End Links.

Lemma pattern_body_decimal (b : string) :
  pattern_body b = true ->
  exists u, NilZero.int_of_string b = Some (Decimal.Pos (Decimal.D1 (Decimal.D0 (Decimal.D0 u))))
            /\ NilZero.int_of_string (String "-" b)
               = Some (Decimal.Neg (Decimal.D1 (Decimal.D0 (Decimal.D0 u)))).
Proof.
  destruct b as [|c1 [|c2 [|c3 ds]]]; try discriminate. cbn [pattern_body].
  intros H. repeat (apply andb_prop in H as [H ?]).
  apply Ascii.eqb_eq in H as ->.
  repeat match goal with E : Ascii.eqb _ _ = true |- _ =>
    apply Ascii.eqb_eq in E as -> end.
  destruct (digits_parse ds) as [u Hu]; [assumption|].
  exists u. unfold NilZero.int_of_string, NilZero.uint_of_string.
  cbn [Ascii.eqb Bool.eqb NilEmpty.uint_of_string]. rewrite Hu. split; reflexivity.
Qed.

(** X7. A channel id reads the same as text and as number. For an
    ASCII string written like a channel id, with no more digits than
    [int] reads: its target is an integer, that integer prints back as
    the string, and the string and the integer have the same
    descriptor. *)
Theorem channel_id_text_round_trip (s : string) :
  channel_id_pattern (strip s) = true ->
  within_digit_limit (strip s) = true ->
  exists z,
    normalize_chat_identifier urlparse (ArgStr s)
      = Ok (Some (mkNormalizedChat (strip s) (TInt z) None))
    /\ str_of_int z = Ok (strip s)
    /\ normalize_chat_identifier urlparse (ArgInt z)
       = normalize_chat_identifier urlparse (ArgStr s).
Proof.
  intros Hp Hw.
  destruct (normalize_channel_id urlparse _ Hp) as (z & Hz & Hn).
  rewrite normalize_str_strip, Hw in Hn.
  assert (py_str z = strip s) as Hback.
  { unfold decimal_value in Hz. unfold channel_id_pattern in Hp.
    destruct (NilZero.int_of_string (strip s)) as [d|] eqn:Hd; [|discriminate].
    injection Hz as <-. unfold py_str. rewrite DecimalZ.to_of.
    rewrite <- (NilZero.sis _ _ Hd). f_equal.
    destruct (strip s) as [|c r]; [discriminate|].
    destruct (Ascii.eqb_spec c "-") as [->|Hc].
    - destruct (pattern_body_decimal r Hp) as (u & _ & Hneg).
      rewrite Hneg in Hd. now injection Hd as <-.
    - destruct (pattern_body_decimal _ Hp) as (u & Hpos & _).
      rewrite Hpos in Hd. now injection Hd as <-. }
  assert (str_of_int z = Ok (strip s)) as Hstr.
  { unfold str_of_int. now rewrite Hback, Hw. }
  exists z. cbn [normalize_chat_identifier]. rewrite Hstr, Hn. auto.
Qed.
End AnyParser.

Lemma channel_id_text_round_trip_witness :
  normalize_chat_identifier UrlLib.urlparse (ArgInt (-1001234567890))
  = normalize_chat_identifier UrlLib.urlparse (ArgStr " -1001234567890").
Proof.
  destruct (channel_id_text_round_trip UrlLib.urlparse " -1001234567890"
              eq_refl eq_refl) as (z & Hn & _ & <-).
  vm_compute in Hn. now injection Hn as <-.
Defined.

(** A link to a public handle, and an invite link of the ["+"] form. *)
Lemma handle_link_target_witness :
  normalize_chat_identifier UrlLib.urlparse (ArgStr "https://telegram.me/durov")
  = Ok (Some (mkNormalizedChat "https://telegram.me/durov" (TStr "durov") None))
  /\ normalize_chat_identifier UrlLib.urlparse (ArgStr "https://t.me/+AbCdEf12")
     = Ok (Some (mkNormalizedChat "https://t.me/+AbCdEf12"
                   (TStr "https://t.me/+AbCdEf12") (Some "AbCdEf12"))).
Proof.
  split.
  - apply (handle_link_target UrlLib.urlparse "https://telegram.me/durov"
             (mkParseResult "telegram.me" "/durov") eq_refl eq_refl eq_refl
             "durov" [] eq_refl eq_refl eq_refl).
  - apply (handle_link_target UrlLib.urlparse "https://t.me/+AbCdEf12"
             (mkParseResult "t.me" "/+AbCdEf12") eq_refl eq_refl eq_refl
             "+AbCdEf12" [] eq_refl eq_refl eq_refl).
Defined.

Lemma joinchat_link_is_invite_witness :
  normalize_chat_identifier UrlLib.urlparse (ArgStr "https://t.me/joinchat/AbCdEf12")
  = Ok (Some (mkNormalizedChat "https://t.me/joinchat/AbCdEf12"
                (TStr "https://t.me/joinchat/AbCdEf12") (Some "AbCdEf12"))).
Proof.
  apply (joinchat_link_is_invite UrlLib.urlparse "https://t.me/joinchat/AbCdEf12"
           (mkParseResult "t.me" "/joinchat/AbCdEf12") eq_refl eq_refl eq_refl
           "joinchat" "AbCdEf12" [] eq_refl (or_introl eq_refl)).
Defined.

Lemma plus_shorthand_is_invite_witness :
  normalize_chat_identifier UrlLib.urlparse (ArgStr " +AbCdEf12")
  = Ok (Some (mkNormalizedChat "+AbCdEf12" (TStr "+AbCdEf12") (Some "AbCdEf12"))).
Proof. apply (plus_shorthand_is_invite UrlLib.urlparse " +AbCdEf12" eq_refl). Defined.

Lemma normalized_descriptor_shape_witness :
  raw (mkNormalizedChat "durov" (TStr "durov") None) = strip "  durov ".
Proof.
  apply (normalized_descriptor_shape UrlLib.urlparse "  durov "
           (mkNormalizedChat "durov" (TStr "durov") None) eq_refl).
Defined.

Lemma normalize_ignores_outer_blanks_witness :
  normalize_chat_identifier UrlLib.urlparse (ArgStr " @durov")
  = normalize_chat_identifier UrlLib.urlparse (ArgStr "@durov  ").
Proof.
  apply (normalize_ignores_outer_blanks UrlLib.urlparse " @durov" "@durov  " eq_refl).
Defined.

End NormalizerMore.


(** ** More on the activity scan *)

Module ScanMore.
Import Py Remote MemberExport ScanSpec MoreSpec ResolverFacts ScanFacts.
Local Open Scope nat_scope.

(** X13. No reaction list is ever fetched. The request is built with the
    keywords [offset_peer], [offset_id] and [offset_date], which its
    constructor does not have: every call ends with a [TypeError] before
    anything is sent, whatever the remote side would answer, and the
    [except RPCError] clause does not catch it. *)
Theorem reaction_fetch_always_fails (client : Client) (entity : Entity)
    (message : Message) (t : list Event) :
  _fetch_reactions_for_message client entity message t
  = (Raise unexpected_keyword, t)
  /\ caught_by unexpected_keyword [RPCError] = false.
Proof. split; reflexivity. Qed.

(** X12. What the correlator returns when it returns: a post map whose
    keys are participants, and an empty reaction map. *)
Theorem only_participants_recorded (client : Client) (entity : Entity)
    (pids : gset Z) (progress : bool) (history_limit : Z) (t t' : list Event)
    (lp : gmap Z Datetime) (lr : gmap Z ReactionEntry) :
  _collect_activity_maps client entity pids history_limit progress t
    = (Ok (lp, lr), t') ->
  dom lp ⊆ pids /\ lr = ∅.
Proof.
  unfold _collect_activity_maps. unfold mbind at 1, M_bind at 1, bind at 1.
  destruct (activity_scan client entity pids history_limit progress t)
    as [[st|e] t1] eqn:E; [|discriminate].
  intros H.
  assert (lp = last_post st /\ lr = last_reaction st) as [-> ->].
  { revert H. run_monad. destruct progress; now intros [= <- <- _]. }
  unfold activity_scan in E.
  destruct (scan_loop_prefix _ _ _ _ _ _ _ _ _ _ E) as (n & _ & _ & Hpre & _).
  split.
  - apply (scan_prefix_keys _ _ _ _ _ _ _ _ _ Hpre). split; set_solver.
  - now destruct (scan_prefix_reactions _ _ _ _ _ _ _ _ _ Hpre) as [-> _].
Qed.

Lemma only_participants_recorded_witness :
  exists lp lr t',
    _collect_activity_maps Scenarios.two_posts Scenarios.some_chat
      {[7%Z]} 2000 false [] = (Ok (lp, lr), t')
    /\ dom lp ⊆ ({[7%Z]} : gset Z) /\ lr = ∅.
Proof.
  destruct (_collect_activity_maps Scenarios.two_posts Scenarios.some_chat
              {[7%Z]} 2000 false []) as [[[lp lr]|e] t'] eqn:E;
    [|vm_compute in E; discriminate E].
  exists lp, lr, t'. split; [reflexivity|].
  exact (only_participants_recorded Scenarios.two_posts Scenarios.some_chat
           {[7%Z]} false 2000%Z [] t' lp lr E).
Defined.

Lemma collect_activity_maps_returns_witness :
  exists lp t',
    _collect_activity_maps Scenarios.two_posts Scenarios.some_chat
      {[7%Z]} 2000 true [] = (Ok (lp, ∅), t').
Proof.
  apply (collect_activity_maps_returns Scenarios.two_posts Scenarios.some_chat
           {[7%Z]} true 2000%Z []); [reflexivity|].
  repeat constructor.
Defined.

End ScanMore.


(** ** More on the export run *)

Module RunMore.
Import PyStr Py ChatUtils Remote Resolver MemberExport MoreSpec.
Import StringFacts ResolverFacts RunFacts.

(** Both sides of an equation of traces, with the appends to the right. *)
Ltac flat :=
  repeat first [rewrite <- app_assoc | rewrite <- app_comm_cons
               | rewrite app_nil_r | rewrite app_nil_l].

(** *** What a stage may add to the trace *)

Lemma adds_only_ret {A} P (a : A) : adds_only P (mret a).
Proof. intros t r t' [= <- <-]. exists []. now rewrite app_nil_r. Qed.

Lemma adds_only_raise {A} P e : adds_only P (@raise A e).
Proof. intros t r t' [= <- <-]. exists []. now rewrite app_nil_r. Qed.

Lemma adds_only_lift {A} P (o : Outcome A) : adds_only P (lift o).
Proof. intros t r t' [= <- <-]. exists []. now rewrite app_nil_r. Qed.

Lemma adds_only_emit (P : Event -> Prop) ev : P ev -> adds_only P (emit ev).
Proof. intros H t r t' [= <- <-]. exists [ev]. split; [reflexivity|]. now constructor. Qed.

Lemma adds_only_report progress text : adds_only is_query (report progress text).
Proof.
  unfold report. destruct progress; [now apply adds_only_emit|apply adds_only_ret].
Qed.

Lemma adds_only_bind {A B} P (m : M A) (k : A -> M B) :
  adds_only P m -> (forall a, adds_only P (k a)) -> adds_only P (m ≫= k).
Proof.
  intros Hm Hk t r t'. unfold mbind, M_bind, bind.
  destruct (m t) as [[a|e] t1] eqn:E.
  - intros Hka. destruct (Hm _ _ _ E) as (n1 & -> & H1).
    destruct (Hk a _ _ _ Hka) as (n2 & -> & H2).
    exists (n1 ++ n2)%list. split; [now rewrite app_assoc|]. now apply Forall_app.
  - intros [= <- <-]. exact (Hm _ _ _ E).
Qed.

Lemma adds_only_try_except {A} P (m : M A) (h : Exc -> M A) :
  adds_only P m -> (forall e, adds_only P (h e)) -> adds_only P (try_except m h).
Proof.
  intros Hm Hh t r t'. unfold try_except.
  destruct (m t) as [[a|e] t1] eqn:E.
  - intros [= <- <-]. exact (Hm _ _ _ E).
  - intros Hhe. destruct (Hm _ _ _ E) as (n1 & -> & H1).
    destruct (Hh e _ _ _ Hhe) as (n2 & -> & H2).
    exists (n1 ++ n2)%list. split; [now rewrite app_assoc|]. now apply Forall_app.
Qed.

Ltac queries :=
  repeat first
    [ apply adds_only_ret | apply adds_only_raise | apply adds_only_lift
    | apply adds_only_report | apply adds_only_emit; exact I
    | apply adds_only_bind; [|intros ?]
    | apply adds_only_try_except; [|intros ?]
    | match goal with
      | |- adds_only _ (match ?x with _ => _ end) => destruct x
      | |- adds_only _ (if ?b then _ else _) => destruct b
      | |- adds_only _ (let '(_, _) := ?p in _) => destruct p
      end ].

Lemma resolve_queries client chat :
  adds_only is_query (resolve_chat_entity client chat).
Proof. unfold resolve_chat_entity, call_check_invite, call_get_entity. queries. Qed.

Lemma bots_and_recent_queries client entity progress :
  adds_only is_query (_collect_bots_and_recent client entity progress).
Proof. unfold _collect_bots_and_recent. queries. Qed.

Lemma append_participants_queries progress users acc :
  adds_only is_query (append_participants progress users acc).
Proof.
  revert acc. induction users as [|u us IH]; intros acc; cbn [append_participants].
  - queries.
  - apply adds_only_bind; [queries|intros _; apply IH].
Qed.

Lemma fallback_queries client limit messages pending participants seen :
  adds_only is_query
    (fallback_loop client limit messages pending participants seen).
Proof.
  revert participants seen.
  induction messages as [|m rest IH]; intros ps seen; cbn [fallback_loop].
  - queries.
  - destruct (msg_sender_id m) as [sid|]; [|apply IH].
    destruct (_ && _); [|apply IH].
    unfold call_get_entity.
    apply adds_only_bind; [queries|intros user].
    destruct (_ <=? _)%Z; [queries|apply IH].
Qed.

Lemma collect_participants_queries client entity mode limit progress :
  adds_only is_query (collect_participants client entity mode limit progress).
Proof.
  unfold collect_participants.
  apply adds_only_bind; [apply append_participants_queries|intros ps].
  apply adds_only_bind; [queries|intros _].
  destruct (_ && _); [|queries].
  apply adds_only_bind; [queries|intros _]. apply fallback_queries.
Qed.

Lemma scan_loop_queries client entity pids progress messages pending st :
  adds_only is_query (scan_loop client entity pids progress messages pending st).
Proof.
  revert st. induction messages as [|m rest IH]; intros st; cbn [scan_loop].
  - queries.
  - apply adds_only_bind.
    + unfold scan_message, _fetch_reactions_for_message. queries.
    + intros st'. destruct (all_found pids st'); [queries|apply IH].
Qed.

Lemma activity_maps_queries client entity pids limit progress :
  adds_only is_query (_collect_activity_maps client entity pids limit progress).
Proof.
  unfold _collect_activity_maps, activity_scan.
  apply adds_only_bind; [apply scan_loop_queries|intros st]. queries.
Qed.

(** *** The scan on the trace *)

Lemma scan_message_reports client entity pids progress message st :
  adds_only (wanted_report progress)
    (scan_message client entity pids progress message st).
Proof.
  intros t r t'. destruct (has_reaction_results message) eqn:H.
  - rewrite (ScanFacts.scan_message_summary client entity pids progress _ _ _ H).
    intros [= <- <-]. exists []. now rewrite app_nil_r.
  - rewrite (ScanFacts.scan_message_plain client entity pids progress _ _ _ H).
    destruct progress; cbn [andb].
    + destruct (_ =? _)%nat; intros [= <- <-].
      * eexists [_]. split; [reflexivity|]. now repeat constructor.
      * exists []. now rewrite app_nil_r.
    + intros [= <- <-]. exists []. now rewrite app_nil_r.
Qed.

Lemma scan_loop_reports client entity pids progress messages pending st :
  adds_only (wanted_report progress)
    (scan_loop client entity pids progress messages pending st).
Proof.
  revert st. induction messages as [|m rest IH]; intros st; cbn [scan_loop].
  - destruct pending; [apply adds_only_raise|apply adds_only_ret].
  - apply adds_only_bind; [apply scan_message_reports|intros st'].
    destruct (all_found pids st'); [apply adds_only_ret|apply IH].
Qed.

(** X11. The activity scan sends nothing to the remote side beyond the
    enumeration of the messages: however it ends, the only events it
    adds to the trace are progress reports, and none without a callback.
    No request for a reaction list is among them. *)
Theorem scan_only_reports (client : Client) (entity : Entity) (pids : gset Z)
    (history_limit : Z) (progress : bool) (t t' : list Event)
    (r : Outcome (gmap Z Datetime * gmap Z ReactionEntry)) :
  _collect_activity_maps client entity pids history_limit progress t = (r, t') ->
  exists new,
    t' = (t ++ new)%list
    /\ Forall is_report new
    /\ Forall (fun ev => forall message_id, ev <> EvGetReactions message_id) new
    /\ (progress = false -> new = []).
Proof.
  assert (adds_only (wanted_report progress)
            (_collect_activity_maps client entity pids history_limit progress))
    as Hreports.
  { unfold _collect_activity_maps, activity_scan.
    apply adds_only_bind; [apply scan_loop_reports|intros st].
    apply adds_only_bind; [|intros _; apply adds_only_ret].
    unfold report. destruct progress; [|apply adds_only_ret].
    now apply adds_only_emit. }
  intros H. destruct (Hreports t r t' H) as (new & -> & Hnew).
  exists new. split; [reflexivity|]. split; [|split].
  - eapply Forall_impl; [exact Hnew|]. now intros ev [Hev _].
  - eapply Forall_impl; [exact Hnew|].
    intros ev [Hev _] message_id ->. exact Hev.
  - intros Hoff. destruct Hnew as [|ev rest [_ Hon] _]; [reflexivity|congruence].
Qed.

(** *** The enumerations *)

(** X15. An error outside the caught classes ends the function: from the bots
    enumeration before anything is reported, from the recent one after the
    bots have been dealt with. *)
Theorem filtered_enumeration_error_propagates (client : Client) (entity : Entity)
    (progress : bool) (t : list Event) (e : Exc) :
  let bots := iter_participants client entity ChannelParticipantsBots true in
  let recent := iter_participants client entity ChannelParticipantsRecent false in
  caught_by e stream_errors = false ->
  (failure bots = Some e ->
   _collect_bots_and_recent client entity progress t = (Raise e, t))
  /\ (Spec.degrades bots -> failure recent = Some e ->
      exists t', _collect_bots_and_recent client entity progress t = (Raise e, t')).
Proof.
  intros bots recent Hc. unfold _collect_bots_and_recent. fold bots recent. split.
  - intros ->. rewrite Hc. reflexivity.
  - unfold Spec.degrades. intros Hb ->. rewrite Hc.
    destruct (failure bots) as [eb|]; rewrite ?Hb; run_monad;
      destruct progress; eauto.
Qed.

(** X16. The main enumeration forgives nothing: whatever error ends its
    stream, of the caught classes or not, ends the collection. *)
Theorem main_enumeration_error_propagates (client : Client) (entity : Entity)
    (mode : string) (history_limit : Z) (progress : bool) (t : list Event)
    (e : Exc) :
  failure (iter_participants client entity NoFilter (String.eqb mode "admin")) = Some e ->
  exists t', collect_participants client entity mode history_limit progress t
             = (Raise e, t').
Proof.
  intros Hf. unfold collect_participants.
  destruct (append_participants_ok progress
              (items (iter_participants client entity NoFilter (String.eqb mode "admin")))
              [] t) as [t1 E].
  unfold mbind at 1, M_bind at 1, bind at 1. rewrite E, Hf. run_monad. eauto.
Qed.





(** *** Rows *)

Lemma append_empty (s : string) : s +:+ "" = s.
Proof.
  induction s as [|c s IH]; [reflexivity|].
  change (String c s +:+ "") with (String c (s +:+ "")). now rewrite IH.
Qed.

Lemma join_two (first last : string) :
  join_nonempty [first; last]
  = if nonempty first && nonempty last then first +:+ " " +:+ last
    else first +:+ last.
Proof.
  destruct first as [|c f], last as [|d l]; try reflexivity.
  symmetry. apply append_empty.
Qed.

(** X18. The username cell. For a User it is the username when that is
    set and not empty; otherwise the first and the last name, those that
    are not empty, joined by a blank and stripped; otherwise
    ["(no username)"]: it is never empty. A Chat has no [username]
    attribute and a Channel no [first_name]: for a Chat, and for a
    Channel without a username, reading the name raises AttributeError. *)
Theorem display_name_cases (user : Entity) :
  match ent_class user with
  | UserObject =>
      exists cell,
        display_name user = Ok cell
        /\ nonempty cell = true
        /\ (truthy (ent_username user) = true -> Some cell = ent_username user)
        /\ (truthy (ent_username user) = false ->
            let first := or_empty (ent_first_name user) in
            let last := or_empty (ent_last_name user) in
            let joined :=
              strip (if nonempty first && nonempty last
                     then first +:+ " " +:+ last else first +:+ last) in
            cell = if nonempty joined then joined else "(no username)")
  | ChannelObject =>
      display_name user
      = if truthy (ent_username user) then Ok (or_empty (ent_username user))
        else Raise (mkExc AttributeError
                      "'Channel' object has no attribute 'first_name'")
  | ChatObject =>
      display_name user
      = Raise (mkExc AttributeError "'Chat' object has no attribute 'username'")
  end.
Proof.
  unfold display_name, attribute.
  destruct (ent_class user) eqn:Hc.
  - change (has_attribute UserObject _) with true. cbv iota.
    unfold mbind, Outcome_bind, and_then.
    destruct (truthy (ent_username user)) eqn:Hu.
    + exists (or_empty (ent_username user)).
      destruct (ent_username user) as [name|]; [|discriminate].
      repeat split; [exact Hu|discriminate].
    + cbv zeta. rewrite join_two. eexists. split; [reflexivity|]. split.
      * destruct (nonempty (strip _)) eqn:Hj; [exact Hj|reflexivity].
      * split; [discriminate|]. intros _. reflexivity.
  - reflexivity.
  - change (has_attribute ChannelObject "username") with true.
    unfold mbind, Outcome_bind, and_then.
    destruct (truthy (ent_username user)); reflexivity.
Qed.

Lemma make_row_fields mode recent_ids lp lr (user : Entity) (row : Row) :
  make_row (String.eqb mode "admin") recent_ids lp lr user = Ok row ->
  row.*1 = fieldnames_of mode.
Proof.
  intros (username & _ & _ & ->)%make_row_ok.
  unfold fieldnames_of. now destruct (String.eqb mode "admin").
Qed.

Lemma build_rows_users admin recent_ids lp lr participants rows :
  build_rows admin recent_ids lp lr participants = Ok rows ->
  Forall (fun user => ent_class user = UserObject) participants.
Proof.
  intros H%build_rows_ok. induction H as [|u row us rows Hrow _ IH]; constructor.
  - now apply make_row_ok in Hrow as (_ & _ & Hc & _).
  - exact IH.
Qed.

Lemma build_rows_fields mode recent_ids lp lr participants rows :
  build_rows (String.eqb mode "admin") recent_ids lp lr participants = Ok rows ->
  Forall (fun row : Row => row.*1 = fieldnames_of mode) rows.
Proof.
  intros H%build_rows_ok. induction H as [|u row us rows Hrow _ IH]; constructor.
  - now apply make_row_fields in Hrow.
  - exact IH.
Qed.

(** X19. When the rows are built, every row has the fields of the
    header, in the header's order: the writer is never handed a key it
    does not know, nor a row with a field missing. There is one row per
    participant, and every participant is a User. *)
Theorem rows_match_header (mode : string) (recent_ids : gset Z)
    (lp : gmap Z Datetime) (lr : gmap Z ReactionEntry)
    (participants : list Entity) (rows : list Row) :
  build_rows (String.eqb mode "admin") recent_ids lp lr participants = Ok rows ->
  Forall (fun row : Row => row.*1 = fieldnames_of mode) rows
  /\ length rows = length participants
  /\ Forall (fun user => ent_class user = UserObject) participants.
Proof.
  intros H. split; [now apply build_rows_fields in H|]. split.
  - apply build_rows_ok in H. symmetry. exact (Forall2_length _ _ _ H).
  - now apply build_rows_users in H.
Qed.

(** X20. The reaction cell is empty only when there is nothing to show: no
    reaction on record, or one with neither an emoji nor a date. *)
Theorem reaction_cell_empty (reaction : option ReactionEntry) :
  _format_reaction reaction = ""
  <-> match reaction with
      | None => True
      | Some (emoji, date) => truthy emoji = false /\ _format_dt date = ""
      end.
Proof.
  unfold _format_reaction. destruct reaction as [[emoji date]|]; [|done].
  cbv zeta. destruct (truthy emoji) eqn:He; cbn [andb].
  - destruct emoji as [[|c e]|]; try discriminate He. cbn [default from_option id].
    destruct (nonempty (_format_dt date)); split; try discriminate;
      intros [[=] _].
  - split; [now intros ->|now intros [_ ->]].
Qed.

(** *** The body of the run *)

Lemma writes_once_bind {A B} path fields Q (m : M A) (k : A -> M B) :
  adds_only is_query m ->
  (forall a, (exists t t1, m t = (Ok a, t1)) -> writes_once path fields Q (k a)) ->
  writes_once path fields Q (m ≫= k).
Proof.
  intros Hm Hk t r t'. unfold mbind, M_bind, bind.
  destruct (m t) as [[a|e] t1] eqn:E.
  - intros Hka. destruct (Hm _ _ _ E) as (n1 & -> & H1).
    destruct (Hk a (ex_intro _ _ (ex_intro _ _ E)) _ _ _ Hka) as (n2 & H2 & Hr).
    exists (n1 ++ n2)%list. split; [now apply Forall_app|].
    destruct r as [b|e].
    + destruct Hr as (rows & tail & -> & Htail & Hrows).
      exists rows, tail. now rewrite <- !app_assoc.
    + rewrite Hr. now rewrite app_assoc.
  - intros [= <- <-]. destruct (Hm _ _ _ E) as (n1 & -> & H1). eauto.
Qed.

Lemma export_body_writes_once (fs : FileSystem) (client : Client) (chat : NormalizedChat)
    (output_path mode : string) (history_limit : Z) (progress : bool) :
  writes_once output_path (fieldnames_of mode) (rows_built mode)
    (export_body fs client chat output_path mode history_limit progress).
Proof.
  unfold export_body.
  apply writes_once_bind; [apply resolve_queries|intros entity _].
  apply writes_once_bind; [apply adds_only_report|intros _ _].
  apply writes_once_bind; [apply adds_only_report|intros _ _].
  apply writes_once_bind; [apply bots_and_recent_queries|intros [bots recent_ids] _].
  apply writes_once_bind; [apply collect_participants_queries|intros participants _].
  apply writes_once_bind; [apply adds_only_report|intros _ _].
  apply writes_once_bind; [apply activity_maps_queries|intros [lp lr] (ta & tb & Hmaps)].
  apply ScanFacts.activity_maps_no_reactions in Hmaps as ->.
  intros t r t'. run_monad.
  destruct (build_rows _ _ _ _ _) as [rows|e] eqn:Hrows.
  2:{ intros [= <- <-]. exists []. split; [constructor|]. now rewrite app_nil_r. }
  destruct (write_csv fs output_path) as [[]|e].
  - destruct progress; intros [= <- <-]; exists [];
      (split; [constructor|]); eexists _, _;
      (split; [rewrite app_nil_l; try reflexivity;
               rewrite <- app_assoc; reflexivity|]);
      (split; [repeat constructor|]);
      exists recent_ids, lp, participants; exact Hrows.
  - intros [= <- <-]. exists []. split; [constructor|]. now rewrite app_nil_r.
Qed.


(** X10. The reaction column of the file is empty. No reaction is ever
    recorded, so in the rows a returning body writes the [last_reaction]
    cell is there and holds the empty text, for every participant. *)
Theorem reaction_column_empty (fs : FileSystem) (client : Client)
    (chat : NormalizedChat) (output_path mode : string) (history_limit : Z)
    (progress : bool) (t t' : list Event) (summary : ExportSummary) :
  export_body fs client chat output_path mode history_limit progress t
    = (Ok summary, t') ->
  exists new rows tail,
    Forall is_query new
    /\ t' = (t ++ new ++ [EvWriteCsv output_path (fieldnames_of mode) rows] ++ tail)%list
    /\ Forall is_query tail
    /\ Forall (fun row : Row => row_get "last_reaction" row = Some "") rows.
Proof.
  intros H.
  destruct (export_body_writes_once fs client chat output_path mode
              history_limit progress t _ t' H)
    as (new & Hnew & rows & tail & -> & Htail & recent_ids & lp & ps & Hrows).
  exists new, rows, tail. repeat split; try assumption.
  clear H. apply build_rows_ok in Hrows.
  induction Hrows as [|u row us rows Hrow _ IH]; constructor; [|exact IH].
  apply make_row_ok in Hrow as (username & _ & _ & ->).
  rewrite lookup_empty. reflexivity.
Qed.

(** *** The run *)

(** X22. What [_clone_session] hands back: with no session path the default
    session name; with a path whose file is missing or cannot be copied
    the path itself; and when a clone is reported, the clone is the session
    the client opens and the copy is on the trace. Nothing else touches
    the trace. *)
Theorem clone_session_result (fs : FileSystem) (session_path : option string)
    (t t' : list Event) (tmp_session : option string) (session_id : string) :
  _clone_session fs session_path t = (Ok (tmp_session, session_id), t') ->
  match tmp_session with
  | Some tmp =>
      session_id = tmp
      /\ exists src, session_path = Some src /\ path_exists fs src = true
                     /\ tmp = clone_name fs src
                     /\ t' = (t ++ [EvCopySession src tmp])%list
  | None =>
      t' = t
      /\ session_id = (if truthy session_path then default "" session_path
                       else "member_export")
  end.
Proof.
  unfold _clone_session. run_monad.
  destruct (truthy session_path) eqn:Htr; cbn [negb].
  2:{ intros [= <- <- <-]. done. }
  destruct session_path as [src|]; [|discriminate]. cbn [default from_option id].
  destruct (path_exists fs src) eqn:Hex; cbn [negb].
  2:{ intros [= <- <- <-]. done. }
  destruct (mkdir_cache fs); [|discriminate].
  destruct (copy2 fs src (clone_name fs src)) as [[]|e].
  - intros [= <- <- <-]. split; [reflexivity|]. exists src. done.
  - destruct (caught_by e [OSError]); [|discriminate].
    intros [= <- <- <-]. done.
Qed.

Lemma first_truthy_nonempty (candidates : list (option string)) (fallback : string) :
  nonempty fallback = true -> nonempty (first_truthy candidates fallback) = true.
Proof.
  intros H. unfold first_truthy.
  destruct (List.find truthy candidates) as [c|] eqn:E; [|exact H].
  apply List.find_some in E as [_ Hc]. destruct c as [c|]; [exact Hc|discriminate].
Qed.

Section Run.
Variable urlparse : string -> option ParseResult.
Variables (fs : FileSystem) (client : Client) (chat_username : ChatArg).
Variables (output_path mode : string) (history_limit : Z).
Variables (session_path : option string) (progress : bool).

Abbreviation run :=
  (export_member_data urlparse fs client chat_username output_path mode
     history_limit session_path progress).

(** X23. The shape of a run whose login succeeds: the client is made and
    connected once; then come queries and progress reports, with at most
    one write of the CSV file among them and exactly one when the run
    returns; then the disconnection, whatever the body did; and last,
    when the session file was cloned and the clone can be removed, its
    removal. *)
Theorem started_run_trace (t t1 t' : list Event) (r : Outcome ExportSummary)
    (tmp_session : option string) (session_id : string)
    (normalized_chat : NormalizedChat) :
  in_strings mode ["member"; "admin"] = true ->
  _clone_session fs session_path t = (Ok (tmp_session, session_id), t1) ->
  normalize_chat_identifier urlparse chat_username = Ok (Some normalized_chat) ->
  start client = Started ->
  run t = (r, t') ->
  exists before written after closing,
    t' = (t1 ++ [EvNewClient session_id; EvConnect]
             ++ before ++ written ++ after
             ++ [EvDisconnect] ++ closing)%list
    /\ Forall is_query before
    /\ Forall is_query after
    /\ (written = []
        \/ exists rows,
             written = [EvWriteCsv output_path (fieldnames_of mode) rows])
    /\ (forall summary, r = Ok summary -> written <> [])
    /\ (closing = []
        \/ exists tmp, tmp_session = Some tmp /\ unlink fs tmp = Ok tt
                       /\ closing = [EvUnlink tmp])
    /\ (tmp_session = None -> closing = [])
    /\ (forall tmp, tmp_session = Some tmp -> unlink fs tmp = Ok tt ->
                    closing = [EvUnlink tmp]).
Proof.
  intros Hmode Hclone Hnc Hstart. unfold export_member_data.
  rewrite Hmode. cbn [negb].
  unfold mbind at 1, M_bind at 1, bind at 1. rewrite Hclone.
  unfold mbind at 1, M_bind at 1, bind at 1, lift at 1. rewrite Hnc.
  unfold client_start. rewrite Hstart. run_monad.
  destruct (export_body fs client normalized_chat output_path mode history_limit
              progress ((t1 ++ [EvNewClient session_id]) ++ [EvConnect])%list)
    as [rb tb] eqn:Eb.
  destruct (export_body_writes_once fs client normalized_chat output_path mode
              history_limit progress _ _ _ Eb) as (new & Hnew & Hshape).
  assert (exists before written after,
            tb = (t1 ++ [EvNewClient session_id; EvConnect]
                     ++ before ++ written ++ after)%list
            /\ Forall is_query before
            /\ Forall is_query after
            /\ (written = []
                \/ exists rows,
                     written = [EvWriteCsv output_path (fieldnames_of mode) rows])
            /\ (forall summary, rb = Ok summary -> written <> []))
    as (before & written & after & -> & Hbefore & Hafter & Hwritten & Hok).
  { destruct rb as [s|e].
    - destruct Hshape as (rows & tail & -> & Htail & _).
      exists new, [EvWriteCsv output_path (fieldnames_of mode) rows], tail.
      split; [now flat|]. repeat split; eauto.
    - exists new, [], []. rewrite Hshape.
      split; [now flat|].
      repeat split; eauto; discriminate. }
  unfold export_cleanup. run_monad.
  destruct tmp_session as [tmp|].
  - destruct (unlink fs tmp) as [[]|e] eqn:Hun; cbv beta iota zeta.
    + intros [= <- <-]. exists before, written, after, [EvUnlink tmp].
      split; [now flat|]. repeat split; try assumption.
      * right; eauto.
      * discriminate.
      * now intros ? [= <-] _.
    + intros H. exists before, written, after, [].
      split; [destruct (caught_by e [OSError]); injection H as <- <-;
              now flat|].
      repeat split; try assumption.
      * intros summary ->. destruct (caught_by e [OSError]); [|discriminate H].
        injection H as H _. now apply (Hok summary).
      * now left.
      * intros ? [= <-] Hu. rewrite Hun in Hu. discriminate Hu.
  - cbv beta iota zeta. intros [= <- <-]. exists before, written, after, [].
    split; [now flat|].
    repeat split; try assumption; [now left|discriminate].
Qed.

(** A run that returns: its chat reference was normalized and its body
    returned the summary. *)
Lemma run_ok (t t' : list Event) (summary : ExportSummary) :
  run t = (Ok summary, t') ->
  exists normalized_chat ta tb,
    normalize_chat_identifier urlparse chat_username = Ok (Some normalized_chat)
    /\ export_body fs client normalized_chat output_path mode history_limit
         progress ta = (Ok summary, tb).
Proof.
  unfold export_member_data.
  destruct (negb _); [discriminate|]. intros H.
  apply bind_ok in H as ([tmp sid] & t1 & _ & H).
  apply bind_ok in H as (nc & t2 & Hnc & H).
  unfold lift in Hnc.
  destruct (normalize_chat_identifier urlparse chat_username) as [o|e];
    [|discriminate Hnc].
  injection Hnc as -> _. destruct nc as [nc|]; [|discriminate].
  apply bind_ok in H as ([] & ta & _ & H).
  apply bind_ok in H as ([] & tb & _ & H).
  apply try_finally_ok in H as (tc & H & _).
  exists nc, tb, tc. split; [reflexivity|exact H].
Qed.

(** A body that returns: the chat was resolved, and the summary holds
    what the filtered enumerations gave and the title that was chosen. *)
Lemma export_body_ok (normalized_chat : NormalizedChat) (t t' : list Event)
    (summary : ExportSummary) :
  export_body fs client normalized_chat output_path mode history_limit progress t
    = (Ok summary, t') ->
  exists entity t1 t2 recent_ids,
    resolve_chat_entity client normalized_chat t = (Ok entity, t1)
    /\ _collect_bots_and_recent client entity progress
         (t1 ++ if progress
                then [EvProgress ("Resolved chat title: " +:+ chat_title summary);
                      EvProgress "Collecting participants..."]
                else [])%list
       = (Ok (bot_count summary, recent_ids), t2)
    /\ recent_count summary = size recent_ids
    /\ csv_path summary = output_path
    /\ chat_title summary
       = first_truthy [getattr entity "title" (ent_title entity);
                       getattr entity "username" (ent_username entity);
                       getattr entity "first_name" (ent_first_name entity)]
           (raw normalized_chat).
Proof.
  unfold export_body. intros H.
  apply bind_ok in H as (entity & td & Hres & H).
  apply bind_ok in H as ([] & te & Hr1 & H).
  apply bind_ok in H as ([] & tf & Hr2 & H).
  apply bind_ok in H as ([bots recent_ids] & tg & Hbots & H).
  apply bind_ok in H as (participants & th & _ & H).
  apply bind_ok in H as ([] & ti & _ & H).
  apply bind_ok in H as ([lp lr] & tj & _ & H).
  apply bind_ok in H as (rows & tk & _ & H).
  apply bind_ok in H as ([] & tl & _ & H).
  apply bind_ok in H as ([] & tm & _ & H).
  apply bind_ok in H as ([] & tn & _ & H).
  injection H as <- <-. cbn [bot_count recent_count csv_path chat_title].
  exists entity, td, tg, recent_ids. split; [exact Hres|].
  split; [|done].
  rewrite <- Hbots. f_equal.
  revert Hr1 Hr2. unfold report. destruct progress; run_monad.
  - intros [= <-] [= <-]. now rewrite <- app_assoc.
  - intros [= <-] [= <-]. now rewrite app_nil_r.
Qed.

(** X24. The summary of a run that completes counts what the enumerations
    gave, not what the activity scan found: the bot count and the set of
    recent ids are those [_collect_bots_and_recent] returned for the chat
    the normalized reference resolved to, asked right after the two
    reports that follow the resolution; and the path is the one the run
    was given. *)
Theorem summary_counts_enumerations (t t' : list Event) (summary : ExportSummary) :
  run t = (Ok summary, t') ->
  exists normalized_chat entity t1 t2 t3 recent_ids,
    normalize_chat_identifier urlparse chat_username = Ok (Some normalized_chat)
    /\ resolve_chat_entity client normalized_chat t1 = (Ok entity, t2)
    /\ _collect_bots_and_recent client entity progress
         (t2 ++ if progress
                then [EvProgress ("Resolved chat title: " +:+ chat_title summary);
                      EvProgress "Collecting participants..."]
                else [])%list
       = (Ok (bot_count summary, recent_ids), t3)
    /\ recent_count summary = size recent_ids
    /\ csv_path summary = output_path.
Proof.
  intros H. apply run_ok in H as (nc & ta & tb & Hnc & H).
  apply export_body_ok in H
    as (entity & t1 & t2 & recent_ids & Hres & Hbots & Hrecent & Hpath & _).
  now exists nc, entity, ta, t1, t2, recent_ids.
Qed.

(** X25. The chat title of a summary is the title of the resolved chat
    when it has one that is not empty, else its username, else its first
    name, else the text of the reference: the stripped string, or the
    decimal text of the integer. For a reference given as a string or as
    an integer the title is never empty. *)
Theorem chat_title_choice (t t' : list Event) (summary : ExportSummary) :
  run t = (Ok summary, t') ->
  exists normalized_chat entity t1 t2,
    normalize_chat_identifier urlparse chat_username = Ok (Some normalized_chat)
    /\ resolve_chat_entity client normalized_chat t1 = (Ok entity, t2)
    /\ chat_title summary
       = (let title := getattr entity "title" (ent_title entity) in
          let username := getattr entity "username" (ent_username entity) in
          let first_name := getattr entity "first_name" (ent_first_name entity) in
          if truthy title then or_empty title
          else if truthy username then or_empty username
          else if truthy first_name then or_empty first_name
          else raw normalized_chat)
    /\ match chat_username with
       | ArgStr s =>
           raw normalized_chat = strip s /\ nonempty (chat_title summary) = true
       | ArgInt z =>
           raw normalized_chat = py_str z /\ nonempty (chat_title summary) = true
       | ArgBool b =>
           raw normalized_chat = str_of_bool b
           /\ nonempty (chat_title summary) = true
       | ArgNormalized c => normalized_chat = c
       | ArgOther => False
       end.
Proof.
  intros H. apply run_ok in H as (nc & ta & tb & Hnc & H).
  apply export_body_ok in H
    as (entity & t1 & t2 & recent_ids & Hres & _ & _ & _ & Htitle).
  exists nc, entity, ta, t1. split; [exact Hnc|]. split; [exact Hres|]. split.
  - rewrite Htitle. unfold first_truthy. cbn [List.find]. cbv zeta.
    destruct (truthy (getattr entity "title" _)); [reflexivity|].
    destruct (truthy (getattr entity "username" _)); [reflexivity|].
    destruct (truthy (getattr entity "first_name" _)); reflexivity.
  - assert (nonempty (raw nc) = true -> nonempty (chat_title summary) = true)
      as Hne by (rewrite Htitle; apply first_truthy_nonempty).
    destruct chat_username as [s|z|b| |]; cbn [normalize_chat_identifier] in Hnc.
    + injection Hnc as Hnc.
      pose proof (NormalizerFacts.normalize_str_raw urlparse s nc Hnc) as Hraw.
      split; [exact Hraw|]. apply Hne. rewrite Hraw.
      unfold normalize_str in Hnc.
      destruct (nonempty (strip s)); [reflexivity|discriminate].
    + destruct (str_of_int z) as [text|e] eqn:Hz; [|discriminate].
      injection Hnc as <-. apply str_of_int_ok in Hz as ->. cbn [raw] in *.
      split; [reflexivity|]. apply Hne, NormalizerFacts.py_str_numeric.
    + injection Hnc as <-. cbn [raw] in *. split; [reflexivity|].
      apply Hne. now destruct b.
    + now injection Hnc as <-.
    + discriminate.
Qed.
End Run.

Lemma filtered_enumeration_error_propagates_witness :
  _collect_bots_and_recent MoreScenarios.broken_enumeration Scenarios.some_chat
    false [] = (Raise (mkExc ConnectionError "Connection lost"), [])
  /\ exists t',
       _collect_bots_and_recent MoreScenarios.broken_recent Scenarios.some_chat
         true [] = (Raise (mkExc ConnectionError "Connection lost"), t').
Proof.
  split.
  - apply (filtered_enumeration_error_propagates MoreScenarios.broken_enumeration
             Scenarios.some_chat false [] (mkExc ConnectionError "Connection lost"));
      reflexivity.
  - apply (filtered_enumeration_error_propagates MoreScenarios.broken_recent
             Scenarios.some_chat true [] (mkExc ConnectionError "Connection lost"));
      reflexivity.
Defined.

Lemma main_enumeration_error_propagates_witness :
  exists t',
    collect_participants MoreScenarios.broken_enumeration Scenarios.some_chat
      "member" 2000 false []
    = (Raise (mkExc FloodWaitError "FLOOD_WAIT_3600"), t').
Proof.
  apply (main_enumeration_error_propagates MoreScenarios.broken_enumeration
           Scenarios.some_chat "member" 2000 false []).
  reflexivity.
Defined.


Lemma scan_only_reports_witness :
  exists r t',
    _collect_activity_maps Scenarios.two_posts Scenarios.some_chat {[7%Z]} 2000
      true [] = (r, t')
    /\ Forall is_report t'
    /\ Forall (fun ev => forall message_id, ev <> EvGetReactions message_id) t'.
Proof.
  destruct (_collect_activity_maps Scenarios.two_posts Scenarios.some_chat
              {[7%Z]} 2000 true []) as [r t'] eqn:E.
  exists r, t'. split; [reflexivity|].
  destruct (scan_only_reports Scenarios.two_posts Scenarios.some_chat {[7%Z]}
              2000 true [] t' r E) as (new & -> & Hreports & Hnone & _).
  split; [exact Hreports|exact Hnone].
Defined.

Lemma rows_match_header_witness :
  exists rows,
    build_rows true ∅ ∅ ∅ [Scenarios.user 7 "alice" false; Scenarios.user 8 "bob" false]
    = Ok rows
    /\ Forall (fun row : Row => row.*1 = fieldnames_of "admin") rows
    /\ length rows = 2%nat.
Proof.
  destruct (build_rows true ∅ ∅ ∅
              [Scenarios.user 7 "alice" false; Scenarios.user 8 "bob" false])
    as [rows|e] eqn:E; [|vm_compute in E; discriminate E].
  exists rows. split; [reflexivity|].
  destruct (rows_match_header "admin" ∅ ∅ ∅
              [Scenarios.user 7 "alice" false; Scenarios.user 8 "bob" false]
              rows E) as (Hfields & Hlen & _).
  split; [exact Hfields|exact Hlen].
Defined.


Lemma reaction_column_empty_witness :
  exists summary t' new rows tail,
    export_body (Scenarios.working_fs false) Scenarios.degraded
      (mkNormalizedChat "durov" (TStr "durov") None) "members.csv" "member" 2000
      false [] = (Ok summary, t')
    /\ t' = (new ++ [EvWriteCsv "members.csv" (fieldnames_of "member") rows]
                 ++ tail)%list
    /\ Forall (fun row : Row => row_get "last_reaction" row = Some "") rows.
Proof.
  destruct (export_body (Scenarios.working_fs false) Scenarios.degraded
              (mkNormalizedChat "durov" (TStr "durov") None) "members.csv" "member"
              2000 false []) as [[summary|e] t'] eqn:E;
    [|vm_compute in E; discriminate E].
  destruct (reaction_column_empty (Scenarios.working_fs false) Scenarios.degraded
              (mkNormalizedChat "durov" (TStr "durov") None) "members.csv" "member"
              2000 false [] t' summary E)
    as (new & rows & tail & _ & Ht & _ & Hrows).
  exists summary, t', new, rows, tail. split; [reflexivity|].
  split; [exact Ht|exact Hrows].
Defined.

Lemma clone_session_result_witness :
  exists tmp session_id t',
    _clone_session (Scenarios.working_fs true) (Some "me.session") []
      = (Ok (Some tmp, session_id), t')
    /\ session_id = tmp.
Proof.
  destruct (_clone_session (Scenarios.working_fs true) (Some "me.session") [])
    as [[[[tmp|] sid]|e] t'] eqn:E; try (vm_compute in E; discriminate E).
  exists tmp, sid, t'. split; [reflexivity|].
  exact (proj1 (clone_session_result (Scenarios.working_fs true)
                  (Some "me.session") [] t' (Some tmp) sid E)).
Defined.

Lemma started_run_trace_witness :
  exists summary t' before rows after,
    export_member_data UrlLib.urlparse (Scenarios.working_fs true)
      Scenarios.degraded (ArgStr "durov") "members.csv" "admin" 2000
      (Some "me.session") false [] = (Ok summary, t')
    /\ t' = ([EvCopySession "me.session" Scenarios.clone_path]
             ++ [EvNewClient Scenarios.clone_path; EvConnect]
             ++ before
             ++ [EvWriteCsv "members.csv" (fieldnames_of "admin") rows]
             ++ after
             ++ [EvDisconnect] ++ [EvUnlink Scenarios.clone_path])%list
    /\ Forall is_query before
    /\ Forall is_query after.
Proof.
  destruct (export_member_data UrlLib.urlparse (Scenarios.working_fs true)
              Scenarios.degraded (ArgStr "durov") "members.csv" "admin" 2000
              (Some "me.session") false []) as [[summary|e] t'] eqn:E;
    [|vm_compute in E; discriminate E].
  destruct (started_run_trace UrlLib.urlparse (Scenarios.working_fs true)
              Scenarios.degraded (ArgStr "durov") "members.csv" "admin" 2000
              (Some "me.session") false []
              [EvCopySession "me.session" Scenarios.clone_path] t' (Ok summary)
              (Some Scenarios.clone_path) Scenarios.clone_path
              (mkNormalizedChat "durov" (TStr "durov") None)
              eq_refl eq_refl eq_refl eq_refl E)
    as (before & written & after & closing
        & Ht & Hbefore & Hafter & Hwritten & Hok & _ & _ & Hclose).
  destruct Hwritten as [Hnone|[rows Hrows]];
    [destruct (Hok summary eq_refl Hnone)|].
  exists summary, t', before, rows, after. split; [reflexivity|].
  rewrite (Hclose Scenarios.clone_path eq_refl eq_refl), Hrows in Ht.
  split; [exact Ht|]. split; [exact Hbefore|exact Hafter].
Defined.

Lemma summary_counts_enumerations_witness :
  exists summary t',
    export_member_data UrlLib.urlparse (Scenarios.working_fs true)
      Scenarios.degraded (ArgStr "durov") "members.csv" "admin" 2000
      (Some "me.session") false [] = (Ok summary, t')
    /\ bot_count summary = 0%nat
    /\ recent_count summary = 1%nat
    /\ csv_path summary = "members.csv".
Proof.
  destruct (export_member_data UrlLib.urlparse (Scenarios.working_fs true)
              Scenarios.degraded (ArgStr "durov") "members.csv" "admin" 2000
              (Some "me.session") false []) as [[summary|e] t'] eqn:E;
    [|vm_compute in E; discriminate E].
  destruct (summary_counts_enumerations UrlLib.urlparse (Scenarios.working_fs true)
              Scenarios.degraded (ArgStr "durov") "members.csv" "admin" 2000
              (Some "me.session") false [] t' summary E)
    as (nc & entity & t1 & t2 & t3 & ids & Hnc & Hres & Hbots & Hrecent & Hpath).
  assert (entity = Scenarios.some_chat) as ->.
  { unfold resolve_chat_entity in Hres.
    destruct (truthy (invite_hash nc)).
    - apply bind_ok in Hres as (invite & ti & _ & Hres).
      destruct invite; try discriminate Hres. now injection Hres as <- _.
    - now injection Hres as <- _. }
  exists summary, t'. split; [reflexivity|].
  vm_compute in Hbots. injection Hbots as Hcount Hids _.
  split; [now symmetry|]. split; [|exact Hpath].
  rewrite Hrecent, <- Hids. reflexivity.
Defined.

Lemma chat_title_choice_witness :
  exists summary t',
    export_member_data UrlLib.urlparse (Scenarios.working_fs false)
      MoreScenarios.untitled (ArgStr "  durov ") "members.csv" "member" 2000
      None false [] = (Ok summary, t')
    /\ chat_title summary = "durov".
Proof.
  destruct (export_member_data UrlLib.urlparse (Scenarios.working_fs false)
              MoreScenarios.untitled (ArgStr "  durov ") "members.csv" "member" 2000
              None false []) as [[summary|e] t'] eqn:E;
    [|vm_compute in E; discriminate E].
  exists summary, t'. split; [reflexivity|].
  destruct (chat_title_choice UrlLib.urlparse (Scenarios.working_fs false)
              MoreScenarios.untitled (ArgStr "  durov ") "members.csv" "member" 2000
              None false [] t' summary E)
    as (nc & entity & t1 & t2 & Hnc & Hres & Htitle & Hraw & _).
  assert (entity = MoreScenarios.untitled_chat) as ->.
  { unfold resolve_chat_entity in Hres.
    destruct (truthy (invite_hash nc)).
    - apply bind_ok in Hres as (invite & ti & _ & Hres).
      destruct invite; try discriminate Hres. now injection Hres as <- _.
    - now injection Hres as <- _. }
  rewrite Htitle. cbn. exact Hraw.
Defined.

End RunMore.


(** ** More on the resolver *)

Module ResolverMore.
Import PyStr Py ChatUtils Remote Resolver.
Import StringFacts NormalizerFacts NormalizerMore ResolverFacts.

(** X9. A reference made of ["+"] signs only is an invite shorthand with an
    empty token. The resolver takes the empty token for no token: no
    invite is checked, and the reference itself is looked up. *)
Theorem empty_invite_token_looked_up (urlparse : string -> option ParseResult)
    (client : Client) (s : string) (t : list Event) :
  startswith (strip s) "+" = true ->
  lstrip_char "+" (strip s) = "" ->
  exists d,
    normalize_chat_identifier urlparse (ArgStr s) = Ok (Some d)
    /\ invite_hash d = Some ""
    /\ resolve_chat_entity client d t
       = (get_entity client (ByTarget (TStr (strip s))),
          (t ++ [EvGetEntity (ByTarget (TStr (strip s)))])%list).
Proof.
  intros H Hempty. destruct (plus_head_plain urlparse _ H) as (Hne & Hp & Hu).
  exists (mkNormalizedChat (strip s) (TStr (strip s)) (Some "")).
  split; [|split; reflexivity].
  cbn [normalize_chat_identifier]. f_equal. rewrite <- normalize_str_strip.
  rewrite normalize_plain, ?H; auto using strip_idem.
  unfold _from_invite. now rewrite Hempty.
Qed.

Lemma empty_invite_token_looked_up_witness :
  exists d,
    normalize_chat_identifier UrlLib.urlparse (ArgStr " ++ ") = Ok (Some d)
    /\ invite_hash d = Some ""
    /\ resolve_chat_entity Scenarios.racing_client d []
       = (Ok Scenarios.some_chat, [EvGetEntity (ByTarget (TStr "++"))]).
Proof.
  exact (empty_invite_token_looked_up UrlLib.urlparse Scenarios.racing_client
           " ++ " [] eq_refl eq_refl).
Defined.

Lemma resolve_invite_reply_witness :
  resolve_chat_entity MoreScenarios.member_already Scenarios.invite_chat []
  = (Ok Scenarios.some_chat,
     [EvCheckInvite "AbCdEf12"; EvGetEntity (ByChat Scenarios.some_chat)]).
Proof.
  exact (resolve_invite_reply MoreScenarios.member_already Scenarios.invite_chat
           "AbCdEf12" eq_refl eq_refl (ChatInviteAlready Scenarios.some_chat) []
           eq_refl).
Defined.

End ResolverMore.


(** ** The window *)

Module UiFacts.
Import PyStr Py ChatUtils Remote Resolver MemberExport MoreSpec Ui.
Import StringFacts ResolverFacts RunFacts RunMore.

(** *** The limit, the mode and the list of recent chats *)

(** X26. Whatever stands in the limit field, and whatever [int] makes of it,
    the limit handed to the run lies between 100 and 20000; a number in
    that range is handed on unchanged. *)
Theorem history_limit_in_range (to_int : string -> option Z) (text : string) :
  (100 <= history_limit_of to_int text <= 20000)%Z
  /\ (forall n, to_int (strip text) = Some n -> nonempty (strip text) = true ->
        (100 <= n <= 20000)%Z -> history_limit_of to_int text = n).
Proof.
  unfold history_limit_of, clamp_history_limit. split; [lia|].
  intros n Hn -> Hr. rewrite Hn. cbn [default from_option id]. lia.
Qed.

Lemma run_mode_valid (mode : string) :
  in_strings (run_mode mode) ["member"; "admin"] = true.
Proof.
  unfold run_mode. destruct (in_strings mode _) eqn:E; [exact E|reflexivity].
Qed.


(** *** Progress messages *)

Lemma uint_text_digits u : all_chars isdigit (NilEmpty.string_of_uint u) = true.
Proof. induction u; simpl; now rewrite ?IHu. Qed.

Lemma str_nat_digits n :
  nonempty (str_nat n) = true /\ all_chars isdigit (str_nat n) = true.
Proof.
  unfold str_nat, py_str.
  destruct (Z.of_nat n) as [|p|p] eqn:E; [| |lia]; cbn [Z.to_int];
    unfold NilZero.string_of_int, NilZero.string_of_uint.
  - split; reflexivity.
  - destruct (Pos.to_uint p) eqn:Eu; try (split; reflexivity);
      (split; [reflexivity|]); rewrite <- Eu; apply uint_text_digits.
Qed.

Lemma break_at_run (p : ascii -> bool) (s rest : string) :
  all_chars p s = true -> head_ok p rest ->
  UrlLib.break_at (fun c => negb (p c)) (s +:+ rest) = (s, rest).
Proof.
  intros Hs Hrest. induction s as [|c s IH].
  - change ("" +:+ rest) with rest.
    destruct rest as [|c rest]; [reflexivity|].
    cbn in *. now rewrite Hrest.
  - change (String c s +:+ rest) with (String c (s +:+ rest)).
    cbn in Hs. apply andb_prop in Hs as [Hc Hs].
    cbn. rewrite Hc. cbn. now rewrite (IH Hs).
Qed.

Lemma run_of_run (p : ascii -> bool) (s rest : string) :
  nonempty s = true -> all_chars p s = true -> head_ok p rest ->
  run_of p (s +:+ rest) = Some (s, rest).
Proof.
  intros Hne Hs Hrest. unfold run_of. rewrite (break_at_run p s rest Hs Hrest).
  destruct s; [discriminate|reflexivity].
Qed.

Lemma strip_blank_digits (ds : string) :
  all_chars isdigit ds = true -> strip (String " " ds) = ds.
Proof.
  intros H. change (strip (String " " ds)) with (strip ds).
  apply strip_with_fixed. revert H. apply all_chars_impl.
  intros c Hc. now rewrite (digit_not_space c Hc).
Qed.

Lemma digits_head (ds rest : string) :
  nonempty ds = true -> all_chars isdigit ds = true ->
  head_ok isspace (ds +:+ rest).
Proof.
  destruct ds as [|c ds]; [discriminate|]. intros _ H.
  cbn [all_chars] in H. apply andb_prop in H as [Hc _].
  change (String c ds +:+ rest) with (String c (ds +:+ rest)).
  exact (digit_not_space c Hc).
Qed.

Lemma match_after_messages_digits (ds : string) :
  nonempty ds = true -> all_chars isdigit ds = true ->
  match_after_messages ("after " +:+ ds +:+ " messages") = Some ds.
Proof.
  intros Hne Hd. unfold match_after_messages.
  change (after_literal "after" ("after " +:+ ds +:+ " messages"))
    with (Some (" " +:+ ds +:+ " messages")).
  cbn [mbind option_bind].
  rewrite (run_of_run isspace " " (ds +:+ " messages") eq_refl eq_refl
             (digits_head ds _ Hne Hd)).
  cbn [mbind option_bind].
  rewrite (run_of_run isdigit ds " messages" Hne Hd eq_refl).
  reflexivity.
Qed.

Section Messages.
Variable tr : string -> list (string * string) -> string.

Lemma localize_counted (x : string) :
  localize_progress tr ("Bots counted: " +:+ x)
  = Some (tr "progress.bots" [("count", strip (String " " x))])
  /\ localize_progress tr ("Recent participants counted: " +:+ x)
     = Some (tr "progress.recent" [("count", strip (String " " x))])
  /\ localize_progress tr ("Participants collected: " +:+ x)
     = Some (tr "progress.participants" [("count", strip (String " " x))])
  /\ localize_progress tr ("Messages scanned: " +:+ x)
     = Some (tr "progress.messages_scanned" [("count", strip (String " " x))]).
Proof. repeat split; reflexivity. Qed.

Lemma localize_scan_end (x : string) :
  localize_progress tr ("Activity scan finished after " +:+ x)
  = Some (tr "progress.activity_done"
            [("count",
              default "0"
                (match match_after_messages ("after " +:+ x) with
                 | Some number => Some number
                 | None => search_after_messages ("fter " +:+ x)
                 end))]).
Proof. reflexivity. Qed.

(** X28. The counts of the run come through the window's reading of its
    messages: the text after the colon, trimmed, is the number as the run
    printed it, and the pattern for the end of the activity scan picks
    the number of scanned messages out of its sentence. *)
Theorem progress_counts_round_trip (n : nat) :
  localize_progress tr ("Bots counted: " +:+ str_nat n)
  = Some (tr "progress.bots" [("count", str_nat n)])
  /\ localize_progress tr ("Recent participants counted: " +:+ str_nat n)
     = Some (tr "progress.recent" [("count", str_nat n)])
  /\ localize_progress tr ("Participants collected: " +:+ str_nat n)
     = Some (tr "progress.participants" [("count", str_nat n)])
  /\ localize_progress tr ("Messages scanned: " +:+ str_nat n)
     = Some (tr "progress.messages_scanned" [("count", str_nat n)])
  /\ localize_progress tr
       ("Activity scan finished after " +:+ str_nat n +:+ " messages")
     = Some (tr "progress.activity_done" [("count", str_nat n)]).
Proof.
  destruct (str_nat_digits n) as [Hne Hd].
  destruct (localize_counted (str_nat n)) as (H1 & H2 & H3 & H4).
  rewrite (strip_blank_digits _ Hd) in H1, H2, H3, H4.
  repeat (split; [assumption|]).
  rewrite localize_scan_end, (match_after_messages_digits _ Hne Hd).
  reflexivity.
Qed.
End Messages.

(** *** The run as the window sees it *)

Lemma adds_only_try_finally {A} P (body : M A) (fin : M unit) :
  adds_only P body -> adds_only P fin -> adds_only P (try_finally body fin).
Proof.
  intros Hb Hf t r t'. unfold try_finally.
  destruct (body t) as [rb tb] eqn:Eb.
  destruct (fin tb) as [rf tf] eqn:Ef.
  destruct (Hb _ _ _ Eb) as (n1 & -> & H1).
  destruct (Hf _ _ _ Ef) as (n2 & -> & H2).
  intros Hr. exists (n1 ++ n2)%list.
  split; [|now apply Forall_app].
  destruct rf; injection Hr as _ <-; now rewrite app_assoc.
Qed.

Ltac shown :=
  repeat first
    [ apply adds_only_ret | apply adds_only_raise | apply adds_only_lift
    | apply adds_only_emit; first [exact I | (eexists _, _; reflexivity)]
    | apply adds_only_bind; [|intros ?]
    | apply adds_only_try_except; [|intros ?]
    | match goal with
      | |- adds_only _ (match ?x with _ => _ end) => destruct x
      | |- adds_only _ (if ?b then _ else _) => destruct b
      | |- adds_only _ (let '(_, _) := ?p in _) => destruct p
      end ].

Section Shown.
Variable tr : string -> list (string * string) -> string.

Lemma resolve_shown client chat :
  adds_only (translated tr) (resolve_chat_entity client chat).
Proof. unfold resolve_chat_entity, call_check_invite, call_get_entity. shown. Qed.

Lemma bots_and_recent_shown client entity progress :
  adds_only (translated tr) (_collect_bots_and_recent client entity progress).
Proof. unfold _collect_bots_and_recent, report. shown. Qed.

Lemma append_participants_shown progress users acc :
  adds_only (translated tr) (append_participants progress users acc).
Proof.
  revert acc. induction users as [|u us IH]; intros acc; cbn [append_participants].
  - shown.
  - apply adds_only_bind; [shown|intros _; apply IH].
Qed.

Lemma fallback_shown client limit messages pending participants seen :
  adds_only (translated tr)
    (fallback_loop client limit messages pending participants seen).
Proof.
  revert participants seen.
  induction messages as [|m rest IH]; intros ps seen; cbn [fallback_loop].
  - shown.
  - destruct (msg_sender_id m) as [sid|]; [|apply IH].
    destruct (_ && _); [|apply IH].
    unfold call_get_entity.
    apply adds_only_bind; [shown|intros user].
    destruct (_ <=? _)%Z; [shown|apply IH].
Qed.

Lemma collect_participants_shown client entity mode limit progress :
  adds_only (translated tr)
    (collect_participants client entity mode limit progress).
Proof.
  unfold collect_participants.
  apply adds_only_bind; [apply append_participants_shown|intros ps].
  apply adds_only_bind; [shown|intros _].
  destruct (_ && _); [|shown].
  apply adds_only_bind; [unfold report; shown|intros _]. apply fallback_shown.
Qed.

Lemma scan_loop_shown client entity pids progress messages pending st :
  adds_only (translated tr)
    (scan_loop client entity pids progress messages pending st).
Proof.
  revert st. induction messages as [|m rest IH]; intros st; cbn [scan_loop].
  - shown.
  - apply adds_only_bind.
    + unfold scan_message, _fetch_reactions_for_message. shown.
    + intros st'. destruct (all_found pids st'); [shown|apply IH].
Qed.

Lemma activity_maps_shown client entity pids limit progress :
  adds_only (translated tr)
    (_collect_activity_maps client entity pids limit progress).
Proof.
  unfold _collect_activity_maps, activity_scan.
  apply adds_only_bind; [apply scan_loop_shown|intros st]. unfold report. shown.
Qed.

Lemma body_shown fs client chat output_path mode limit progress :
  adds_only (translated tr)
    (export_body fs client chat output_path mode limit progress).
Proof.
  unfold export_body.
  apply adds_only_bind; [apply resolve_shown|intros entity].
  apply adds_only_bind; [unfold report; shown|intros _].
  apply adds_only_bind; [unfold report; shown|intros _].
  apply adds_only_bind; [apply bots_and_recent_shown|intros [bots recent_ids]].
  apply adds_only_bind; [apply collect_participants_shown|intros participants].
  apply adds_only_bind; [unfold report; shown|intros _].
  apply adds_only_bind; [apply activity_maps_shown|intros [lp lr]].
  unfold report. shown.
Qed.

Lemma session_shown fs client chat output_path mode limit progress tmp_session :
  adds_only (translated tr)
    (client_start client;;
     try_finally (export_body fs client chat output_path mode limit progress)
       (export_cleanup fs tmp_session)).
Proof.
  apply adds_only_bind; [unfold client_start; shown|intros _].
  apply adds_only_try_finally; [apply body_shown|].
  unfold export_cleanup. shown.
Qed.

(** X29. Whatever a run is given and however it ends, each progress message
    it sends is one of those the window translates: none is logged as it
    came. *)
Theorem progress_messages_translated (urlparse : string -> option ParseResult)
    (fs : FileSystem) (client : Client) (chat_username : ChatArg)
    (output_path mode : string) (history_limit : Z)
    (session_path : option string) (progress : bool)
    (t t' : list Event) (r : Outcome ExportSummary) :
  export_member_data urlparse fs client chat_username output_path mode
    history_limit session_path progress t = (r, t') ->
  exists new, t' = (t ++ new)%list /\ Forall (translated tr) new.
Proof.
  revert t r t'.
  change (adds_only (translated tr)
            (export_member_data urlparse fs client chat_username output_path
               mode history_limit session_path progress)).
  unfold export_member_data.
  destruct (negb _); [shown|].
  apply adds_only_bind; [unfold _clone_session; shown|intros [tmp sid]].
  apply adds_only_bind; [shown|intros [normalized_chat|]]; [|shown].
  apply adds_only_bind; [shown|intros _]. apply session_shown.
Qed.
End Shown.

(** X30. The window's call is not turned away by the checks of the run: the
    mode it hands over is a valid one and the chat is a descriptor
    already, so that a run whose session step returns goes on to make its
    client. *)
Theorem window_run_reaches_client (urlparse : string -> option ParseResult)
    (to_int : string -> option Z) (fs : FileSystem) (client : Client)
    (normalized_chat : NormalizedChat) (output_path mode limit_text : string)
    (sess : option string) (t t1 t' : list Event)
    (tmp_session : option string) (session_id : string)
    (r : Outcome ExportSummary) :
  _clone_session fs sess t = (Ok (tmp_session, session_id), t1) ->
  window_run urlparse to_int fs client normalized_chat output_path mode
    limit_text sess t = (r, t') ->
  exists rest, t' = (t1 ++ [EvNewClient session_id] ++ rest)%list.
Proof.
  intros Hclone. unfold window_run, export_member_data.
  rewrite run_mode_valid. cbn [negb normalize_chat_identifier].
  unfold mbind at 1, M_bind at 1, bind at 1. rewrite Hclone.
  unfold mbind at 1, M_bind at 1, bind at 1. unfold emit at 1.
  intros Hrun.
  destruct (session_shown (fun _ _ => "") _ _ _ _ _ _ _ _ _ _ _ Hrun)
    as (rest & -> & _).
  exists rest. now rewrite <- app_assoc.
Qed.

Lemma progress_messages_translated_witness :
  exists r t',
    export_member_data UrlLib.urlparse (Scenarios.working_fs false)
      Scenarios.degraded (ArgStr "durov") "members.csv" "member" 2000
      None true [] = (r, t')
    /\ Forall (translated MoreScenarios.keys_only) t'.
Proof.
  destruct (export_member_data UrlLib.urlparse (Scenarios.working_fs false)
              Scenarios.degraded (ArgStr "durov") "members.csv" "member" 2000
              None true []) as [r t'] eqn:E.
  exists r, t'. split; [reflexivity|].
  destruct (progress_messages_translated MoreScenarios.keys_only UrlLib.urlparse
              (Scenarios.working_fs false) Scenarios.degraded (ArgStr "durov")
              "members.csv" "member" 2000 None true [] t' r E) as (new & -> & H).
  exact H.
Defined.

Lemma window_run_reaches_client_witness :
  exists r t' rest,
    window_run UrlLib.urlparse py_int (Scenarios.working_fs true)
      Scenarios.degraded Scenarios.invite_chat "members.csv" "owner" "many"
      (Some "me.session") [] = (r, t')
    /\ t' = ([EvCopySession "me.session" Scenarios.clone_path]
             ++ [EvNewClient Scenarios.clone_path] ++ rest)%list.
Proof.
  destruct (window_run UrlLib.urlparse py_int (Scenarios.working_fs true)
              Scenarios.degraded Scenarios.invite_chat "members.csv" "owner" "many"
              (Some "me.session") []) as [r t'] eqn:E.
  destruct (window_run_reaches_client UrlLib.urlparse py_int
              (Scenarios.working_fs true) Scenarios.degraded Scenarios.invite_chat
              "members.csv" "owner" "many" (Some "me.session") []
              [EvCopySession "me.session" Scenarios.clone_path] t'
              (Some Scenarios.clone_path) Scenarios.clone_path r eq_refl E)
    as (rest & Ht).
  exists r, t', rest. split; [reflexivity|exact Ht].
Defined.

End UiFacts.

